(** * Netstat security scanner: the risk-driven response engine

    A shallow embedding of [netstat_security_scanner.py]: the whitelist
    evaluator, the block / unblock / suspend / resume / terminate operations of
    [SecurityResponseManager], the expiry sweeper, the audit log, the
    rate-limited automatic response controller, the basic risk scorer and the
    configuration merge of [AdvancedNetstatScanner].

    Conventions.
    - Python strings are modelled as [string] (byte strings); [lower] folds the
      ASCII letters only.
    - [datetime] values are [Z] microseconds counted from [datetime.min]
      (0001-01-01T00:00:00), [timedelta(hours=h)] is [h * 3600000000]; the ISO
      text stored in the database round-trips through [isoformat] /
      [fromisoformat], so tables hold the [Z] value itself.
    - Everything the operating system decides (firewall commands, psutil, the
      clock, the database driver, the operator's keyboard) is read from a
      [World] oracle indexed by a counter of external interactions, and every
      interaction is appended to a trace. *)

From Stdlib Require Import ZArith List String Ascii Bool Lia.
From stdpp Require Import base decidable option list gmap strings pretty.

Import ListNotations.
Local Open Scope string_scope.
Local Open Scope Z_scope.

(** ** Python string primitives *)

Module PyStr.

Definition is_upper (c : ascii) : bool :=
  let n := N_of_ascii c in ((65 <=? n)%N && (n <=? 90)%N).

Definition lower_ascii (c : ascii) : ascii :=
  if is_upper c then ascii_of_N (N_of_ascii c + 32) else c.

(** [s.lower()] *)
Fixpoint lower (s : string) : string :=
  match s with
  | EmptyString => EmptyString
  | String c r => String (lower_ascii c) (lower r)
  end.

(** [sub in s] *)
Fixpoint contains (sub s : string) : bool :=
  String.prefix sub s ||
  match s with
  | EmptyString => false
  | String _ r => contains sub r
  end.

(** [not s] *)
Definition is_empty (s : string) : bool :=
  match s with EmptyString => true | _ => false end.

(** [s.split(sep)] for a one-character separator. *)
Fixpoint split (sep : ascii) (s : string) : list string :=
  match s with
  | EmptyString => [EmptyString]
  | String c r =>
      if Ascii.eqb c sep then EmptyString :: split sep r
      else match split sep r with
           | [] => [String c EmptyString]
           | w :: ws => String c w :: ws
           end
  end.

Definition is_digit (c : ascii) : bool :=
  let n := N_of_ascii c in ((48 <=? n)%N && (n <=? 57)%N).

(** [s.isascii() and s.isdigit()] *)
Fixpoint all_digits (s : string) : bool :=
  match s with
  | EmptyString => true
  | String c r => is_digit c && all_digits r
  end.

Definition isdigit (s : string) : bool := negb (is_empty s) && all_digits s.

(** [int(s, 10)] on a string of decimal digits. *)
Fixpoint int_acc (acc : Z) (s : string) : Z :=
  match s with
  | EmptyString => acc
  | String c r => int_acc (10 * acc + (Z.of_N (N_of_ascii c) - 48)) r
  end.

Definition int (s : string) : Z := int_acc 0 s.

Definition eqb (a b : string) : bool := String.eqb a b.

Definition is_space (c : ascii) : bool :=
  let n := N_of_ascii c in
  ((n =? 32)%N || ((9 <=? n)%N && (n <=? 13)%N) || ((28 <=? n)%N && (n <=? 31)%N)).

Fixpoint lstrip (s : string) : string :=
  match s with
  | EmptyString => EmptyString
  | String c r => if is_space c then lstrip r else s
  end.

(** [s] without its trailing white space. *)
Fixpoint rstrip (s : string) : string :=
  match s with
  | EmptyString => EmptyString
  | String c r =>
      match rstrip r with
      | EmptyString => if is_space c then EmptyString else String c EmptyString
      | r' => String c r'
      end
  end.

(** [s.strip()] *)
Definition strip (s : string) : string := rstrip (lstrip s).

End PyStr.

(** ** The [ipaddress] standard library, as the scanner uses it

    [ip_address] and [ip_network] return [None] where Python raises
    [ValueError]. *)

Class IpAddressLib := {
  ip_obj : Type;
  ip_net : Type;
  ip_address : string -> option ip_obj;
  is_loopback : ip_obj -> bool;
  is_private : ip_obj -> bool;
  ip_network : string -> option ip_net;
  net_contains : ip_net -> ip_obj -> bool   (* [addr in net] *)
}.

(** The IPv4 half of CPython 3.11's [ipaddress]: addresses are 32-bit
    integers, networks are an address and a prefix length.  IPv6 text is not
    parsed by this instance. *)

Module IPv4.

Definition ALL_ONES : Z := 2 ^ 32 - 1.

(** [_parse_octet] *)
Definition parse_octet (octet_str : string) : option Z :=
  if PyStr.is_empty octet_str then None
  else if negb (PyStr.isdigit octet_str) then None
  else if (3 <? String.length octet_str)%nat then None
  else if negb (PyStr.eqb octet_str "0") && String.prefix "0" octet_str then None
  else let octet_int := PyStr.int octet_str in
       if 255 <? octet_int then None else Some octet_int.

(** [_ip_int_from_string] *)
Definition ip_int_from_string (ip_str : string) : option Z :=
  if PyStr.is_empty ip_str then None
  else match PyStr.split "." ip_str with
       | [a; b; c; d] =>
           match parse_octet a, parse_octet b, parse_octet c, parse_octet d with
           | Some a, Some b, Some c, Some d =>
               Some (Z.lor (Z.shiftl a 24) (Z.lor (Z.shiftl b 16) (Z.lor (Z.shiftl c 8) d)))
           | _, _, _, _ => None
           end
       | _ => None
       end.

(** [IPv4Address(addr_str)] *)
Definition address (addr_str : string) : option Z :=
  if PyStr.contains "/" addr_str then None else ip_int_from_string addr_str.

(** [_ip_int_from_prefix] *)
Definition ip_int_from_prefix (prefixlen : Z) : Z :=
  Z.lxor ALL_ONES (Z.shiftr ALL_ONES prefixlen).

(** [_count_righthand_zero_bits(number, 32)], by scanning the low bits. *)
Fixpoint count_zero_bits (fuel : nat) (number : Z) : Z :=
  match fuel with
  | O => 0
  | S k => if Z.testbit number 0 then 0 else 1 + count_zero_bits k (Z.shiftr number 1)
  end.

Definition count_righthand_zero_bits (number : Z) : Z :=
  if number =? 0 then 32 else count_zero_bits 32 number.

(** [_prefix_from_ip_int] *)
Definition prefix_from_ip_int (ip_int : Z) : option Z :=
  let trailing_zeroes := count_righthand_zero_bits ip_int in
  let prefixlen := 32 - trailing_zeroes in
  let leading_ones := Z.shiftr ip_int trailing_zeroes in
  let all_ones := Z.shiftl 1 prefixlen - 1 in
  if leading_ones =? all_ones then Some prefixlen else None.

(** [_prefix_from_prefix_string] *)
Definition prefix_from_prefix_string (s : string) : option Z :=
  if negb (PyStr.isdigit s) then None
  else let prefixlen := PyStr.int s in
       if (0 <=? prefixlen) && (prefixlen <=? 32) then Some prefixlen else None.

(** [_prefix_from_ip_string] *)
Definition prefix_from_ip_string (s : string) : option Z :=
  match ip_int_from_string s with
  | None => None
  | Some ip_int =>
      match prefix_from_ip_int ip_int with
      | Some p => Some p
      | None => prefix_from_ip_int (Z.lxor ip_int ALL_ONES)
      end
  end.

(** [_make_netmask] on a string argument: the prefix length. *)
Definition make_netmask (arg : string) : option Z :=
  match prefix_from_prefix_string arg with
  | Some p => Some p
  | None => prefix_from_ip_string arg
  end.

Record net := Net { network_address : Z; prefixlen : Z }.

Definition netmask (n : net) : Z := ip_int_from_prefix (prefixlen n).

(** [IPv4Network(address, strict=True)] *)
Definition network (s : string) : option net :=
  match PyStr.split "/" s with
  | [addr] =>
      match address addr with
      | Some packed => Some (Net packed 32)
      | None => None
      end
  | [addr; mask] =>
      match address addr, make_netmask mask with
      | Some packed, Some p =>
          if Z.land packed (ip_int_from_prefix p) =? packed
          then Some (Net packed p) else None
      | _, _ => None
      end
  | _ => None
  end.

(** [other in self] for an address [other]. *)
Definition contains (n : net) (ip : Z) : bool :=
  Z.land ip (netmask n) =? network_address n.

Definition ip4 (a b c d : Z) : Z := a * 16777216 + b * 65536 + c * 256 + d.

(** [_IPv4Constants] *)
Definition loopback_network : net := Net (ip4 127 0 0 0) 8.

Definition private_networks : list net :=
  [ Net (ip4 0 0 0 0) 8;        Net (ip4 10 0 0 0) 8;
    Net (ip4 127 0 0 0) 8;      Net (ip4 169 254 0 0) 16;
    Net (ip4 172 16 0 0) 12;    Net (ip4 192 0 0 0) 24;
    Net (ip4 192 0 0 170) 31;   Net (ip4 192 0 2 0) 24;
    Net (ip4 192 168 0 0) 16;   Net (ip4 198 18 0 0) 15;
    Net (ip4 198 51 100 0) 24;  Net (ip4 203 0 113 0) 24;
    Net (ip4 240 0 0 0) 4;      Net (ip4 255 255 255 255) 32 ].

Definition private_networks_exceptions : list net :=
  [ Net (ip4 192 0 0 9) 32; Net (ip4 192 0 0 10) 32 ].

Definition is_loopback (ip : Z) : bool := contains loopback_network ip.

Definition is_private (ip : Z) : bool :=
  existsb (fun n => contains n ip) private_networks
  && forallb (fun n => negb (contains n ip)) private_networks_exceptions.

End IPv4.

#[export] Instance python_ipv4 : IpAddressLib := {|
  ip_obj := Z;
  ip_net := IPv4.net;
  ip_address := IPv4.address;
  is_loopback := IPv4.is_loopback;
  is_private := IPv4.is_private;
  ip_network := IPv4.network;
  net_contains := IPv4.contains
|}.

(** ** Configuration, as the engine reads it *)

Record ResponseConfig := {
  enabled : bool;
  auto_response : bool;
  require_confirmation : bool;
  ip_whitelist : list string;
  process_whitelist : list string;
  auto_block_threshold : Z;
  auto_terminate_threshold : Z;
  default_block_duration_hours : Z;
  max_auto_blocks_per_hour : Z
}.

Record Config := {
  suspicious_ports : list Z;
  response : ResponseConfig
}.

(** ** Exceptions, results and the outside world *)

Inductive Exn :=
| NoSuchProcess
| AccessDenied
| TimeoutExpired
| Error (what : string).

Inductive Res (A : Type) :=
| Ok (a : A)
| Raise (e : Exn).
Arguments Ok {A} a.
Arguments Raise {A} e.

(** Calls into psutil. *)
Inductive PsCall :=
| PsProcess (pid : Z)
| PsName (pid : Z)
| PsTerminate (pid : Z)
| PsWait (pid : Z) (timeout : Z)
| PsKill (pid : Z)
| PsSuspend (pid : Z)
| PsResume (pid : Z).

(** Calls into the file system (the pfctl rule file on macOS). *)
Inductive FsCall :=
| FsWrite (path content : string)
| FsExists (path : string)
| FsRemove (path : string).

Inductive Event :=
| EvRun (command : string)
| EvPs (call : PsCall)
| EvFs (call : FsCall).

Record World := {
  platform_system : string;
  run : nat -> string -> Res (Z * string);     (* returncode, stderr *)
  clock : nat -> Z;                            (* datetime.now() *)
  db_ok : nat -> bool;                         (* does this statement succeed *)
  ps : nat -> PsCall -> Res string;            (* proc.name() returns the name *)
  fs : nat -> FsCall -> Res bool;              (* os.path.exists returns the flag *)
  input : nat -> string
}.

(** ** Records held by the engine *)

Record BlockedRow := {
  br_ip : string;
  br_reason : string;
  br_timestamp : Z;
  br_auto_unblock_time : option Z
}.

Record SuspendedRow := {
  sr_pid : Z;
  sr_name : string;
  sr_reason : string;
  sr_timestamp : Z
}.

Record AuditEntry := {
  ae_action : string;
  ae_target : string;
  ae_reason : string;
  ae_timestamp : Z;
  ae_success : bool
}.

(** Messages returned to the caller, one constructor per f-string. *)
Inductive Msg :=
| NoPidProvided
| ProcessWhitelisted (name : string) (pid : Z) (what : string)
| Terminated (name : string) (pid : Z)
| ProcessNotFound (pid : Z)
| AccessDeniedFor (what : string) (pid : Z)
| ErrorOn (what : string) (pid : Z) (e : Exn)
| AlreadySuspended (pid : Z)
| Suspended (name : string) (pid : Z)
| NotSuspended (pid : Z)
| Resumed (pid : Z)
| IpWhitelistedOrInvalid (ip : string)
| IpAlreadyBlocked (ip : string)
| IpBlocked (ip : string) (expires : Z)
| FirewallFailed (command : string) (stderr : string)
| ErrorBlockingIp (ip : string) (e : Exn)
| IpNotBlocked (ip : string)
| IpUnblocked (ip : string)
| FailedToUnblock (ip : string)
| ErrorUnblockingIp (ip : string) (e : Exn).

(** Lines written through [self.logger] (the text log, not the audit store). *)
Inductive LogLine :=
| LogRefused (m : Msg)
| LogTerminating (name : string) (pid : Z) (reason : string)
| LogForceKill (name : string) (pid : Z)
| LogSuspended (name : string) (pid : Z) (reason : string)
| LogResumed (name : string) (pid : Z)
| LogBlockedIp (ip reason : string) (expires : Z)
| LogUnblockedIp (ip : string)
| LogAutoUnblocked (ip : string)
| LogErrorAutoUnblock (ip : string) (e : Exn)
| LogErrorSweep (e : Exn)
| LogErrorLogging (e : Exn).

Record State := {
  (* SecurityResponseManager *)
  blocked_ips : gset string;
  suspended_processes : gset Z;
  audit_log : list AuditEntry;
  logger : list LogLine;
  (* sqlite tables *)
  db_blocked_ips : list BlockedRow;
  db_suspended_processes : list SuspendedRow;
  db_response_log : list AuditEntry;
  (* AdvancedNetstatScanner *)
  auto_block_count : Z;
  last_auto_block_reset : Z;
  (* the outside world *)
  trace : list Event;
  tick : nat
}.

Definition set_blocked_ips (f : gset string -> gset string) (s : State) : State :=
  {| blocked_ips := f (blocked_ips s); suspended_processes := suspended_processes s;
     audit_log := audit_log s; logger := logger s; db_blocked_ips := db_blocked_ips s;
     db_suspended_processes := db_suspended_processes s;
     db_response_log := db_response_log s; auto_block_count := auto_block_count s;
     last_auto_block_reset := last_auto_block_reset s; trace := trace s; tick := tick s |}.

Definition set_suspended_processes (f : gset Z -> gset Z) (s : State) : State :=
  {| blocked_ips := blocked_ips s; suspended_processes := f (suspended_processes s);
     audit_log := audit_log s; logger := logger s; db_blocked_ips := db_blocked_ips s;
     db_suspended_processes := db_suspended_processes s;
     db_response_log := db_response_log s; auto_block_count := auto_block_count s;
     last_auto_block_reset := last_auto_block_reset s; trace := trace s; tick := tick s |}.

Definition set_audit_log (f : list AuditEntry -> list AuditEntry) (s : State) : State :=
  {| blocked_ips := blocked_ips s; suspended_processes := suspended_processes s;
     audit_log := f (audit_log s); logger := logger s; db_blocked_ips := db_blocked_ips s;
     db_suspended_processes := db_suspended_processes s;
     db_response_log := db_response_log s; auto_block_count := auto_block_count s;
     last_auto_block_reset := last_auto_block_reset s; trace := trace s; tick := tick s |}.

Definition set_logger (f : list LogLine -> list LogLine) (s : State) : State :=
  {| blocked_ips := blocked_ips s; suspended_processes := suspended_processes s;
     audit_log := audit_log s; logger := f (logger s); db_blocked_ips := db_blocked_ips s;
     db_suspended_processes := db_suspended_processes s;
     db_response_log := db_response_log s; auto_block_count := auto_block_count s;
     last_auto_block_reset := last_auto_block_reset s; trace := trace s; tick := tick s |}.

Definition set_db_blocked_ips (f : list BlockedRow -> list BlockedRow) (s : State) : State :=
  {| blocked_ips := blocked_ips s; suspended_processes := suspended_processes s;
     audit_log := audit_log s; logger := logger s; db_blocked_ips := f (db_blocked_ips s);
     db_suspended_processes := db_suspended_processes s;
     db_response_log := db_response_log s; auto_block_count := auto_block_count s;
     last_auto_block_reset := last_auto_block_reset s; trace := trace s; tick := tick s |}.

Definition set_db_suspended_processes
    (f : list SuspendedRow -> list SuspendedRow) (s : State) : State :=
  {| blocked_ips := blocked_ips s; suspended_processes := suspended_processes s;
     audit_log := audit_log s; logger := logger s; db_blocked_ips := db_blocked_ips s;
     db_suspended_processes := f (db_suspended_processes s);
     db_response_log := db_response_log s; auto_block_count := auto_block_count s;
     last_auto_block_reset := last_auto_block_reset s; trace := trace s; tick := tick s |}.

Definition set_db_response_log (f : list AuditEntry -> list AuditEntry) (s : State) : State :=
  {| blocked_ips := blocked_ips s; suspended_processes := suspended_processes s;
     audit_log := audit_log s; logger := logger s; db_blocked_ips := db_blocked_ips s;
     db_suspended_processes := db_suspended_processes s;
     db_response_log := f (db_response_log s); auto_block_count := auto_block_count s;
     last_auto_block_reset := last_auto_block_reset s; trace := trace s; tick := tick s |}.

Definition set_auto_block_count (f : Z -> Z) (s : State) : State :=
  {| blocked_ips := blocked_ips s; suspended_processes := suspended_processes s;
     audit_log := audit_log s; logger := logger s; db_blocked_ips := db_blocked_ips s;
     db_suspended_processes := db_suspended_processes s;
     db_response_log := db_response_log s; auto_block_count := f (auto_block_count s);
     last_auto_block_reset := last_auto_block_reset s; trace := trace s; tick := tick s |}.

Definition set_last_auto_block_reset (f : Z -> Z) (s : State) : State :=
  {| blocked_ips := blocked_ips s; suspended_processes := suspended_processes s;
     audit_log := audit_log s; logger := logger s; db_blocked_ips := db_blocked_ips s;
     db_suspended_processes := db_suspended_processes s;
     db_response_log := db_response_log s; auto_block_count := auto_block_count s;
     last_auto_block_reset := f (last_auto_block_reset s); trace := trace s; tick := tick s |}.

Definition set_trace (f : list Event -> list Event) (s : State) : State :=
  {| blocked_ips := blocked_ips s; suspended_processes := suspended_processes s;
     audit_log := audit_log s; logger := logger s; db_blocked_ips := db_blocked_ips s;
     db_suspended_processes := db_suspended_processes s;
     db_response_log := db_response_log s; auto_block_count := auto_block_count s;
     last_auto_block_reset := last_auto_block_reset s; trace := f (trace s); tick := tick s |}.

Definition set_tick (f : nat -> nat) (s : State) : State :=
  {| blocked_ips := blocked_ips s; suspended_processes := suspended_processes s;
     audit_log := audit_log s; logger := logger s; db_blocked_ips := db_blocked_ips s;
     db_suspended_processes := db_suspended_processes s;
     db_response_log := db_response_log s; auto_block_count := auto_block_count s;
     last_auto_block_reset := last_auto_block_reset s; trace := trace s; tick := f (tick s) |}.

(** ** A state-and-exception monad for the Python methods

    A raised exception keeps the state reached so far, as in Python. *)

Definition M (A : Type) : Type := State -> Res A * State.

Definition ret {A} (a : A) : M A := fun s => (Ok a, s).

Definition bind {A B} (m : M A) (f : A -> M B) : M B :=
  fun s => match m s with
           | (Ok a, s') => f a s'
           | (Raise e, s') => (Raise e, s')
           end.

Definition raise {A} (e : Exn) : M A := fun s => (Raise e, s).

(** [try: m  except Exception as e: h e] *)
Definition try_except {A} (m : M A) (h : Exn -> M A) : M A :=
  fun s => match m s with
           | (Ok a, s') => (Ok a, s')
           | (Raise e, s') => h e s'
           end.

Definition get : M State := fun s => (Ok s, s).
Definition modify (f : State -> State) : M unit := fun s => (Ok tt, f s).

Declare Scope py_scope.
Delimit Scope py_scope with py.
Notation "x <- m ;; k" := (bind m (fun x => k))
  (at level 100, m at next level, right associativity) : py_scope.
Notation "m ;;; k" := (bind m (fun _ => k))
  (at level 100, right associativity) : py_scope.
Local Open Scope py_scope.

Definition when (b : bool) (m : M unit) : M unit := if b then m else ret tt.

Definition of_res {A} (r : Res A) : M A :=
  match r with Ok a => ret a | Raise e => raise e end.

(** [timedelta(hours=h)] in microseconds. *)
Definition hours (h : Z) : Z := h * 3600000000.

(** [datetime.max] (9999-12-31T23:59:59.999999), in microseconds from
    [datetime.min]. *)
Definition datetime_max : Z := 3652059 * 86400000000 - 1.

(** [now + timedelta(hours=h)] is representable: the timedelta holds at most
    999999999 days either way and the sum is a date of the years 1 to 9999.
    Python raises [OverflowError] otherwise. *)
Definition expiry_in_range (now h : Z) : bool :=
  (Z.abs (h / 24) <=? 999999999) && (0 <=? now + hours h) && (now + hours h <=? datetime_max).

(** [s.replace('.', '_')] *)
Fixpoint replace_dots (s : string) : string :=
  match s with
  | EmptyString => EmptyString
  | String c r => String (if Ascii.eqb c "."%char then "_"%char else c) (replace_dots r)
  end.

(** [INSERT OR REPLACE INTO blocked_ips]: [ip] is the primary key. *)
Definition insert_or_replace_blocked (row : BlockedRow) (t : list BlockedRow) : list BlockedRow :=
  (List.filter (fun r => negb (PyStr.eqb (br_ip r) (br_ip row))) t ++ [row])%list.

(** [INSERT OR REPLACE INTO suspended_processes]: [pid] is the primary key. *)
Definition insert_or_replace_suspended (row : SuspendedRow) (t : list SuspendedRow)
  : list SuspendedRow :=
  (List.filter (fun r => negb (sr_pid r =? sr_pid row)) t ++ [row])%list.

(** [DELETE FROM blocked_ips WHERE ip = ?] *)
Definition delete_blocked (ip : string) (t : list BlockedRow) : list BlockedRow :=
  List.filter (fun r => negb (PyStr.eqb (br_ip r) ip)) t.

(** [DELETE FROM suspended_processes WHERE pid = ?] *)
Definition delete_suspended (pid : Z) (t : list SuspendedRow) : list SuspendedRow :=
  List.filter (fun r => negb (sr_pid r =? pid)) t.

(** [SELECT ip, auto_unblock_time FROM blocked_ips WHERE auto_unblock_time IS NOT NULL] *)
Definition select_expiring (t : list BlockedRow) : list (string * Z) :=
  flat_map (fun r => match br_auto_unblock_time r with
                     | Some t => [(br_ip r, t)]
                     | None => []
                     end) t.

(** [l[-n:]] for a positive [n] *)
Definition last_n {A} (n : nat) (l : list A) : list A := skipn (length l - n) l.

(** Python truthiness of an optional integer: [None] and [0] are false. *)
Definition truthy_pid (pid : option Z) : bool :=
  match pid with Some p => negb (p =? 0) | None => false end.

(** Python truthiness of an optional string: [None] and [''] are false. *)
Definition truthy_str (s : option string) : bool :=
  match s with Some x => negb (PyStr.is_empty x) | None => false end.

(** ** Connections and alerts *)

Inductive Severity := High | Medium.

(** The alert dictionary: its type is always ['suspicious_connection'] and its
    message is formatted from the risk score. *)
Record Alert := {
  al_severity : Severity;
  al_risk : Z
}.

Record Connection := {
  local_ip : option string;
  local_port : option Z;
  foreign_ip : option string;
  foreign_port : option Z;
  pid : option Z;
  program : option string;
  risk_score : Z;
  alerts : list Alert
}.

Definition set_risk_score (r : Z) (c : Connection) : Connection :=
  {| local_ip := local_ip c; local_port := local_port c; foreign_ip := foreign_ip c;
     foreign_port := foreign_port c; pid := pid c; program := program c;
     risk_score := r; alerts := alerts c |}.

Definition set_alerts (a : list Alert) (c : Connection) : Connection :=
  {| local_ip := local_ip c; local_port := local_port c; foreign_ip := foreign_ip c;
     foreign_port := foreign_port c; pid := pid c; program := program c;
     risk_score := risk_score c; alerts := a |}.

Section Engine.

Context {lib : IpAddressLib}.
Variable w : World.
Variable config : Config.

(** *** Primitive interactions with the world *)

Definition next_tick : M nat :=
  fun s => (Ok (tick s), set_tick S s).

Definition emit (e : Event) : M unit :=
  modify (set_trace (fun t => (t ++ [e])%list)).

Definition datetime_now : M Z :=
  t <- next_tick ;; ret (clock w t).

Definition subprocess_run (command : string) : M (Z * string) :=
  t <- next_tick ;; emit (EvRun command) ;;; of_res (run w t command).

Definition psutil (call : PsCall) : M string :=
  t <- next_tick ;; emit (EvPs call) ;;; of_res (ps w t call).

Definition os_call (call : FsCall) : M bool :=
  t <- next_tick ;; emit (EvFs call) ;;; of_res (fs w t call).

Definition db_execute (f : State -> State) : M unit :=
  t <- next_tick ;;
  if db_ok w t then modify f else raise (Error "sqlite3.Error").

Definition db_commit : M unit := db_execute (fun s => s).

Definition db_select {A} (q : State -> A) : M A :=
  t <- next_tick ;;
  if db_ok w t then (s <- get ;; ret (q s)) else raise (Error "sqlite3.Error").

(** [input(prompt)]: the line the operator types.  The sessions modelled
    are those in which the operator answers every prompt: standard input
    stays open (no [EOFError]) and the prompt is not interrupted (no
    [KeyboardInterrupt]). *)
Definition read_input : M string :=
  t <- next_tick ;; ret (input w t).

Definition log (l : LogLine) : M unit :=
  modify (set_logger (fun ls => (ls ++ [l])%list)).

(** *** SecurityResponseManager *)

Definition critical_processes : list string :=
  [ "systemd"; "kernel"; "kthreadd"; "migration"; "rcu_"; "watchdog";
    "sshd"; "init"; "dbus"; "networkmanager"; "systemd-"; "cron";
    "rsyslog"; "ntpd"; "chronyd"; "apache2"; "nginx"; "mysql";
    "postgresql"; "redis-server"; "mongodb"; "docker"; "kubelet" ].

Definition is_whitelisted_process (process_name : option string) (pid : option Z) : bool :=
  match process_name with
  | None => false
  | Some process_name =>
      if PyStr.is_empty process_name then false
      else
        let process_name_lower := PyStr.lower process_name in
        if existsb (fun critical => PyStr.contains critical process_name_lower)
                   critical_processes
        then true
        else if existsb (PyStr.eqb process_name) (process_whitelist (response config))
        then true
        else match pid with
             | Some pid => if negb (pid =? 0) && (pid <=? 10) then true else false
             | None => false
             end
  end.

(** One pass of the loop over [ip_whitelist]: does this entry admit [ip]? *)
Definition whitelist_entry_matches (ip : string) (ip_obj : ip_obj) (whitelisted_range : string)
  : bool :=
  match ip_network whitelisted_range with
  | Some net => net_contains net ip_obj
  | None => PyStr.eqb ip whitelisted_range
  end.

Definition is_whitelisted_ip (ip : string) : bool :=
  if PyStr.is_empty ip then false
  else match ip_address ip with
       | Some ip_obj =>
           if is_loopback ip_obj || is_private ip_obj then true
           else existsb (whitelist_entry_matches ip ip_obj) (ip_whitelist (response config))
       | None => false
       end.

Definition log_response (action target reason : string) (success : bool) : M unit :=
  try_except
    (t1 <- datetime_now ;;
     db_execute (set_db_response_log (fun l => (l ++
       [{| ae_action := action; ae_target := target; ae_reason := reason;
           ae_timestamp := t1; ae_success := success |}])%list)) ;;;
     db_commit ;;;
     t2 <- datetime_now ;;
     modify (set_audit_log (fun l => (l ++
       [{| ae_action := action; ae_target := target; ae_reason := reason;
           ae_timestamp := t2; ae_success := success |}])%list)) ;;;
     s <- get ;;
     when (1000 <? length (audit_log s))%nat
          (modify (set_audit_log (last_n 1000))))
    (fun e => log (LogErrorLogging e)).

(** [psutil.Process(pid)]: a negative pid is rejected before the system is asked. *)
Definition psutil_Process (pid : Z) : M unit :=
  if pid <? 0 then raise (Error "ValueError")
  else (psutil (PsProcess pid) ;;; ret tt).

Definition pid_target (pid : Z) : string := "PID:" ++ pretty pid.

Definition pid_name_target (pid : Z) (name : string) : string :=
  "PID:" ++ pretty pid ++ ":" ++ name.

Definition terminate_process (pid : option Z) (reason : string) : M (bool * Msg) :=
  match pid with
  | None => ret (false, NoPidProvided)
  | Some pid =>
      if pid =? 0 then ret (false, NoPidProvided)
      else
        try_except
          (psutil_Process pid ;;;
           process_name <- psutil (PsName pid) ;;
           if is_whitelisted_process (Some process_name) (Some pid) then
             let message := ProcessWhitelisted process_name pid "termination" in
             log (LogRefused message) ;;;
             ret (false, message)
           else
             log (LogTerminating process_name pid reason) ;;;
             psutil (PsTerminate pid) ;;;
             try_except
               (psutil (PsWait pid 5) ;;; ret tt)
               (fun e => match e with
                         | TimeoutExpired =>
                             log (LogForceKill process_name pid) ;;;
                             psutil (PsKill pid) ;;;
                             psutil (PsWait pid 3) ;;;
                             ret tt
                         | _ => raise e
                         end) ;;;
             log_response "terminate_process" (pid_name_target pid process_name) reason true ;;;
             ret (true, Terminated process_name pid))
          (fun e => match e with
                    | NoSuchProcess => ret (false, ProcessNotFound pid)
                    | AccessDenied => ret (false, AccessDeniedFor "terminate" pid)
                    | _ =>
                        log_response "terminate_process" (pid_target pid) reason false ;;;
                        ret (false, ErrorOn "terminating" pid e)
                    end)
  end.

Definition suspend_process (pid : option Z) (reason : string) : M (bool * Msg) :=
  match pid with
  | None => ret (false, NoPidProvided)
  | Some pid =>
      if pid =? 0 then ret (false, NoPidProvided)
      else
        try_except
          (psutil_Process pid ;;;
           process_name <- psutil (PsName pid) ;;
           if is_whitelisted_process (Some process_name) (Some pid) then
             let message := ProcessWhitelisted process_name pid "suspension" in
             log (LogRefused message) ;;;
             ret (false, message)
           else
             s <- get ;;
             if bool_decide (pid ∈ suspended_processes s) then
               ret (false, AlreadySuspended pid)
             else
               psutil (PsSuspend pid) ;;;
               modify (set_suspended_processes (fun ps => ps ∪ {[pid]})) ;;;
               t <- datetime_now ;;
               db_execute (set_db_suspended_processes (insert_or_replace_suspended
                 {| sr_pid := pid; sr_name := process_name; sr_reason := reason;
                    sr_timestamp := t |})) ;;;
               db_commit ;;;
               log (LogSuspended process_name pid reason) ;;;
               log_response "suspend_process" (pid_name_target pid process_name) reason true ;;;
               ret (true, Suspended process_name pid))
          (fun e => match e with
                    | NoSuchProcess => ret (false, ProcessNotFound pid)
                    | AccessDenied => ret (false, AccessDeniedFor "suspend" pid)
                    | _ =>
                        log_response "suspend_process" (pid_target pid) reason false ;;;
                        ret (false, ErrorOn "suspending" pid e)
                    end)
  end.

Definition resume_process (pid : Z) : M (bool * Msg) :=
  try_except
    (s <- get ;;
     if negb (bool_decide (pid ∈ suspended_processes s)) then
       ret (false, NotSuspended pid)
     else
       psutil_Process pid ;;;
       psutil (PsResume pid) ;;;
       modify (set_suspended_processes (fun ps => ps ∖ {[pid]})) ;;;
       db_execute (set_db_suspended_processes (delete_suspended pid)) ;;;
       db_commit ;;;
       name1 <- psutil (PsName pid) ;;
       log (LogResumed name1 pid) ;;;
       name2 <- psutil (PsName pid) ;;
       log_response "resume_process" (pid_name_target pid name2) "Manual resume" true ;;;
       ret (true, Resumed pid))
    (fun e => match e with
              | NoSuchProcess => ret (false, ProcessNotFound pid)
              | _ => ret (false, ErrorOn "resuming" pid e)
              end).

Definition system : string := PyStr.lower (platform_system w).

Definition rule_file (ip : string) : string :=
  "/tmp/block_" ++ replace_dots ip ++ ".conf".

Definition rule_name (ip : string) : string :=
  "NetstatSecurity_Block_" ++ replace_dots ip.

Definition quote : string := String (ascii_of_N 34) EmptyString.

(** The platform branch of [block_ip]: the success flag, the command and
    the result of the checked call ([None] where Python leaves the variable
    unassigned). *)
Definition install_rules (ip : string) : M (bool * option string * option (Z * string)) :=
  if PyStr.eqb system "linux" then
    let command := "iptables -A INPUT -s " ++ ip ++ " -j DROP" in
    result <- subprocess_run command ;;
    let success := fst result =? 0 in
    when success
      (subprocess_run ("iptables -A OUTPUT -d " ++ ip ++ " -j DROP") ;;; ret tt) ;;;
    ret (success, Some command, Some result)
  else if PyStr.eqb system "darwin" then
    let rule_file := rule_file ip in
    os_call (FsWrite rule_file
               ("block in from " ++ ip ++ " to any" ++ String (ascii_of_N 10) EmptyString
                ++ "block out from any to " ++ ip ++ String (ascii_of_N 10) EmptyString)) ;;;
    let command := "pfctl -f " ++ rule_file in
    result <- subprocess_run command ;;
    ret (fst result =? 0, Some command, Some result)
  else if PyStr.eqb system "windows" then
    let rule_name := rule_name ip in
    let command := "netsh advfirewall firewall add rule name=" ++ quote ++ rule_name
                   ++ quote ++ " dir=in action=block remoteip=" ++ ip in
    result <- subprocess_run command ;;
    let success := fst result =? 0 in
    when success
      (subprocess_run ("netsh advfirewall firewall add rule name=" ++ quote ++ rule_name
                       ++ "_OUT" ++ quote ++ " dir=out action=block remoteip=" ++ ip) ;;;
       ret tt) ;;;
    ret (success, Some command, Some result)
  else ret (false, None, None).

(** [now + timedelta(hours=duration_hours)] *)
Definition plus_timedelta_hours (now duration_hours : Z) : M Z :=
  if expiry_in_range now duration_hours then ret (now + hours duration_hours)
  else raise (Error "OverflowError").

Definition block_ip (ip reason : string) (duration_hours : Z) : M (bool * Msg) :=
  if PyStr.is_empty ip || is_whitelisted_ip ip then ret (false, IpWhitelistedOrInvalid ip)
  else
    s <- get ;;
    if bool_decide (ip ∈ blocked_ips s) then ret (false, IpAlreadyBlocked ip)
    else
      try_except
        (r <- install_rules ip ;;
         let '(success, command, result) := r in
         if success then
           modify (set_blocked_ips (fun ips => ips ∪ {[ip]})) ;;;
           t1 <- datetime_now ;;
           auto_unblock_time <- plus_timedelta_hours t1 duration_hours ;;
           t2 <- datetime_now ;;
           db_execute (set_db_blocked_ips (insert_or_replace_blocked
             {| br_ip := ip; br_reason := reason; br_timestamp := t2;
                br_auto_unblock_time := Some auto_unblock_time |})) ;;;
           db_commit ;;;
           log (LogBlockedIp ip reason auto_unblock_time) ;;;
           log_response "block_ip" ip reason true ;;;
           ret (true, IpBlocked ip auto_unblock_time)
         else
           match command, result with
           | Some command, Some result =>
               log_response "block_ip" ip reason false ;;;
               ret (false, FirewallFailed command (snd result))
           | _, _ => raise (Error "UnboundLocalError")
           end)
        (fun e =>
           log_response "block_ip" ip reason false ;;;
           ret (false, ErrorBlockingIp ip e)).

(** The platform branch of [unblock_ip]: the success flag. *)
Definition remove_rules (ip : string) : M bool :=
  if PyStr.eqb system "linux" then
    subprocess_run ("iptables -D INPUT -s " ++ ip ++ " -j DROP") ;;;
    subprocess_run ("iptables -D OUTPUT -d " ++ ip ++ " -j DROP") ;;;
    ret true
  else if PyStr.eqb system "darwin" then
    let rule_file := rule_file ip in
    present <- os_call (FsExists rule_file) ;;
    when present (os_call (FsRemove rule_file) ;;; ret tt) ;;;
    ret true
  else if PyStr.eqb system "windows" then
    let rule_name := rule_name ip in
    subprocess_run ("netsh advfirewall firewall delete rule name=" ++ quote ++ rule_name
                    ++ quote) ;;;
    subprocess_run ("netsh advfirewall firewall delete rule name=" ++ quote ++ rule_name
                    ++ "_OUT" ++ quote) ;;;
    ret true
  else ret false.

Definition unblock_ip (ip : string) : M (bool * Msg) :=
  s <- get ;;
  if negb (bool_decide (ip ∈ blocked_ips s)) then ret (false, IpNotBlocked ip)
  else
    try_except
      (success <- remove_rules ip ;;
       if success then
         modify (set_blocked_ips (fun ips => ips ∖ {[ip]})) ;;;
         db_execute (set_db_blocked_ips (delete_blocked ip)) ;;;
         db_commit ;;;
         log (LogUnblockedIp ip) ;;;
         log_response "unblock_ip" ip "Manual unblock" true ;;;
         ret (true, IpUnblocked ip)
       else ret (false, FailedToUnblock ip))
      (fun e => ret (false, ErrorUnblockingIp ip e)).

(** The body of the [for] loop of [auto_unblock_expired]. *)
Definition sweep_one (now : Z) (row : string * Z) : M unit :=
  let '(ip, auto_unblock_time) := row in
  try_except
    (if auto_unblock_time <=? now then
       r <- unblock_ip ip ;;
       when (fst r) (log (LogAutoUnblocked ip))
     else ret tt)
    (fun e => log (LogErrorAutoUnblock ip e)).

Fixpoint for_each {A} (body : A -> M unit) (l : list A) : M unit :=
  match l with
  | [] => ret tt
  | x :: r => body x ;;; for_each body r
  end.

Definition auto_unblock_expired : M unit :=
  try_except
    (now <- datetime_now ;;
     rows <- db_select (fun s => select_expiring (db_blocked_ips s)) ;;
     for_each (sweep_one now) rows)
    (fun e => log (LogErrorSweep e)).


(** *** AdvancedNetstatScanner: the automatic response controller *)

Definition check_auto_block_limits : M bool :=
  now <- datetime_now ;;
  s <- get ;;
  when (hours 1 <? now - last_auto_block_reset s)
       (modify (set_auto_block_count (fun _ => 0)) ;;;
        modify (set_last_auto_block_reset (fun _ => now))) ;;;
  s <- get ;;
  ret (auto_block_count s <? max_auto_blocks_per_hour (response config)).

Definition risk_reason (prefix : string) (risk_score : Z) : string :=
  prefix ++ ": Risk score " ++ pretty risk_score.

(** What [prompt_manual_response] did after reading the operator's choice. *)
Inductive ManualOutcome :=
| ManualBlock (r : bool * Msg)
| ManualSuspend (r : bool * Msg)
| ManualTerminate (r : bool * Msg)
| TerminationCancelled
| Ignoring
| ShowDetails
| NoChoice.

Definition prompt_manual_response (connection : Connection) : M ManualOutcome :=
  raw <- read_input ;;
  let choice := PyStr.strip raw in
  if PyStr.eqb choice "1" && truthy_str (foreign_ip connection) then
    r <- block_ip (default "" (foreign_ip connection))
                  (risk_reason "Manual block" (risk_score connection)) 24 ;;
    ret (ManualBlock r)
  else if PyStr.eqb choice "2" && truthy_pid (pid connection) then
    r <- suspend_process (pid connection)
                         (risk_reason "Manual suspend" (risk_score connection)) ;;
    ret (ManualSuspend r)
  else if PyStr.eqb choice "3" && truthy_pid (pid connection) then
    confirm <- read_input ;;
    if PyStr.eqb (PyStr.lower confirm) "y" then
      r <- terminate_process (pid connection)
                             (risk_reason "Manual terminate" (risk_score connection)) ;;
      ret (ManualTerminate r)
    else ret TerminationCancelled
  else if PyStr.eqb choice "4" then ret Ignoring
  else if PyStr.eqb choice "5" then ret ShowDetails
  else ret NoChoice.

(** What [handle_suspicious_connection] did (it prints, and returns nothing). *)
Inductive Outcome :=
| ResponseDisabled
| AutoTerminated (m : Msg)
| AutoTerminateFailed (m : Msg)
| AutoBlocked (m : Msg)
| AutoBlockFailed (m : Msg)
| Prompted (o : ManualOutcome)
| NoAction.

Definition handle_suspicious_connection (connection : Connection) : M Outcome :=
  if negb (enabled (response config)) then ret ResponseDisabled
  else
    let risk_score := risk_score connection in
    let foreign_ip := foreign_ip connection in
    let pid := pid connection in
    within_budget <- (if auto_response (response config)
                      then check_auto_block_limits else ret false) ;;
    if within_budget then
      if (auto_terminate_threshold (response config) <=? risk_score)
         && truthy_pid pid
         && negb (is_whitelisted_process (program connection) pid)
      then
        r <- terminate_process pid (risk_reason "Auto-terminate" risk_score) ;;
        ret (if fst r then AutoTerminated (snd r) else AutoTerminateFailed (snd r))
      else if (auto_block_threshold (response config) <=? risk_score)
              && truthy_str foreign_ip
              && negb (is_whitelisted_ip (default "" foreign_ip))
      then
        r <- block_ip (default "" foreign_ip) (risk_reason "Auto-block" risk_score)
                      (default_block_duration_hours (response config)) ;;
        if fst r then
          modify (set_auto_block_count (fun n => n + 1)) ;;;
          ret (AutoBlocked (snd r))
        else ret (AutoBlockFailed (snd r))
      else ret NoAction
    else if require_confirmation (response config) && (50 <? risk_score) then
      o <- prompt_manual_response connection ;;
      ret (Prompted o)
    else ret NoAction.

(** The loop of [real_time_monitor_with_response] over the analysed
    connections: only connections carrying alerts are handled. *)
Fixpoint handle_connections (connections : list Connection) : M (list Outcome) :=
  match connections with
  | [] => ret []
  | connection :: rest =>
      match alerts connection with
      | [] => handle_connections rest
      | _ :: _ =>
          o <- handle_suspicious_connection connection ;;
          os <- handle_connections rest ;;
          ret (o :: os)
      end
  end.

(** *** AdvancedNetstatScanner: the basic risk scorer *)

Definition is_internal_ip (ip : option string) : bool :=
  match ip with
  | None => true
  | Some ip =>
      if PyStr.is_empty ip then true
      else match ip_address ip with
           | Some ip_obj => is_private ip_obj || is_loopback ip_obj
           | None => false
           end
  end.

(** [port in self.config['suspicious_ports']] *)
Definition port_in (port : option Z) (ports : list Z) : bool :=
  match port with
  | Some p => existsb (Z.eqb p) ports
  | None => false
  end.

Definition suspicious_patterns : list string := ["temp"; "tmp"; "unknown"].

Definition suspicious_program (program : option string) : bool :=
  match program with
  | Some program =>
      negb (PyStr.is_empty program)
      && existsb (fun pattern => PyStr.contains pattern (PyStr.lower program))
                 suspicious_patterns
  | None => false
  end.

Definition calculate_basic_risk_score (connection : Connection) : Z :=
  let score := 0 in
  let score := if port_in (foreign_port connection) (suspicious_ports config)
               then score + 30 else score in
  let score := if port_in (local_port connection) (suspicious_ports config)
               then score + 25 else score in
  let foreign_ip := foreign_ip connection in
  let score := if truthy_str foreign_ip && negb (is_internal_ip foreign_ip)
               then score + 20 else score in
  let score := if suspicious_program (program connection)
               then score + 15 else score in
  Z.min score 100.

(** The analysis loop of [analyze_netstat_comprehensive] over the parsed
    connections: score, attach the alert, collect. *)
Definition analyze_connection (conn : Connection) : Connection * list Alert :=
  let risk_score := calculate_basic_risk_score conn in
  let conn := set_risk_score risk_score conn in
  if 50 <? risk_score then
    let alert := {| al_severity := if 80 <? risk_score then High else Medium;
                    al_risk := risk_score |} in
    (set_alerts [alert] conn, [alert])
  else (conn, []).

Fixpoint analyze_connections (connection_lines : list Connection)
  : list Connection * list Alert :=
  match connection_lines with
  | [] => ([], [])
  | conn :: rest =>
      let '(conn', new_alerts) := analyze_connection conn in
      let '(connections, all_alerts) := analyze_connections rest in
      (conn' :: connections, (new_alerts ++ all_alerts)%list)
  end.

End Engine.

(** ** Configuration documents and their merge *)

Local Set Warnings "-register-all".

(** A Python value as [json.load] or the built-in defaults produce it.  A
    dictionary is kept as its items in insertion order. *)
Inductive PyVal :=
| PNone
| PBool (b : bool)
| PInt (n : Z)
| PStr (s : string)
| PList (l : list PyVal)
| PSet (l : list PyVal)
| PDict (items : list (string * PyVal)).

Module Dict.

(** [d.get(key)] *)
Fixpoint get (key : string) (d : list (string * PyVal)) : option PyVal :=
  match d with
  | [] => None
  | (k, v) :: r => if PyStr.eqb k key then Some v else get key r
  end.

(** [d[key] = value]: an existing key keeps its position. *)
Fixpoint set (key : string) (value : PyVal) (d : list (string * PyVal))
  : list (string * PyVal) :=
  match d with
  | [] => [(key, value)]
  | (k, v) :: r =>
      if PyStr.eqb k key then (k, value) :: r else (k, v) :: set key value r
  end.

End Dict.

(** [deep_merge_config(base, update)], returning the merged [base].  Python
    raises on [update.items()] when [update] is not a dictionary; that can
    only happen at the top-level call, where [load_config] catches it and
    [base] is left as it was. *)
Fixpoint deep_merge_config (base : list (string * PyVal)) (update : PyVal) {struct update}
  : list (string * PyVal) :=
  match update with
  | PDict items =>
      (fix loop (items : list (string * PyVal)) (base : list (string * PyVal)) {struct items}
         : list (string * PyVal) :=
         match items with
         | [] => base
         | (key, value) :: rest =>
             loop rest
               match Dict.get key base, value with
               | Some (PDict sub), PDict _ =>
                   Dict.set key (PDict (deep_merge_config sub value)) base
               | _, _ => Dict.set key value base
               end
         end) items base
  | _ => base
  end.

(** [load_config]: [custom_config] is [None] when the file cannot be opened
    or parsed. *)
Definition load_config (config : list (string * PyVal)) (custom_config : option PyVal)
  : list (string * PyVal) :=
  match custom_config with
  | Some (PDict items) => deep_merge_config config (PDict items)
  | _ => config
  end.

Definition ints (l : list Z) : list PyVal := map PInt l.
Definition strs (l : list string) : list PyVal := map PStr l.

(** The built-in defaults of [AdvancedNetstatScanner.__init__]. *)
Definition default_config : list (string * PyVal) :=
  [ ("suspicious_ports", PSet (ints
       [1337; 31337; 12345; 54321; 9999; 6667; 6697;
        4444; 5555; 7777; 8888; 9090; 1234; 2222; 3333; 6666; 8080;
        1080; 1081; 5900; 5901; 3389; 23; 2323; 2332;
        4899; 5000; 5001; 8291; 50050; 50051]));
    ("legitimate_ports", PSet (ints
       [22; 25; 53; 80; 110; 143; 443; 465; 587; 993; 995;
        21; 990; 123; 161; 162; 636; 3306; 5432; 1433;
        6379; 27017; 9200; 9300; 9092; 2181; 5672; 15672]));
    ("response", PDict
       [ ("enabled", PBool false);
         ("auto_response", PBool false);
         ("require_confirmation", PBool true);
         ("ip_whitelist", PList (strs
            ["127.0.0.0/8"; "192.168.0.0/16"; "10.0.0.0/8"; "172.16.0.0/12"]));
         ("process_whitelist", PList (strs
            ["sshd"; "systemd"; "kernel"; "init"; "cron";
             "apache2"; "nginx"; "mysql"; "postgresql"]));
         ("auto_block_threshold", PInt 80);
         ("auto_terminate_threshold", PInt 90);
         ("default_block_duration_hours", PInt 24);
         ("max_auto_blocks_per_hour", PInt 10) ]);
    ("analysis", PDict
       [ ("enable_geolocation", PBool true);
         ("enable_whois", PBool true);
         ("enable_dns_lookup", PBool true);
         ("enable_banner_grab", PBool true);
         ("enable_ssl_analysis", PBool true);
         ("enable_threat_intel", PBool true);
         ("enable_process_analysis", PBool true);
         ("max_banner_length", PInt 1024);
         ("connection_timeout", PInt 5);
         ("max_concurrent_lookups", PInt 10);
         ("cache_duration_hours", PInt 24) ]);
    ("threat_intel_apis", PDict
       [ ("virustotal", PDict
            [ ("enabled", PBool false); ("api_key", PStr "");
              ("url", PStr "https://www.virustotal.com/vtapi/v2/ip-address/report") ]);
         ("abuseipdb", PDict
            [ ("enabled", PBool false); ("api_key", PStr "");
              ("url", PStr "https://api.abuseipdb.com/api/v2/check") ]);
         ("threatcrowd", PDict
            [ ("enabled", PBool true);
              ("url", PStr "https://www.threatcrowd.org/searchApi/v2/ip/report/") ]) ]);
    ("risk_weights", PDict
       [ ("suspicious_port", PInt 30);
         ("suspicious_country", PInt 25);
         ("threat_intel_hit", PInt 40);
         ("suspicious_process", PInt 35);
         ("ssl_issues", PInt 20);
         ("reverse_dns_mismatch", PInt 15);
         ("new_domain", PInt 10);
         ("tor_exit_node", PInt 45) ]) ].

(** The same defaults, in the typed form the engine reads. *)
Definition default_response : ResponseConfig := {|
  enabled := false;
  auto_response := false;
  require_confirmation := true;
  ip_whitelist := ["127.0.0.0/8"; "192.168.0.0/16"; "10.0.0.0/8"; "172.16.0.0/12"];
  process_whitelist := ["sshd"; "systemd"; "kernel"; "init"; "cron";
                        "apache2"; "nginx"; "mysql"; "postgresql"];
  auto_block_threshold := 80;
  auto_terminate_threshold := 90;
  default_block_duration_hours := 24;
  max_auto_blocks_per_hour := 10
|}.

Definition default_engine_config : Config := {|
  suspicious_ports :=
    [1337; 31337; 12345; 54321; 9999; 6667; 6697;
     4444; 5555; 7777; 8888; 9090; 1234; 2222; 3333; 6666; 8080;
     1080; 1081; 5900; 5901; 3389; 23; 2323; 2332;
     4899; 5000; 5001; 8291; 50050; 50051];
  response := default_response
|}.

(** [d[k1][k2]...]: the value at a path of keys, if every step is a dictionary. *)
Fixpoint lookup_path (path : list string) (v : PyVal) : option PyVal :=
  match path with
  | [] => Some v
  | key :: rest =>
      match v with
      | PDict items =>
          match Dict.get key items with
          | Some sub => lookup_path rest sub
          | None => None
          end
      | _ => None
      end
  end.


(** ** Predicates used in the statements *)

(** The name matches the built-in critical list (a substring of the
    lower-cased name) or the configured process whitelist (exactly). *)
Definition name_whitelisted (config : Config) (name : string) : bool :=
  existsb (fun critical => PyStr.contains critical (PyStr.lower name)) critical_processes
  || existsb (PyStr.eqb name) (process_whitelist (response config)).

(** The address is loopback, private, or admitted by a configured entry. *)
Definition whitelisted_address `{IpAddressLib} (config : Config) (ip : string) : Prop :=
  exists a, ip_address ip = Some a /\
    (is_loopback a = true \/ is_private a = true \/
     exists entry, In entry (ip_whitelist (response config)) /\
                   whitelist_entry_matches ip a entry = true).



(** The Ledger: the in-memory blocked set and the [blocked_ips] table. *)
Definition ledger_same (s s' : State) : Prop :=
  blocked_ips s' = blocked_ips s /\ db_blocked_ips s' = db_blocked_ips s.

Definition audit_entry (action target reason : string) (t : Z) (ok : bool) : AuditEntry :=
  {| ae_action := action; ae_target := target; ae_reason := reason;
     ae_timestamp := t; ae_success := ok |}.






(** [steps R m]: every run of [m] takes the state to one related by [R]. *)
Definition steps {A} (R : State -> State -> Prop) (m : M A) : Prop :=
  forall s, R s (snd (m s)).

(** The audit row that [unblock_ip] writes. *)
Definition is_manual_unblock (e : AuditEntry) : Prop :=
  ae_action e = "unblock_ip" /\ ae_reason e = "Manual unblock".

(** The [response_log] table only grew, by rows satisfying [P]. *)
Definition appends_only (P : AuditEntry -> Prop) (s s' : State) : Prop :=
  exists es, db_response_log s' = (db_response_log s ++ es)%list /\ Forall P es.

Definition is_auto_blocked (o : Outcome) : bool :=
  match o with AutoBlocked _ => true | _ => false end.

Definition is_automatic (o : Outcome) : bool :=
  match o with
  | AutoTerminated _ | AutoTerminateFailed _ | AutoBlocked _ | AutoBlockFailed _ => true
  | _ => false
  end.

Definition count_auto_blocked (outs : list Outcome) : Z :=
  Z.of_nat (length (List.filter is_auto_blocked outs)).

(** The keys of a dictionary are pairwise distinct, at every depth. *)
Fixpoint no_dup_keys (keys : list string) : bool :=
  match keys with
  | [] => true
  | k :: r => negb (existsb (PyStr.eqb k) r) && no_dup_keys r
  end.

Fixpoint well_formed (v : PyVal) : bool :=
  match v with
  | PDict items =>
      no_dup_keys (map fst items)
      && (fix all (items : list (string * PyVal)) : bool :=
            match items with
            | [] => true
            | (_, x) :: r => well_formed x && all r
            end) items
  | _ => true
  end.

(** The rows of [blocked_ips] whose key is [ip]. *)
Definition rows_for (ip : string) (t : list BlockedRow) : list BlockedRow :=
  List.filter (fun r => PyStr.eqb (br_ip r) ip) t.

(** ** Sample worlds and states *)

Definition empty_state : State := {|
  blocked_ips := ∅; suspended_processes := ∅; audit_log := []; logger := [];
  db_blocked_ips := []; db_suspended_processes := []; db_response_log := [];
  auto_block_count := 0; last_auto_block_reset := 0; trace := []; tick := 0
|}.

(** A Linux host where every command succeeds, the database accepts every
    statement, every process is called [tmpx] and the clock reads the
    interaction counter. *)
Definition linux_ok : World := {|
  platform_system := "Linux";
  run := fun _ _ => Ok (0, "");
  clock := fun t => Z.of_nat t;
  db_ok := fun _ => true;
  ps := fun _ _ => Ok "tmpx";
  fs := fun _ _ => Ok true;
  input := fun _ => "4"
|}.

(** The same host with an iptables that reports failure. *)
Definition linux_iptables_fails : World := {|
  platform_system := "Linux";
  run := fun _ _ => Ok (1, "iptables: Permission denied");
  clock := fun t => Z.of_nat t;
  db_ok := fun _ => true;
  ps := fun _ _ => Ok "tmpx";
  fs := fun _ _ => Ok true;
  input := fun _ => "4"
|}.

(** A host where psutil finds no process at all. *)
Definition linux_no_such_process : World := {|
  platform_system := "Linux";
  run := fun _ _ => Ok (0, "");
  clock := fun t => Z.of_nat t;
  db_ok := fun _ => true;
  ps := fun _ _ => Raise NoSuchProcess;
  fs := fun _ _ => Ok true;
  input := fun _ => "4"
|}.

(** A host whose processes report an empty name. *)
Definition linux_unnamed : World := {|
  platform_system := "Linux";
  run := fun _ _ => Ok (0, "");
  clock := fun t => Z.of_nat t;
  db_ok := fun _ => true;
  ps := fun _ _ => Ok "";
  fs := fun _ _ => Ok true;
  input := fun _ => "4"
|}.

(** The connection of the scoring scenario, and the same connection towards
    a globally routed address. *)
Definition scenario_connection : Connection := {|
  local_ip := None; local_port := None;
  foreign_ip := Some "203.0.113.5"; foreign_port := Some 31337;
  pid := Some 4821; program := Some "tmpx";
  risk_score := 0; alerts := []
|}.

Definition external_connection : Connection := {|
  local_ip := None; local_port := None;
  foreign_ip := Some "8.8.8.8"; foreign_port := Some 31337;
  pid := Some 4821; program := Some "tmpx";
  risk_score := 0; alerts := []
|}.

Definition minutes (m : Z) : Z := m * 60000000.

(** A Linux host whose clock reads 59 minutes during the first 22
    interactions and 61 minutes afterwards. *)
Definition linux_clock_jump : World := {|
  platform_system := "Linux";
  run := fun _ _ => Ok (0, "");
  clock := fun t => if (t <? 22)%nat then minutes 59 else minutes 61;
  db_ok := fun _ => true;
  ps := fun _ _ => Ok "tmpx";
  fs := fun _ _ => Ok true;
  input := fun _ => "4"
|}.

(** A Linux host whose clock stands still. *)
Definition linux_frozen : World := {|
  platform_system := "Linux";
  run := fun _ _ => Ok (0, "");
  clock := fun _ => 0;
  db_ok := fun _ => true;
  ps := fun _ _ => Ok "tmpx";
  fs := fun _ _ => Ok true;
  input := fun _ => "4"
|}.

(** Automatic responses enabled, no confirmation prompt, two automatic
    blocks per hour. *)
Definition auto_two_per_hour : Config := {|
  suspicious_ports := suspicious_ports default_engine_config;
  response := {|
    enabled := true;
    auto_response := true;
    require_confirmation := false;
    ip_whitelist := ip_whitelist default_response;
    process_whitelist := process_whitelist default_response;
    auto_block_threshold := 80;
    auto_terminate_threshold := 90;
    default_block_duration_hours := 24;
    max_auto_blocks_per_hour := 2
  |}
|}.

(** A scored connection above the block threshold, with no owning process. *)
Definition hostile (ip : string) : Connection := {|
  local_ip := None; local_port := Some 31337;
  foreign_ip := Some ip; foreign_port := Some 4444;
  pid := None; program := None;
  risk_score := 85;
  alerts := [{| al_severity := High; al_risk := 85 |}]
|}.

Definition three_hostile : list Connection :=
  [hostile "8.8.8.8"; hostile "8.8.4.4"; hostile "1.1.1.1"].

(** A configuration file that switches responses on and carries a key the
    scanner does not know. *)
Definition custom_document : PyVal :=
  PDict [ ("response", PDict [ ("enabled", PBool true); ("colour", PStr "red") ]);
          ("verbose", PBool true) ].

(** The value [deep_merge_config] stores under a key of the update. *)
Definition merged_value (old : option PyVal) (value : PyVal) : PyVal :=
  match old, value with
  | Some (PDict sub), PDict _ => PDict (deep_merge_config sub value)
  | _, _ => value
  end.

(** A Linux host at noon. *)
Definition linux_noon : World := {|
  platform_system := "Linux";
  run := fun _ _ => Ok (0, "");
  clock := fun t => hours 12 + Z.of_nat t;
  db_ok := fun _ => true;
  ps := fun _ _ => Ok "tmpx";
  fs := fun _ _ => Ok true;
  input := fun _ => "4"
|}.

(** The same host, where the third interaction (the first firewall command
    of a sweep) raises. *)
Definition linux_noon_first_command_raises : World := {|
  platform_system := "Linux";
  run := fun t _ => if (t =? 2)%nat then Raise (Error "OSError") else Ok (0, "");
  clock := fun t => hours 12 + Z.of_nat t;
  db_ok := fun _ => true;
  ps := fun _ _ => Ok "tmpx";
  fs := fun _ _ => Ok true;
  input := fun _ => "4"
|}.

Definition blocked_row (ip : string) (expires : Z) : BlockedRow :=
  {| br_ip := ip; br_reason := "Auto-block: Risk score 85";
     br_timestamp := expires - hours 24; br_auto_unblock_time := Some expires |}.

(** One block that expired a second before noon. *)
Definition expired_block : State := {|
  blocked_ips := {["8.8.8.8"]}; suspended_processes := ∅; audit_log := []; logger := [];
  db_blocked_ips := [blocked_row "8.8.8.8" (hours 12 - 1000000)];
  db_suspended_processes := []; db_response_log := [];
  auto_block_count := 0; last_auto_block_reset := 0; trace := []; tick := 0
|}.

(** Two blocks that expired a second before noon. *)
Definition two_expired_blocks : State := {|
  blocked_ips := {["8.8.8.8"; "1.1.1.1"]}; suspended_processes := ∅;
  audit_log := []; logger := [];
  db_blocked_ips := [blocked_row "8.8.8.8" (hours 12 - 1000000);
                     blocked_row "1.1.1.1" (hours 12 - 1000000)];
  db_suspended_processes := []; db_response_log := [];
  auto_block_count := 0; last_auto_block_reset := 0; trace := []; tick := 0
|}.

(** The defaults with two more whitelist entries: a range and one address. *)
Definition custom_whitelist_config : Config := {|
  suspicious_ports := suspicious_ports default_engine_config;
  response := {|
    enabled := true;
    auto_response := true;
    require_confirmation := false;
    ip_whitelist := ["9.9.9.0/24"; "8.8.8.8"];
    process_whitelist := process_whitelist default_response;
    auto_block_threshold := 80;
    auto_terminate_threshold := 90;
    default_block_duration_hours := 24;
    max_auto_blocks_per_hour := 10
  |}
|}.

(** ** Further predicates *)

(** The primary key of [blocked_ips] is respected: at most one row per
    address. *)
Definition unique_rows (s : State) : Prop :=
  forall ip, (length (rows_for ip (db_blocked_ips s)) <= 1)%nat.

(** The in-memory blocked set and the [blocked_ips] table list the same
    addresses. *)
Definition in_sync (s : State) : Prop :=
  forall ip, ip ∈ blocked_ips s <-> rows_for ip (db_blocked_ips s) <> [].

(** The Ledger record of one address: membership and rows. *)
Definition record_of (ip : string) (s : State) : bool * list BlockedRow :=
  (bool_decide (ip ∈ blocked_ips s), rows_for ip (db_blocked_ips s)).

(** The database accepts every statement. *)
Definition db_healthy (w : World) : Prop := forall t, db_ok w t = true.

(** No external command raises (whatever its return code). *)
Definition commands_return (w : World) : Prop :=
  forall t c, exists out, run w t c = Ok out.

(** The events of a trace selected by [P]. *)
Definition events (P : Event -> bool) (s : State) : list Event :=
  List.filter P (trace s).

Definition is_run (e : Event) : bool :=
  match e with EvRun _ => true | _ => false end.

Definition is_ps (e : Event) : bool :=
  match e with EvPs _ => true | _ => false end.

(** The calls that stop, freeze or thaw a process. *)
Definition is_process_action (e : Event) : bool :=
  match e with
  | EvPs (PsTerminate _) | EvPs (PsKill _) | EvPs (PsSuspend _) | EvPs (PsResume _) => true
  | _ => false
  end.

Definition is_kill (e : Event) : bool :=
  match e with EvPs (PsTerminate _) | EvPs (PsKill _) => true | _ => false end.


(** The block recorded by [r] has expired at time [now]. *)
Definition expired (now : Z) (r : BlockedRow) : bool :=
  match br_auto_unblock_time r with
  | Some t => t <=? now
  | None => false
  end.

(** The addresses of the selected rows that have expired. *)
Definition expired_ips (now : Z) (rows : list (string * Z)) : list string :=
  map fst (List.filter (fun row => snd row <=? now) rows).

(** The table without the rows of the listed addresses. *)
Definition delete_all (ips : list string) (t : list BlockedRow) : list BlockedRow :=
  List.filter (fun r => negb (existsb (PyStr.eqb (br_ip r)) ips)) t.

(** A Linux host whose database rejects the fifth interaction (the INSERT
    of the first block). *)
Definition linux_insert_rejected : World := {|
  platform_system := "Linux";
  run := fun _ _ => Ok (0, "");
  clock := fun t => Z.of_nat t;
  db_ok := fun t => negb (t =? 4)%nat;
  ps := fun _ _ => Ok "tmpx";
  fs := fun _ _ => Ok true;
  input := fun _ => "4"
|}.

(** The suspension records: the in-memory set and the [suspended_processes]
    table. *)
Definition processes_same (s s' : State) : Prop :=
  suspended_processes s' = suspended_processes s /\
  db_suspended_processes s' = db_suspended_processes s.

Definition is_fs (e : Event) : bool :=
  match e with EvFs _ => true | _ => false end.

(** The trace only grew, by events selected by [P]. *)
Definition calls_only (P : Event -> bool) (s s' : State) : Prop :=
  exists evs, trace s' = (trace s ++ evs)%list /\ forallb P evs = true.

(** The psutil calls of [terminate_process], in the order of the source. *)
Definition terminate_calls (pid : Z) : list Event :=
  [ EvPs (PsProcess pid); EvPs (PsName pid); EvPs (PsTerminate pid);
    EvPs (PsWait pid 5); EvPs (PsKill pid); EvPs (PsWait pid 3) ].

(** The psutil calls of [suspend_process] and of [resume_process], in the
    order of the source. *)
Definition suspend_calls (pid : Z) : list Event :=
  [ EvPs (PsProcess pid); EvPs (PsName pid); EvPs (PsSuspend pid) ].

Definition resume_calls (pid : Z) : list Event :=
  [ EvPs (PsProcess pid); EvPs (PsResume pid); EvPs (PsName pid); EvPs (PsName pid) ].

(** The rows of [suspended_processes] whose key is [pid]. *)
Definition rows_of (pid : Z) (t : list SuspendedRow) : list SuspendedRow :=
  List.filter (fun r => sr_pid r =? pid) t.

(** psutil answers every call. *)
Definition ps_answers (w : World) : Prop :=
  forall t c, exists a, ps w t c = Ok a.

(** The outcomes of [suspend_process], read off its run. *)
Definition suspend_outcome (config : Config) (pid : option Z) (reason : string) (s : State)
    (run : Res (bool * Msg) * State) : Prop :=
  match run with
  | (Ok (true, m), s') =>
      exists p name t,
        pid = Some p /\ m = Suspended name p /\ 0 < p /\
        is_whitelisted_process config (Some name) (Some p) = false /\
        (p ∉ suspended_processes s) /\
        suspended_processes s' = suspended_processes s ∪ {[p]} /\
        db_suspended_processes s'
        = insert_or_replace_suspended
            {| sr_pid := p; sr_name := name; sr_reason := reason; sr_timestamp := t |}
            (db_suspended_processes s) /\
        trace s' = (trace s ++ suspend_calls p)%list
  | (Ok (false, m), s') =>
      match m with
      | ErrorOn _ _ _ => True
      | _ => processes_same s s'
      end
  | (Raise _, _) => False
  end.

(** What one operation may do to the [response_log] table: nothing, or
    append one row carrying the operation's name and the flag it returns. *)
Definition audit_step (action : string) (ok : bool) (s s' : State) : Prop :=
  db_response_log s' = db_response_log s \/
  exists target reason ts,
    db_response_log s'
    = (db_response_log s ++ [audit_entry action target reason ts ok])%list.

Definition audit_steps (action : string) (run : Res (bool * Msg) * State) (s : State)
  : Prop :=
  match run with
  | (Ok (ok, _), s') => audit_step action ok s s'
  | (Raise _, _) => False
  end.

(** The in-memory audit log holds at most 1000 entries. *)
Definition audit_log_bounded (s : State) : Prop := (length (audit_log s) <= 1000)%nat.

(** A step that keeps the bound. *)
Definition bound_kept (s s' : State) : Prop :=
  audit_log_bounded s -> audit_log_bounded s'.

(** The pid a psutil call is made on. *)
Definition ps_pid (c : PsCall) : Z :=
  match c with
  | PsProcess p | PsName p | PsTerminate p | PsKill p | PsSuspend p | PsResume p => p
  | PsWait p _ => p
  end.

(** The event is no psutil call, or a psutil call on the given pid. *)
Definition about_pid (pid : option Z) (e : Event) : bool :=
  match e with
  | EvPs c => match pid with Some p => ps_pid c =? p | None => false end
  | _ => true
  end.

(** The suspension record of one pid: membership and rows. *)
Definition process_record_of (p : Z) (s : State) : bool * list SuspendedRow :=
  (bool_decide (p ∈ suspended_processes s), rows_of p (db_suspended_processes s)).

(** ** Parsing netstat output *)

(** *** More Python string primitives *)

Module PyText.

(** [s.startswith(p)] *)
Definition startswith (p s : string) : bool := String.prefix p s.

(** [s.split()]: the maximal runs of characters that are not white space. *)
Fixpoint split_whitespace (s : string) : list string :=
  match s with
  | EmptyString => []
  | String c r =>
      if PyStr.is_space c then split_whitespace r
      else match r with
           | EmptyString => [String c EmptyString]
           | String c' _ =>
               if PyStr.is_space c' then String c EmptyString :: split_whitespace r
               else match split_whitespace r with
                    | w :: ws => String c w :: ws
                    | [] => [String c EmptyString]
                    end
           end
  end.

(** [s.split(sep, 1)] for a one-character separator: cut at the first
    occurrence, if there is one. *)
Fixpoint split_first (sep : ascii) (s : string) : list string :=
  match s with
  | EmptyString => [EmptyString]
  | String c r =>
      if Ascii.eqb c sep then [EmptyString; r]
      else match split_first sep r with
           | w :: ws => String c w :: ws
           | [] => [String c EmptyString]
           end
  end.

(** [s.rsplit(sep, 1)] for a one-character separator: cut at the last
    occurrence, if there is one. *)
Fixpoint rsplit_last (sep : ascii) (s : string) : list string :=
  match s with
  | EmptyString => [EmptyString]
  | String c r =>
      match rsplit_last sep r with
      | [a; b] => [String c a; b]
      | _ => if Ascii.eqb c sep then [EmptyString; r] else [String c r]
      end
  end.

(** The longest prefix of [s] whose characters satisfy [p], and the rest:
    what a greedy [[class]*] of a regular expression consumes. *)
Fixpoint span (p : ascii -> bool) (s : string) : string * string :=
  match s with
  | EmptyString => (EmptyString, EmptyString)
  | String c r =>
      if p c then let '(a, b) := span p r in (String c a, b)
      else (EmptyString, s)
  end.

(** [' '.join(parts)] *)
Fixpoint unwords (parts : list string) : string :=
  match parts with
  | [] => EmptyString
  | [p] => p
  | p :: rest => p ++ " " ++ unwords rest
  end.

End PyText.

(** The built-in [int] on a string: [None] where Python raises
    [ValueError]. *)
Class PyInt := { int : string -> option Z }.

(** [int] as CPython 3.11 implements it for base 10, on ASCII text: white
    space around, an optional sign, decimal digits with single underscores
    between them, and at most 4300 digits. *)
Module PyLong.

Fixpoint digits (acc : Z) (count : nat) (after_underscore : bool) (s : string)
  : option (Z * nat) :=
  match s with
  | EmptyString => if after_underscore then None else Some (acc, count)
  | String c r =>
      if PyStr.is_digit c then
        digits (10 * acc + (Z.of_N (N_of_ascii c) - 48)) (S count) false r
      else if Ascii.eqb c "_" then
        if after_underscore then None else digits acc count true r
      else None
  end.

Definition unsigned (s : string) : option Z :=
  match s with
  | String c _ =>
      if PyStr.is_digit c then
        match digits 0 0 false s with
        | Some (v, n) => if (4300 <? n)%nat then None else Some v
        | None => None
        end
      else None
  | EmptyString => None
  end.

Definition from_string (s : string) : option Z :=
  match PyStr.strip s with
  | String c r =>
      if Ascii.eqb c "-" then option_map Z.opp (unsigned r)
      else if Ascii.eqb c "+" then unsigned r
      else unsigned (String c r)
  | EmptyString => None
  end.

End PyLong.

#[export] Instance python_int : PyInt := {| int := PyLong.from_string |}.

(** *** The line parser *)

(** The connection dictionary built by [parse_netstat_line]: the keys read
    by the scorer and the response engine are held by [connection]; the
    three intelligence dictionaries, always empty, are left out. *)
Record ParsedConnection := {
  timestamp : Z;
  protocol : string;
  state : string;
  raw_line : string;
  connection : Connection
}.

Definition set_connection (c : Connection) (p : ParsedConnection) : ParsedConnection :=
  {| timestamp := timestamp p; protocol := protocol p; state := state p;
     raw_line := raw_line p; connection := c |}.

(** [re.match(r'\[([^\]]+)\]:(\d+)', address)]: the two groups. *)
Definition match_bracketed (address : string) : option (string * string) :=
  match address with
  | String c rest =>
      if Ascii.eqb c "[" then
        let '(host, after) := PyText.span (fun c => negb (Ascii.eqb c "]")) rest in
        match host, after with
        | String _ _, String c1 (String c2 tail) =>
            if Ascii.eqb c1 "]" && Ascii.eqb c2 ":" then
              let '(port, _) := PyText.span PyStr.is_digit tail in
              if PyStr.is_empty port then None else Some (host, port)
            else None
        | _, _ => None
        end
      else None
  | EmptyString => None
  end.

Definition header_words : list string := ["proto"; "active"; "local address"; "netid"].

(** [any(header in line.lower() for header in [...])] *)
Definition is_header (line : string) : bool :=
  existsb (fun header => PyStr.contains header (PyStr.lower line)) header_words.

Section Parser.

Context {lib : IpAddressLib} {pyint : PyInt}.
Variable w : World.
Variable config : Config.

Definition extract_pid_program (pid_program_str : string) : option Z * option string :=
  if PyStr.is_empty pid_program_str || PyStr.eqb pid_program_str "-" then (None, None)
  else if PyStr.contains "/" pid_program_str then
    let parts := PyText.split_first "/" pid_program_str in
    match int (nth 0 parts "") with
    | Some pid =>
        let program := if (1 <? length parts)%nat then Some (nth 1 parts "") else None in
        (Some pid, program)
    | None => (None, Some pid_program_str)
    end
  else
    match int pid_program_str with
    | Some pid => (Some pid, None)
    | None => (None, Some pid_program_str)
    end.

(** [parse_address]: the [ValueError] of [int] on the bracketed form is not
    caught here. *)
Definition parse_address (address : string) : Res (option string * option Z) :=
  if PyStr.is_empty address || PyStr.eqb address "*" then Ok (None, None)
  else
    match (if PyText.startswith "[" address then match_bracketed address else None) with
    | Some (host, port) =>
        match int port with
        | Some port => Ok (Some host, Some port)
        | None => Raise (Error "ValueError")
        end
    | None =>
        let whole := Ok (Some address, None) in
        if PyStr.contains ":" address then
          match PyText.rsplit_last ":" address with
          | [p0; p1] =>
              let ip := if negb (PyStr.eqb p0 "0.0.0.0") then Some p0 else None in
              match int p1 with
              | Some port => Ok (ip, Some port)
              | None => whole
              end
          | _ => whole
          end
        else whole
    end.

Definition parse_netstat_line (line : string) : M (option ParsedConnection) :=
  let parts := PyText.split_whitespace (PyStr.strip line) in
  if (length parts <? 4)%nat then ret None
  else
    let protocol := nth 0 parts "" in
    let local_address := if (3 <? length parts)%nat then nth 3 parts "" else "" in
    let foreign_address := if (4 <? length parts)%nat then nth 4 parts "" else "" in
    let state := if (5 <? length parts)%nat then nth 5 parts "" else "" in
    let pid_program := if (6 <? length parts)%nat then nth 6 parts "" else "" in
    let '(pid, program) := extract_pid_program pid_program in
    match parse_address local_address with
    | Ok (local_ip, local_port) =>
        match parse_address foreign_address with
        | Ok (foreign_ip, foreign_port) =>
            timestamp <- datetime_now w ;;
            ret (Some {| timestamp := timestamp;
                         protocol := protocol;
                         state := state;
                         raw_line := PyStr.strip line;
                         connection :=
                           {| local_ip := local_ip; local_port := local_port;
                              foreign_ip := foreign_ip; foreign_port := foreign_port;
                              pid := pid; program := program;
                              risk_score := 0; alerts := [] |} |})
        | Raise _ => ret None
        end
    | Raise _ => ret None
    end.

(** The first loop of [analyze_netstat_comprehensive]: skip the header
    lines, keep the lines that parse. *)
Fixpoint parse_lines (lines : list string) : M (list ParsedConnection) :=
  match lines with
  | [] => ret []
  | line :: rest =>
      if is_header line then parse_lines rest
      else
        conn <- parse_netstat_line line ;;
        connection_lines <- parse_lines rest ;;
        ret match conn with
            | Some conn => conn :: connection_lines
            | None => connection_lines
            end
  end.

Definition analyze_netstat_comprehensive (netstat_output : string)
  : M (list ParsedConnection * list Alert) :=
  let lines := PyStr.split (ascii_of_N 10) (PyStr.strip netstat_output) in
  connection_lines <- parse_lines lines ;;
  let '(connections, all_alerts) :=
    analyze_connections config (map connection connection_lines) in
  ret (zip_with (fun p c => set_connection c p) connection_lines connections, all_alerts).

End Parser.

(** Every character of [s] satisfies [p]. *)
Fixpoint all_chars (p : ascii -> bool) (s : string) : bool :=
  match s with
  | EmptyString => true
  | String c r => p c && all_chars p r
  end.

(** A field of a netstat line: a non-empty run of characters that are not
    white space. *)
Definition is_field (s : string) : bool :=
  negb (PyStr.is_empty s) && all_chars (fun c => negb (PyStr.is_space c)) s.

(** Handling every connection of a list, in order: what the monitoring loop
    is compared with. *)
Fixpoint handle_each `{IpAddressLib} (w : World) (config : Config)
    (connections : list Connection) : M (list Outcome) :=
  match connections with
  | [] => ret []
  | connection :: rest =>
      o <- handle_suspicious_connection w config connection ;;
      os <- handle_each w config rest ;;
      ret (o :: os)
  end.

(** * Theorems *)

(** ** The IPv4 instance on sample inputs *)

Example ipv4_parse : IPv4.address "203.0.113.5" = Some (IPv4.ip4 203 0 113 5).
Proof. vm_compute. reflexivity. Qed.

Example ipv4_tests :
  IPv4.is_private (IPv4.ip4 203 0 113 5) = true /\
  IPv4.is_private (IPv4.ip4 8 8 8 8) = false /\
  IPv4.is_loopback (IPv4.ip4 127 0 0 1) = true /\
  IPv4.is_private (IPv4.ip4 192 168 1 5) = true /\
  IPv4.address "01.2.3.4" = None /\
  IPv4.address "1.2.3" = None /\
  IPv4.address "1.2.3.256" = None /\
  IPv4.network "10.0.0.0/8" = Some (IPv4.Net (IPv4.ip4 10 0 0 0) 8) /\
  IPv4.network "10.0.0.0/255.0.0.0" = Some (IPv4.Net (IPv4.ip4 10 0 0 0) 8) /\
  IPv4.network "10.0.0.0/0.255.255.255" = Some (IPv4.Net (IPv4.ip4 10 0 0 0) 8) /\
  IPv4.network "10.0.0.1/8" = None /\
  IPv4.network "10.0.0.1" = Some (IPv4.Net (IPv4.ip4 10 0 0 1) 32) /\
  IPv4.network "10.0.0.0/8/8" = None /\
  IPv4.network "0.0.0.0/0" = Some (IPv4.Net 0 0).
Proof. vm_compute. repeat split; reflexivity. Qed.

(** ** Whitelist evaluator *)

Lemma is_empty_true (s : string) : PyStr.is_empty s = true <-> s = "".
Proof. destruct s; simpl; split; congruence. Qed.

Lemma is_whitelisted_process_unfold (config : Config) (name : string) (pid : option Z) :
  is_whitelisted_process config (Some name) pid =
  negb (PyStr.is_empty name) &&
  (name_whitelisted config name
   || match pid with Some p => negb (p =? 0) && (p <=? 10) | None => false end).
Proof.
  unfold is_whitelisted_process, name_whitelisted.
  destruct (PyStr.is_empty name); [reflexivity|].
  destruct (existsb (fun c => PyStr.contains c (PyStr.lower name)) critical_processes);
    [reflexivity|].
  destruct (existsb (PyStr.eqb name) (process_whitelist (response config)));
    [reflexivity|].
  destruct pid as [p|]; [|reflexivity].
  destruct (negb (p =? 0) && (p <=? 10)); reflexivity.
Qed.

(** C10, as stated, fails: with pid 0 a critical name is still whitelisted. *)
Lemma is_whitelisted_process_pid0_critical :
  is_whitelisted_process default_engine_config (Some "systemd") (Some 0) = true.
Proof. vm_compute. reflexivity. Qed.

(** C10 (amended): [is_whitelisted_process] is false for an absent or empty
    name whatever the pid; for pid 0 (or no pid) the low-PID exemption does not
    apply, so the answer is that of the name lists alone; and the low-PID
    exemption decides exactly when the name is non-empty, matches no critical
    or configured entry, and the pid is non-zero and at most 10. *)
Theorem is_whitelisted_process_cases (config : Config) :
  (forall pid, is_whitelisted_process config None pid = false) /\
  (forall pid, is_whitelisted_process config (Some "") pid = false) /\
  (forall name,
      is_whitelisted_process config (Some name) (Some 0)
      = negb (PyStr.is_empty name) && name_whitelisted config name) /\
  (forall name,
      is_whitelisted_process config (Some name) None
      = negb (PyStr.is_empty name) && name_whitelisted config name) /\
  (forall name pid,
      name_whitelisted config name = false ->
      (is_whitelisted_process config (Some name) (Some pid) = true
       <-> name <> "" /\ pid <> 0 /\ pid <= 10)).
Proof.
  repeat split.
  - intros name. rewrite is_whitelisted_process_unfold. simpl.
    now rewrite orb_false_r.
  - intros name. rewrite is_whitelisted_process_unfold. simpl.
    now rewrite orb_false_r.
  - rewrite is_whitelisted_process_unfold in H0. rewrite H in H0. simpl in H0.
    apply andb_prop in H0 as [Hn _]. intros ->. discriminate.
  - rewrite is_whitelisted_process_unfold in H0. rewrite H in H0. simpl in H0.
    apply andb_prop in H0 as [_ Hp]. apply andb_prop in Hp as [Hp _].
    intros ->. discriminate.
  - rewrite is_whitelisted_process_unfold in H0. rewrite H in H0. simpl in H0.
    apply andb_prop in H0 as [_ Hp]. apply andb_prop in Hp as [_ Hp]. lia.
  - intros (Hn & Hp & Hle). rewrite is_whitelisted_process_unfold, H. simpl.
    destruct name; [congruence|]. simpl.
    apply andb_true_intro. split; [|lia].
    apply negb_true_iff. lia.
Qed.

Lemma is_whitelisted_ip_iff `{IpAddressLib} (config : Config) (ip : string) :
  is_whitelisted_ip config ip = true <-> ip <> "" /\ whitelisted_address config ip.
Proof.
  unfold is_whitelisted_ip, whitelisted_address.
  destruct (PyStr.is_empty ip) eqn:He.
  - apply is_empty_true in He. split; [discriminate|]. intros [Hn _]. congruence.
  - assert (Hne : ip <> "") by (intros ->; discriminate).
    destruct (ip_address ip) as [a|].
    + destruct (is_loopback a) eqn:Hl; simpl.
      { split; [|reflexivity]. intros _. split; [assumption|]. exists a. auto. }
      destruct (is_private a) eqn:Hp; simpl.
      { split; [|reflexivity]. intros _. split; [assumption|]. exists a. auto. }
      rewrite existsb_exists. split.
      * intros (e & Hin & Hm). split; [assumption|]. exists a. split; [reflexivity|].
        right. right. exists e. auto.
      * intros (_ & a' & Ha & Hc). injection Ha as <-.
        destruct Hc as [Hc|[Hc|(e & Hin & Hm)]]; try congruence.
        exists e. auto.
    + split; [discriminate|]. intros (_ & a & Ha & _). discriminate.
Qed.

(** C1: for a whitelisted address (loopback, private, or admitted by an
    [ip_whitelist] entry) [block_ip] returns the whitelisted refusal with the
    success flag false and leaves the whole state as it was: no firewall
    command is run, nothing is recorded. *)
Theorem block_ip_whitelisted `{IpAddressLib} (w : World) (config : Config)
    (ip reason : string) (duration_hours : Z) (s : State) :
  whitelisted_address config ip ->
  block_ip w config ip reason duration_hours s
  = (Ok (false, IpWhitelistedOrInvalid ip), s).
Proof.
  intros Hw. unfold block_ip.
  destruct (PyStr.is_empty ip) eqn:He; [reflexivity|].
  assert (Hi : is_whitelisted_ip config ip = true).
  { apply is_whitelisted_ip_iff. split; [intros ->; discriminate|assumption]. }
  rewrite Hi. reflexivity.
Qed.

(** ** Reasoning about the monad

    [keeps proj m]: running [m] leaves the component [proj] of the state as it
    was, whether [m] returns or raises.  [never_raises m]: [m] always returns. *)

Definition keeps {A B} (proj : State -> B) (m : M A) : Prop :=
  forall s, proj (snd (m s)) = proj s.

Definition never_raises {A} (m : M A) : Prop :=
  forall s, exists a, fst (m s) = Ok a.

Section MonadLemmas.

Context {A B C : Type} (proj : State -> C).

Lemma keeps_ret (a : A) : keeps proj (ret a).
Proof. intros s. reflexivity. Qed.

Lemma keeps_raise (e : Exn) : keeps proj (@raise A e).
Proof. intros s. reflexivity. Qed.

Lemma keeps_bind (m : M A) (f : A -> M B) :
  keeps proj m -> (forall a, keeps proj (f a)) -> keeps proj (bind m f).
Proof.
  intros Hm Hf s. unfold bind. specialize (Hm s).
  destruct (m s) as [[a|e] s1]; simpl in *; [|assumption].
  rewrite Hf. assumption.
Qed.

Lemma keeps_try_except (m : M A) (h : Exn -> M A) :
  keeps proj m -> (forall e, keeps proj (h e)) -> keeps proj (try_except m h).
Proof.
  intros Hm Hh s. unfold try_except. specialize (Hm s).
  destruct (m s) as [[a|e] s1]; simpl in *; [assumption|].
  rewrite Hh. assumption.
Qed.

Lemma keeps_modify (f : State -> State) :
  (forall s, proj (f s) = proj s) -> keeps proj (modify f).
Proof. intros Hf s. apply Hf. Qed.

Lemma keeps_of_res (r : Res A) : keeps proj (of_res r).
Proof. destruct r; intros s; reflexivity. Qed.

Lemma never_raises_ret (a : A) : never_raises (ret a).
Proof. intros s. exists a. reflexivity. Qed.

Lemma never_raises_bind (m : M A) (f : A -> M B) :
  never_raises m -> (forall a, never_raises (f a)) -> never_raises (bind m f).
Proof.
  intros Hm Hf s. unfold bind. destruct (Hm s) as [a Ha].
  destruct (m s) as [[a'|e] s1]; simpl in Ha; [|discriminate].
  apply Hf.
Qed.

Lemma never_raises_try_except (m : M A) (h : Exn -> M A) :
  (forall e, never_raises (h e)) -> never_raises (try_except m h).
Proof.
  intros Hh s. unfold try_except.
  destruct (m s) as [[a|e] s1]; [exists a; reflexivity|apply Hh].
Qed.

End MonadLemmas.

Lemma keeps_get {C} (proj : State -> C) : keeps proj get.
Proof. intros s. reflexivity. Qed.

Lemma keeps_when {C} (proj : State -> C) (b : bool) (m : M unit) :
  keeps proj m -> keeps proj (when b m).
Proof. destruct b; [auto|intros _ s; reflexivity]. Qed.

Lemma never_raises_get : never_raises get.
Proof. intros s. exists s. reflexivity. Qed.

Lemma never_raises_modify (f : State -> State) : never_raises (modify f).
Proof. intros s. exists tt. reflexivity. Qed.

Lemma never_raises_when (b : bool) (m : M unit) :
  never_raises m -> never_raises (when b m).
Proof. destruct b; [auto|intros _ s; exists tt; reflexivity]. Qed.

(** Splitting a run of [bind] and of [try_except] at the first computation. *)
Lemma bind_run {A B} (m : M A) (f : A -> M B) (s : State) :
  bind m f s = match m s with
               | (Ok a, s') => f a s'
               | (Raise e, s') => (Raise e, s')
               end.
Proof. reflexivity. Qed.

Lemma try_except_run {A} (m : M A) (h : Exn -> M A) (s : State) :
  try_except m h s = match m s with
                     | (Ok a, s') => (Ok a, s')
                     | (Raise e, s') => h e s'
                     end.
Proof. reflexivity. Qed.

(** Decompose a goal [keeps proj m] along the structure of [m]; the leaves
    are state updates, settled by computation. *)
Ltac keeps_step :=
  first
    [ solve [trivial]
    | apply keeps_ret | apply keeps_raise | apply keeps_get | apply keeps_of_res
    | apply keeps_bind; [|intro]
    | apply keeps_try_except; [|intro]
    | apply keeps_when
    | apply keeps_modify; intro; reflexivity
    | match goal with
      | |- keeps _ (if ?b then _ else _) => destruct b
      | |- keeps _ (match ?x with _ => _ end) => destruct x
      end ].

Ltac keeps_auto := repeat keeps_step.

Ltac never_raises_step :=
  first
    [ solve [trivial]
    | apply never_raises_ret | apply never_raises_get | apply never_raises_modify
    | apply never_raises_try_except; intro
    | apply never_raises_bind; [|intro]
    | apply never_raises_when
    | match goal with
      | |- never_raises (if ?b then _ else _) => destruct b
      | |- never_raises (match ?x with _ => _ end) => destruct x
      end ].

Ltac never_raises_auto := repeat never_raises_step.

Section EngineFacts.

Context {lib : IpAddressLib}.
Variable w : World.
Variable config : Config.

(** *** What the primitives leave alone *)

Section Frames.

Context {C : Type} (proj : State -> C).
Hypothesis proj_tick : forall f s, proj (set_tick f s) = proj s.
Hypothesis proj_trace : forall f s, proj (set_trace f s) = proj s.
Hypothesis proj_logger : forall f s, proj (set_logger f s) = proj s.

Lemma keeps_next_tick : keeps proj next_tick.
Proof. intros s. apply proj_tick. Qed.

Lemma keeps_emit e : keeps proj (emit e).
Proof. intros s. apply proj_trace. Qed.

Lemma keeps_log l : keeps proj (log l).
Proof. intros s. apply proj_logger. Qed.

Lemma keeps_datetime_now : keeps proj (datetime_now w).
Proof. unfold datetime_now. pose proof keeps_next_tick. keeps_auto. Qed.

Lemma keeps_subprocess_run c : keeps proj (subprocess_run w c).
Proof.
  unfold subprocess_run. pose proof keeps_next_tick. pose proof (keeps_emit (EvRun c)).
  keeps_auto.
Qed.

Lemma keeps_psutil c : keeps proj (psutil w c).
Proof.
  unfold psutil. pose proof keeps_next_tick. pose proof (keeps_emit (EvPs c)).
  keeps_auto.
Qed.

Lemma keeps_psutil_Process p : keeps proj (psutil_Process w p).
Proof. unfold psutil_Process. pose proof (keeps_psutil (PsProcess p)). keeps_auto. Qed.

Lemma keeps_os_call c : keeps proj (os_call w c).
Proof.
  unfold os_call. pose proof keeps_next_tick. pose proof (keeps_emit (EvFs c)).
  keeps_auto.
Qed.

Lemma keeps_read_input : keeps proj (read_input w).
Proof. unfold read_input. pose proof keeps_next_tick. keeps_auto. Qed.

Lemma keeps_db_execute f :
  (forall s, proj (f s) = proj s) -> keeps proj (db_execute w f).
Proof.
  intros Hf. unfold db_execute. pose proof keeps_next_tick.
  apply keeps_bind; [assumption|intro t].
  destruct (db_ok w t); [apply keeps_modify; assumption|apply keeps_raise].
Qed.

Lemma keeps_db_commit : keeps proj (db_commit w).
Proof. apply keeps_db_execute. reflexivity. Qed.

Lemma keeps_db_select {A} (q : State -> A) : keeps proj (db_select w q).
Proof. unfold db_select. pose proof keeps_next_tick. keeps_auto. Qed.

Lemma keeps_install_rules ip : keeps proj (install_rules w ip).
Proof.
  unfold install_rules.
  pose proof keeps_subprocess_run. pose proof keeps_os_call.
  keeps_auto.
Qed.

Lemma keeps_remove_rules ip : keeps proj (remove_rules w ip).
Proof.
  unfold remove_rules.
  pose proof keeps_subprocess_run. pose proof keeps_os_call.
  keeps_auto.
Qed.

End Frames.

End EngineFacts.

Ltac frame_side := solve [trivial | intros; reflexivity].

Ltac keeps_engine_step :=
  first
    [ apply keeps_next_tick; frame_side
    | apply keeps_emit; frame_side
    | apply keeps_log; frame_side
    | apply keeps_datetime_now; frame_side
    | apply keeps_subprocess_run; frame_side
    | apply keeps_psutil_Process; frame_side
    | apply keeps_psutil; frame_side
    | apply keeps_os_call; frame_side
    | apply keeps_read_input; frame_side
    | apply keeps_db_commit; frame_side
    | apply keeps_db_execute; frame_side
    | apply keeps_db_select; frame_side
    | apply keeps_install_rules; frame_side
    | apply keeps_remove_rules; frame_side
    | apply keeps_modify; frame_side
    | keeps_step ].

Ltac keeps_engine := repeat keeps_engine_step.

Section OperationFacts.

Context {lib : IpAddressLib}.
Variable w : World.
Variable config : Config.

(** *** The primitives that always return *)

Lemma never_raises_next_tick : never_raises next_tick.
Proof. intros s. eexists. reflexivity. Qed.

Lemma never_raises_datetime_now : never_raises (datetime_now w).
Proof. intros s. eexists. reflexivity. Qed.

Lemma never_raises_read_input : never_raises (read_input w).
Proof. intros s. eexists. reflexivity. Qed.

Lemma never_raises_log l : never_raises (log l).
Proof. intros s. eexists. reflexivity. Qed.

Lemma never_raises_log_response a t r b : never_raises (log_response w a t r b).
Proof.
  unfold log_response. apply never_raises_try_except. intro. apply never_raises_log.
Qed.

Hint Resolve never_raises_datetime_now never_raises_read_input never_raises_log
  never_raises_log_response : core.

Lemma never_raises_terminate_process pid reason :
  never_raises (terminate_process w config pid reason).
Proof. unfold terminate_process. never_raises_auto. Qed.

Lemma never_raises_suspend_process pid reason :
  never_raises (suspend_process w config pid reason).
Proof. unfold suspend_process. never_raises_auto. Qed.

Lemma never_raises_resume_process pid : never_raises (resume_process w pid).
Proof. unfold resume_process. never_raises_auto. Qed.

Lemma never_raises_block_ip ip reason d : never_raises (block_ip w config ip reason d).
Proof. unfold block_ip. never_raises_auto. Qed.

Lemma never_raises_unblock_ip ip : never_raises (unblock_ip w ip).
Proof. unfold unblock_ip. never_raises_auto. Qed.

Lemma never_raises_auto_unblock_expired : never_raises (auto_unblock_expired w).
Proof. unfold auto_unblock_expired. never_raises_auto. Qed.

Hint Resolve never_raises_terminate_process never_raises_suspend_process
  never_raises_block_ip never_raises_unblock_ip : core.

Lemma never_raises_check_auto_block_limits :
  never_raises (check_auto_block_limits w config).
Proof. unfold check_auto_block_limits. never_raises_auto. Qed.

Lemma never_raises_prompt_manual_response c :
  never_raises (prompt_manual_response w config c).
Proof. unfold prompt_manual_response. never_raises_auto. Qed.

Hint Resolve never_raises_check_auto_block_limits never_raises_prompt_manual_response
  : core.

Lemma never_raises_handle_suspicious_connection c :
  never_raises (handle_suspicious_connection w config c).
Proof. unfold handle_suspicious_connection. never_raises_auto. Qed.

(** *** What the operations leave alone *)

Section Frames.

Context {C : Type} (proj : State -> C).
Hypothesis proj_tick : forall f s, proj (set_tick f s) = proj s.
Hypothesis proj_trace : forall f s, proj (set_trace f s) = proj s.
Hypothesis proj_logger : forall f s, proj (set_logger f s) = proj s.
Hypothesis proj_audit_log : forall f s, proj (set_audit_log f s) = proj s.
Hypothesis proj_db_response_log : forall f s, proj (set_db_response_log f s) = proj s.

Lemma keeps_log_response a t r b : keeps proj (log_response w a t r b).
Proof. unfold log_response. keeps_engine. Qed.

Hypothesis proj_blocked_ips : forall f s, proj (set_blocked_ips f s) = proj s.
Hypothesis proj_db_blocked_ips : forall f s, proj (set_db_blocked_ips f s) = proj s.
Hypothesis proj_suspended_processes :
  forall f s, proj (set_suspended_processes f s) = proj s.
Hypothesis proj_db_suspended_processes :
  forall f s, proj (set_db_suspended_processes f s) = proj s.

Lemma keeps_terminate_process pid reason :
  keeps proj (terminate_process w config pid reason).
Proof. unfold terminate_process. pose proof keeps_log_response. keeps_engine. Qed.

Lemma keeps_suspend_process pid reason :
  keeps proj (suspend_process w config pid reason).
Proof. unfold suspend_process. pose proof keeps_log_response. keeps_engine. Qed.

Lemma keeps_block_ip ip reason d : keeps proj (block_ip w config ip reason d).
Proof. unfold block_ip, plus_timedelta_hours. pose proof keeps_log_response. keeps_engine. Qed.

Lemma keeps_unblock_ip ip : keeps proj (unblock_ip w ip).
Proof. unfold unblock_ip. pose proof keeps_log_response. keeps_engine. Qed.

Lemma keeps_prompt_manual_response c :
  keeps proj (prompt_manual_response w config c).
Proof.
  unfold prompt_manual_response.
  pose proof keeps_terminate_process. pose proof keeps_suspend_process.
  pose proof keeps_block_ip. keeps_engine.
Qed.

End Frames.

End OperationFacts.

(** Configured entries: a range admits its members, a single address admits
    itself, and other public addresses stay blockable. *)
Example configured_entries_whitelist :
  is_whitelisted_ip custom_whitelist_config "9.9.9.9" = true /\
  is_whitelisted_ip custom_whitelist_config "8.8.8.8" = true /\
  is_whitelisted_ip custom_whitelist_config "8.8.4.4" = false /\
  is_whitelisted_ip custom_whitelist_config "not an address" = false.
Proof. vm_compute. repeat split; reflexivity. Qed.

Lemma block_ip_whitelisted_witness :
  whitelisted_address default_engine_config "127.0.0.1" /\
  whitelisted_address default_engine_config "192.168.1.5" /\
  block_ip linux_ok default_engine_config "127.0.0.1" "probe" 24 empty_state
  = (Ok (false, IpWhitelistedOrInvalid "127.0.0.1"), empty_state) /\
  block_ip linux_ok default_engine_config "192.168.1.5" "probe" 24 empty_state
  = (Ok (false, IpWhitelistedOrInvalid "192.168.1.5"), empty_state).
Proof.
  assert (H1 : whitelisted_address default_engine_config "127.0.0.1").
  { exists (IPv4.ip4 127 0 0 1). split; [vm_compute; reflexivity|].
    left. vm_compute. reflexivity. }
  assert (H2 : whitelisted_address default_engine_config "192.168.1.5").
  { exists (IPv4.ip4 192 168 1 5). split; [vm_compute; reflexivity|].
    right. left. vm_compute. reflexivity. }
  split; [exact H1|]. split; [exact H2|]. split.
  - apply (block_ip_whitelisted linux_ok default_engine_config
             "127.0.0.1" "probe" 24 empty_state H1).
  - apply (block_ip_whitelisted linux_ok default_engine_config
             "192.168.1.5" "probe" 24 empty_state H2).
Defined.

(** ** The Ledger under [block_ip] *)

Arguments log_response : simpl never.
Arguments hours : simpl never.

Lemma run_never_raises {A} (m : M A) (s : State) :
  never_raises m -> exists a s', m s = (Ok a, s').
Proof.
  intros H. destruct (H s) as [a Ha]. destruct (m s) as [r s'] eqn:E.
  simpl in Ha. subst r. eauto.
Qed.

Lemma ledger_same_refl (s : State) : ledger_same s s.
Proof. split; reflexivity. Qed.

Lemma ledger_same_trans (s1 s2 s3 : State) :
  ledger_same s1 s2 -> ledger_same s2 s3 -> ledger_same s1 s3.
Proof. intros [A B] [C D]. split; congruence. Qed.

Lemma eqb_refl (a : string) : PyStr.eqb a a = true.
Proof. apply String.eqb_refl. Qed.

Lemma rows_for_insert (row : BlockedRow) (t : list BlockedRow) :
  rows_for (br_ip row) (insert_or_replace_blocked row t) = [row].
Proof.
  unfold rows_for, insert_or_replace_blocked.
  rewrite List.filter_app. simpl. rewrite eqb_refl.
  replace (List.filter _ (List.filter _ t)) with (@nil BlockedRow); [reflexivity|].
  induction t as [|r t IH]; simpl; [reflexivity|].
  destruct (PyStr.eqb (br_ip r) (br_ip row)) eqn:E; simpl; [assumption|].
  rewrite E. assumption.
Qed.

Section LedgerFacts.

Context {lib : IpAddressLib}.
Variable w : World.
Variable config : Config.

Lemma log_response_ledger a t r b s :
  exists s', log_response w a t r b s = (Ok tt, s') /\ ledger_same s s'.
Proof.
  destruct (run_never_raises (log_response w a t r b) s) as ([] & s' & E).
  { apply never_raises_log_response. }
  exists s'. split; [assumption|]. split.
  - pose proof (keeps_log_response w blocked_ips) as K.
    specialize (K ltac:(reflexivity) ltac:(reflexivity) ltac:(reflexivity)
                  ltac:(reflexivity) a t r b s).
    rewrite E in K. exact K.
  - pose proof (keeps_log_response w db_blocked_ips) as K.
    specialize (K ltac:(reflexivity) ltac:(reflexivity) ltac:(reflexivity)
                  ltac:(reflexivity) a t r b s).
    rewrite E in K. exact K.
Qed.

Lemma log_response_snd_ledger a t r b s :
  ledger_same s (snd (log_response w a t r b s)).
Proof. destruct (log_response_ledger a t r b s) as (s' & -> & H). exact H. Qed.

Lemma install_rules_ledger ip s r s1 :
  install_rules w ip s = (r, s1) -> ledger_same s s1.
Proof.
  intros E. split.
  - pose proof (keeps_install_rules w blocked_ips
                  ltac:(reflexivity) ltac:(reflexivity) ip s) as K.
    rewrite E in K. exact K.
  - pose proof (keeps_install_rules w db_blocked_ips
                  ltac:(reflexivity) ltac:(reflexivity) ip s) as K.
    rewrite E in K. exact K.
Qed.

(** [install_rules] reports success only when the command it checks was
    run and returned code 0. *)
Lemma install_rules_flag ip s command result s1 :
  install_rules w ip s = (Ok (true, command, result), s1) ->
  exists cmd out t, command = Some cmd /\ result = Some out /\
                    run w t cmd = Ok out /\ fst out = 0 /\ In (EvRun cmd) (trace s1).
Proof.
  unfold install_rules.
  destruct (PyStr.eqb (system w) "linux").
  { unfold subprocess_run, os_call, next_tick, emit, bind, ret, modify, of_res, when, raise.
    simpl.
    destruct (run w (tick s) _) as [out|e] eqn:E1; simpl; [|discriminate].
    destruct (fst out =? 0) eqn:E0; simpl; [|discriminate].
    destruct (run w (S (tick s)) _) as [out2|e] eqn:E2; simpl; [|discriminate].
    intros [= <- <- <-]. do 3 eexists. repeat split; eauto; [lia|].
    simpl. rewrite <- app_assoc. apply in_or_app. right. left. reflexivity. }
  destruct (PyStr.eqb (system w) "darwin").
  { unfold subprocess_run, os_call, next_tick, emit, bind, ret, modify, of_res, when, raise.
    simpl.
    destruct (fs w (tick s) _) as [out0|e] eqn:E0; simpl; [|discriminate].
    destruct (run w (S (tick s)) _) as [out|e] eqn:E1; simpl; [|discriminate].
    intros [= E <- <- <-]. do 3 eexists. repeat split; eauto; [lia|].
    simpl. apply in_or_app. right. left. reflexivity. }
  destruct (PyStr.eqb (system w) "windows").
  { unfold subprocess_run, os_call, next_tick, emit, bind, ret, modify, of_res, when, raise.
    simpl.
    destruct (run w (tick s) _) as [out|e] eqn:E1; simpl; [|discriminate].
    destruct (fst out =? 0) eqn:E0; simpl; [|discriminate].
    destruct (run w (S (tick s)) _) as [out2|e] eqn:E2; simpl; [|discriminate].
    intros [= <- <- <-]. do 3 eexists. repeat split; eauto; [lia|].
    simpl. rewrite <- app_assoc. apply in_or_app. right. left. reflexivity. }
  unfold ret. discriminate.
Qed.

Ltac log_tail :=
  match goal with
  | |- context [log_response ?w ?a ?t ?r ?b ?s] =>
      let s' := fresh "s" in let E := fresh "E" in
      destruct (log_response_ledger a t r b s) as (s' & E & _);
      rewrite E; simpl; f_equal; exact (eq_sym (f_equal snd E))
  end.

Lemma block_ip_refused ip reason d s :
  PyStr.is_empty ip || is_whitelisted_ip config ip = true ->
  block_ip w config ip reason d s = (Ok (false, IpWhitelistedOrInvalid ip), s).
Proof. intros H. unfold block_ip. rewrite H. reflexivity. Qed.

Lemma block_ip_already ip reason d s :
  PyStr.is_empty ip || is_whitelisted_ip config ip = false ->
  ip ∈ blocked_ips s ->
  block_ip w config ip reason d s = (Ok (false, IpAlreadyBlocked ip), s).
Proof.
  intros H Hin. unfold block_ip. rewrite H, bind_run. simpl.
  rewrite bool_decide_eq_true_2 by assumption. reflexivity.
Qed.

(** The run of [block_ip] once the two guards are passed, in terms of the
    outcome of the platform branch and of the two database statements. *)
Lemma block_ip_attempt ip reason d s :
  PyStr.is_empty ip || is_whitelisted_ip config ip = false ->
  ip ∉ blocked_ips s ->
  block_ip w config ip reason d s =
  match install_rules w ip s with
  | (Ok (true, _, _), s1) =>
      let s2 := set_blocked_ips (fun ips => ips ∪ {[ip]}) s1 in
      let t1 := clock w (tick s2) in
      let t2 := clock w (S (tick s2)) in
      let row := {| br_ip := ip; br_reason := reason; br_timestamp := t2;
                    br_auto_unblock_time := Some (t1 + hours d) |} in
      let s3 := set_tick (fun t => S (S t)) s2 in
      if expiry_in_range t1 d then
        if db_ok w (tick s3) then
          let s4 := set_tick S (set_db_blocked_ips (insert_or_replace_blocked row) s3) in
          if db_ok w (tick s4) then
            let s5 := set_logger
                        (fun l => (l ++ [LogBlockedIp ip reason (t1 + hours d)])%list)
                        (set_tick S s4) in
            (Ok (true, IpBlocked ip (t1 + hours d)),
             snd (log_response w "block_ip" ip reason true s5))
          else
            (Ok (false, ErrorBlockingIp ip (Error "sqlite3.Error")),
             snd (log_response w "block_ip" ip reason false (set_tick S s4)))
        else
          (Ok (false, ErrorBlockingIp ip (Error "sqlite3.Error")),
           snd (log_response w "block_ip" ip reason false (set_tick S s3)))
      else
        (Ok (false, ErrorBlockingIp ip (Error "OverflowError")),
         snd (log_response w "block_ip" ip reason false (set_tick S s2)))
  | (Ok (false, Some command, Some result), s1) =>
      (Ok (false, FirewallFailed command (snd result)),
       snd (log_response w "block_ip" ip reason false s1))
  | (Ok (false, _, _), s1) =>
      (Ok (false, ErrorBlockingIp ip (Error "UnboundLocalError")),
       snd (log_response w "block_ip" ip reason false s1))
  | (Raise e, s1) =>
      (Ok (false, ErrorBlockingIp ip e),
       snd (log_response w "block_ip" ip reason false s1))
  end.
Proof.
  intros H Hin. unfold block_ip. rewrite H, bind_run. simpl.
  rewrite bool_decide_eq_false_2 by assumption.
  rewrite try_except_run, bind_run.
  destruct (install_rules w ip s) as [[[[success command] result]|e] s1].
  - destruct success.
    + unfold plus_timedelta_hours, datetime_now, db_commit, db_execute, log, next_tick,
        bind, ret, modify, raise.
      simpl.
      destruct (expiry_in_range (clock w (tick s1)) d); simpl; [|log_tail].
      destruct (db_ok w (S (S (tick s1)))); simpl.
      * destruct (db_ok w (S (S (S (tick s1))))); simpl; log_tail.
      * log_tail.
    + destruct command as [command|], result as [result|];
        unfold bind, raise, ret; simpl; log_tail.
  - unfold bind, ret; simpl. log_tail.
Qed.

(** The three ways [block_ip] is entered. *)
Lemma block_ip_guards ip s :
  PyStr.is_empty ip || is_whitelisted_ip config ip = true
  \/ (PyStr.is_empty ip || is_whitelisted_ip config ip = false /\ ip ∈ blocked_ips s)
  \/ (PyStr.is_empty ip || is_whitelisted_ip config ip = false /\ ip ∉ blocked_ips s).
Proof.
  destruct (PyStr.is_empty ip || is_whitelisted_ip config ip); [left; reflexivity|].
  right. destruct (decide (ip ∈ blocked_ips s)); [left|right]; split; auto.
Qed.

(** A call that returns true went through the platform branch with the
    success flag set, and wrote the Ledger record. *)
Lemma block_ip_success ip reason d s m s' :
  block_ip w config ip reason d s = (Ok (true, m), s') ->
  is_whitelisted_ip config ip = false /\
  exists command result s1 t1 t2,
    install_rules w ip s = (Ok (true, command, result), s1) /\
    t1 = clock w (tick s1) /\
    m = IpBlocked ip (t1 + hours d) /\
    blocked_ips s' = blocked_ips s ∪ {[ip]} /\
    db_blocked_ips s'
    = insert_or_replace_blocked
        {| br_ip := ip; br_reason := reason; br_timestamp := t2;
           br_auto_unblock_time := Some (t1 + hours d) |} (db_blocked_ips s).
Proof.
  intros Hrun.
  destruct (block_ip_guards ip s) as [G|[[G Hin]|[G Hin]]].
  - rewrite (block_ip_refused ip reason d s G) in Hrun. discriminate.
  - rewrite (block_ip_already ip reason d s G Hin) in Hrun. discriminate.
  - apply orb_false_elim in G as G'. destruct G' as [_ Gw].
    split; [exact Gw|].
    rewrite (block_ip_attempt ip reason d s G Hin) in Hrun.
    destruct (install_rules w ip s) as [[[[success command] result]|e] s1] eqn:Hi.
    2:{ discriminate. }
    destruct success.
    2:{ destruct command, result; discriminate. }
    destruct (install_rules_ledger ip s _ s1 Hi) as [L1 L2].
    cbv zeta in Hrun. simpl in Hrun.
    destruct (expiry_in_range (clock w (tick s1)) d); [|discriminate].
    destruct (db_ok w (S (S (tick s1)))); [|discriminate].
    destruct (db_ok w (S (S (S (tick s1))))); [|discriminate].
    injection Hrun as <- <-.
    exists command, result, s1. do 2 eexists.
    split; [reflexivity|]. split; [reflexivity|]. split; [reflexivity|].
    match goal with |- context [log_response w ?a ?t ?r ?b ?s0] =>
      destruct (log_response_snd_ledger a t r b s0) as [K1 K2] end.
    split; [rewrite K1; simpl; rewrite L1; reflexivity|].
    rewrite K2. simpl. rewrite L2. reflexivity.
Qed.

End LedgerFacts.

(** C4: [block_ip] touches the Ledger (the in-memory blocked set and the
    [blocked_ips] table) only after the firewall command it checks has
    returned code 0.  When the platform branch raises, or ends with the
    success flag false, the Ledger is left as it was and the call returns
    false; when the call returns true the address has joined the blocked set
    and its row carries the expiry [now + duration_hours]; and whenever the
    Ledger differs afterwards, the platform branch had reported success. *)
Theorem block_ip_ledger `{IpAddressLib} (w : World) (config : Config)
    (ip reason : string) (d : Z) (s : State) :
  let out := block_ip w config ip reason d s in
  (forall e s1, install_rules w ip s = (Raise e, s1) ->
     ledger_same s (snd out) /\ exists m, fst out = Ok (false, m)) /\
  (forall c res s1, install_rules w ip s = (Ok (false, c, res), s1) ->
     ledger_same s (snd out) /\ exists m, fst out = Ok (false, m)) /\
  (forall m, fst out = Ok (true, m) ->
     exists cmd res t s1 t1 t2,
       install_rules w ip s = (Ok (true, Some cmd, Some res), s1) /\
       run w t cmd = Ok res /\ fst res = 0 /\
       t1 = clock w (tick s1) /\
       m = IpBlocked ip (t1 + hours d) /\
       blocked_ips (snd out) = blocked_ips s ∪ {[ip]} /\
       db_blocked_ips (snd out)
       = insert_or_replace_blocked
           {| br_ip := ip; br_reason := reason; br_timestamp := t2;
              br_auto_unblock_time := Some (t1 + hours d) |} (db_blocked_ips s)) /\
  (~ ledger_same s (snd out) ->
     exists c res s1, install_rules w ip s = (Ok (true, c, res), s1)).
Proof.
  intros out. subst out.
  split; [|split; [|split]].
  - intros e s1 Hi.
    destruct (block_ip_guards config ip s) as [G|[[G Hin]|[G Hin]]].
    + rewrite (block_ip_refused w config ip reason d s G).
      split; [apply ledger_same_refl|eauto].
    + rewrite (block_ip_already w config ip reason d s G Hin).
      split; [apply ledger_same_refl|eauto].
    + rewrite (block_ip_attempt w config ip reason d s G Hin), Hi. simpl.
      split; [|eauto].
      eapply ledger_same_trans; [exact (install_rules_ledger w ip s _ s1 Hi)|].
      apply log_response_snd_ledger.
  - intros c res s1 Hi.
    destruct (block_ip_guards config ip s) as [G|[[G Hin]|[G Hin]]].
    + rewrite (block_ip_refused w config ip reason d s G).
      split; [apply ledger_same_refl|eauto].
    + rewrite (block_ip_already w config ip reason d s G Hin).
      split; [apply ledger_same_refl|eauto].
    + rewrite (block_ip_attempt w config ip reason d s G Hin), Hi.
      pose proof (install_rules_ledger w ip s _ s1 Hi) as L1.
      destruct c as [c|], res as [res|]; simpl; (split; [|eauto]);
        (eapply ledger_same_trans; [exact L1|]); apply log_response_snd_ledger.
  - intros m Hm.
    destruct (block_ip w config ip reason d s) as [r s'] eqn:Hrun.
    simpl in Hm. subst r.
    destruct (block_ip_success w config ip reason d s m s' Hrun)
      as (_ & c & res & s1 & t1 & t2 & Hi & Ht & Hmsg & Hb & Hd).
    destruct (install_rules_flag w ip s c res s1 Hi)
      as (cmd & out & t & -> & -> & Hout & Hz & _).
    exists cmd, out, t, s1, t1, t2. simpl. auto 10.
  - intros Hn.
    destruct (install_rules w ip s) as [[[[success c] res]|e] s1] eqn:Hi.
    + destruct success; [eauto|].
      exfalso. apply Hn.
      destruct (block_ip_guards config ip s) as [G|[[G Hin]|[G Hin]]].
      * rewrite (block_ip_refused w config ip reason d s G). apply ledger_same_refl.
      * rewrite (block_ip_already w config ip reason d s G Hin). apply ledger_same_refl.
      * rewrite (block_ip_attempt w config ip reason d s G Hin), Hi.
        pose proof (install_rules_ledger w ip s _ s1 Hi) as L1.
        destruct c as [c|], res as [res|]; simpl;
          (eapply ledger_same_trans; [exact L1|]); apply log_response_snd_ledger.
    + exfalso. apply Hn.
      destruct (block_ip_guards config ip s) as [G|[[G Hin]|[G Hin]]].
      * rewrite (block_ip_refused w config ip reason d s G). apply ledger_same_refl.
      * rewrite (block_ip_already w config ip reason d s G Hin). apply ledger_same_refl.
      * rewrite (block_ip_attempt w config ip reason d s G Hin), Hi. simpl.
        eapply ledger_same_trans; [exact (install_rules_ledger w ip s _ s1 Hi)|].
        apply log_response_snd_ledger.
Qed.

Lemma block_ip_ledger_witness :
  blocked_ips (snd (block_ip linux_ok default_engine_config "8.8.8.8" "probe" 24 empty_state))
  = blocked_ips empty_state ∪ {["8.8.8.8"]} /\
  ledger_same empty_state
    (snd (block_ip linux_iptables_fails default_engine_config "8.8.8.8" "probe" 24
            empty_state)).
Proof.
  split.
  - destruct (block_ip_ledger linux_ok default_engine_config "8.8.8.8" "probe" 24 empty_state)
      as (_ & _ & Hok & _).
    destruct (Hok (IpBlocked "8.8.8.8" 86400000002) ltac:(vm_compute; reflexivity))
      as (cmd & res & t & s1 & t1 & t2 & _ & _ & _ & _ & _ & Hb & _).
    exact Hb.
  - destruct (block_ip_ledger linux_iptables_fails default_engine_config
                "8.8.8.8" "probe" 24 empty_state) as (_ & Hfail & _).
    eapply Hfail. vm_compute. reflexivity.
Defined.

(** C8: after a successful [block_ip] of an address, which is then not
    whitelisted, an immediate second [block_ip] of the same address (whatever
    its reason and duration) returns the already-blocked refusal with the
    success flag false and leaves the state as the first call left it: the
    address is in the blocked set and the [blocked_ips] table holds exactly
    one row for it, the row written by the first call. *)
Theorem block_ip_twice `{IpAddressLib} (w : World) (config : Config)
    (ip reason : string) (d : Z) (s s1 : State) (m : Msg) :
  block_ip w config ip reason d s = (Ok (true, m), s1) ->
  forall reason' d',
    is_whitelisted_ip config ip = false /\
    block_ip w config ip reason' d' s1 = (Ok (false, IpAlreadyBlocked ip), s1) /\
    ip ∈ blocked_ips s1 /\
    exists t1 t2,
      rows_for ip (db_blocked_ips s1)
      = [{| br_ip := ip; br_reason := reason; br_timestamp := t2;
            br_auto_unblock_time := Some (t1 + hours d) |}].
Proof.
  intros Hrun reason' d'.
  destruct (block_ip_success w config ip reason d s m s1 Hrun)
    as (Gw & c & res & s0 & t1 & t2 & _ & _ & _ & Hb & Hd).
  assert (Hin1 : ip ∈ blocked_ips s1).
  { rewrite Hb. apply elem_of_union_r, elem_of_singleton. reflexivity. }
  assert (G : PyStr.is_empty ip || is_whitelisted_ip config ip = false).
  { rewrite Gw, orb_false_r.
    destruct (PyStr.is_empty ip) eqn:He; [|reflexivity].
    rewrite block_ip_refused in Hrun by (rewrite He; reflexivity). discriminate. }
  split; [exact Gw|].
  split; [apply block_ip_already; assumption|].
  split; [exact Hin1|].
  exists t1, t2. rewrite Hd.
  apply (rows_for_insert
           {| br_ip := ip; br_reason := reason; br_timestamp := t2;
              br_auto_unblock_time := Some (t1 + hours d) |}).
Qed.

Lemma block_ip_twice_witness :
  block_ip linux_ok default_engine_config "8.8.8.8" "again" 1
    (snd (block_ip linux_ok default_engine_config "8.8.8.8" "probe" 24 empty_state))
  = (Ok (false, IpAlreadyBlocked "8.8.8.8"),
     snd (block_ip linux_ok default_engine_config "8.8.8.8" "probe" 24 empty_state)).
Proof.
  refine (proj1 (proj2 (block_ip_twice linux_ok default_engine_config
                          "8.8.8.8" "probe" 24 empty_state _
                          (IpBlocked "8.8.8.8" 86400000002) _ "again" 1))).
  vm_compute. reflexivity.
Defined.

(** ** The audit log under the five operations *)


Section AuditFacts.

Context {lib : IpAddressLib}.
Variable w : World.
Variable config : Config.
Hypothesis db_healthy : forall t, db_ok w t = true.










End AuditFacts.



(** ** Process exemption *)

(** C2 on two hosts.  For a pid at or below the floor that psutil does not
    find, [terminate_process] answers that the process was not found, not
    that it is whitelisted; and a pid at or below the floor whose process
    reports an empty name is not whitelisted and is terminated. *)
Lemma low_pid_not_always_refused :
  fst (terminate_process linux_no_such_process default_engine_config (Some 7) "probe"
         empty_state)
  = Ok (false, ProcessNotFound 7) /\
  is_whitelisted_process default_engine_config (Some "") (Some 1) = false /\
  (let out := terminate_process linux_unnamed default_engine_config (Some 1) "probe"
                empty_state in
   fst out = Ok (true, Terminated "" 1) /\ In (EvPs (PsTerminate 1)) (trace (snd out))).
Proof.
  vm_compute. split; [reflexivity|]. split; [reflexivity|]. split; [reflexivity|].
  right. right. left. reflexivity.
Qed.

Section TerminateFacts.

Context {lib : IpAddressLib}.
Variable w : World.
Variable config : Config.

(** [log_response] returns and makes no call. *)
Lemma log_response_run a t r b s :
  exists s', log_response w a t r b s = (Ok tt, s') /\ trace s' = trace s.
Proof.
  destruct (run_never_raises (log_response w a t r b) s (never_raises_log_response w a t r b))
    as ([] & s' & E).
  exists s'. split; [exact E|].
  pose proof (keeps_log_response w trace ltac:(reflexivity) ltac:(reflexivity)
                ltac:(reflexivity) ltac:(reflexivity) a t r b s) as K.
  rewrite E in K. exact K.
Qed.

End TerminateFacts.

Ltac ps_oracle w :=
  match goal with
  | |- context [match ps w ?t ?c with _ => _ end] =>
      let E := fresh "E" in destruct (ps w t c) as [?|[]] eqn:E
  | |- context [log_response w ?a ?t ?r ?b ?s] =>
      let s' := fresh "s" in let E := fresh "E" in let T := fresh "T" in
      destruct (log_response_run w a t r b s) as (s' & E & T);
      rewrite E
  | |- context [if ?b then _ else _] =>
      lazymatch b with
      | context [if _ then _ else _] => fail
      | _ => let E := fresh "E" in destruct b eqn:E
      end
  end; cbn -[is_whitelisted_process log_response].

(** C2: the low-PID exemption protects a process only while it reports a
    name.  For every pid at or below the floor of 10, [terminate_process]
    reaches [terminate] or [kill] only when the pid is positive and
    [proc.name()] returned the empty name.  That case is not refused: the
    empty-name guard of [is_whitelisted_process] returns before the low-PID
    test is read, so a process of pid 1 to 10 that psutil opens and names
    with the empty name is not whitelisted, and [proc.terminate()] is called
    on it whatever follows. *)
Theorem terminate_process_low_pid (w : World) (config : Config)
    (pid : Z) (reason : string) (s : State) :
  pid <= 10 ->
  let s' := snd (terminate_process w config (Some pid) reason s) in
  (exists evs,
     trace s' = (trace s ++ evs)%list /\
     (In (EvPs (PsTerminate pid)) evs \/ In (EvPs (PsKill pid)) evs ->
      0 < pid /\ ps w (1 + tick s)%nat (PsName pid) = Ok "")) /\
  (0 < pid ->
   (exists opened, ps w (tick s) (PsProcess pid) = Ok opened) ->
   ps w (1 + tick s)%nat (PsName pid) = Ok "" ->
   is_whitelisted_process config (Some "") (Some pid) = false /\
   In (EvPs (PsTerminate pid)) (trace s')).
Proof.
  intros Hle s'. subst s'. split.
  - unfold terminate_process.
    destruct (pid =? 0) eqn:Hz.
    { exists []. simpl. rewrite app_nil_r. split; [reflexivity|]. intros [[]|[]]. }
    unfold psutil_Process, psutil, log, next_tick, emit, try_except, bind, ret, modify,
      of_res, raise.
    cbn -[is_whitelisted_process log_response].
    repeat ps_oracle w;
      repeat match goal with T : trace _ = _ |- _ => rewrite T; clear T end;
      cbn -[is_whitelisted_process log_response];
      rewrite <- ?app_assoc; cbn [app];
      (eexists; split; [try (symmetry; apply app_nil_r); reflexivity|]);
      intros Hin;
      try solve [ exfalso; simpl in Hin;
                  repeat (destruct Hin as [Hin|Hin]; try discriminate Hin;
                          try contradiction) ];
      match goal with
      | Ew : is_whitelisted_process _ (Some ?n) (Some pid) = false |- _ =>
          rewrite is_whitelisted_process_unfold in Ew;
          destruct n;
          [ split; [lia|reflexivity]
          | exfalso; simpl in Ew; rewrite Hz in Ew;
            replace (pid <=? 10) with true in Ew by lia;
            rewrite orb_true_r in Ew; discriminate ]
      end.
  - intros Hpos [opened Hopen] Hname. split; [reflexivity|].
    unfold terminate_process.
    replace (pid =? 0) with false by lia.
    unfold psutil_Process, psutil, log, next_tick, emit, try_except, bind, ret, modify,
      of_res, raise.
    replace (pid <? 0) with false by lia.
    cbn -[log_response]. rewrite Hopen.
    cbn -[log_response]. cbn [Nat.add] in Hname. rewrite Hname.
    cbn -[log_response].
    repeat ps_oracle w;
      repeat match goal with T : trace _ = _ |- _ => rewrite T; clear T end;
      cbn -[log_response];
      rewrite ?in_app_iff; cbn [In]; tauto.
Qed.

Lemma terminate_process_low_pid_witness :
  In (EvPs (PsTerminate 1))
     (trace (snd (terminate_process linux_unnamed default_engine_config (Some 1) "probe"
                    empty_state))).
Proof.
  refine (proj2 (proj2 (terminate_process_low_pid linux_unnamed default_engine_config 1
                          "probe" empty_state _) _ _ _)).
  - lia.
  - lia.
  - exists "". reflexivity.
  - reflexivity.
Defined.

(** ** Risk scorer *)

(** C6, as stated, fails on its example: 203.0.113.5 lies in 203.0.113.0/24,
    which [ipaddress] counts as private, so the external-address rule does
    not fire; the connection scores 45 and raises no alert. *)
Lemma scenario_scores_45 :
  ip_address "203.0.113.5" = Some (IPv4.ip4 203 0 113 5) /\
  is_private (IPv4.ip4 203 0 113 5) = true /\
  calculate_basic_risk_score default_engine_config scenario_connection = 45 /\
  snd (analyze_connection default_engine_config scenario_connection) = [].
Proof. vm_compute. repeat split; reflexivity. Qed.

Lemma risk_score_sum `{IpAddressLib} (config : Config) (c : Connection) :
  calculate_basic_risk_score config c
  = (if port_in (foreign_port c) (suspicious_ports config) then 30 else 0)
    + (if port_in (local_port c) (suspicious_ports config) then 25 else 0)
    + (if truthy_str (foreign_ip c) && negb (is_internal_ip (foreign_ip c)) then 20 else 0)
    + (if suspicious_program (program c) then 15 else 0).
Proof.
  unfold calculate_basic_risk_score.
  destruct (port_in (foreign_port c) _), (port_in (local_port c) _),
    (truthy_str (foreign_ip c) && negb (is_internal_ip (foreign_ip c))),
    (suspicious_program (program c)); reflexivity.
Qed.

(** C6 (amended): the score is the sum of the four rules (30 for a
    suspicious foreign port, 25 for a suspicious local port, 20 for a foreign
    address that is present and that [ipaddress] does not report as private
    or loopback, 15 for a program name with a suspicious substring) and lies
    in [0,100]; an alert is attached exactly when the score exceeds 50, of
    severity high above 80 and medium otherwise.  The scenario connection
    towards 203.0.113.5 scores 30 + 15 = 45 and raises no alert; the same
    connection towards 8.8.8.8 scores 65 and raises a medium alert. *)
Theorem risk_scorer_rules :
  (forall (lib : IpAddressLib) (config : Config) (c : Connection),
     let score := calculate_basic_risk_score config c in
     score
     = (if port_in (foreign_port c) (suspicious_ports config) then 30 else 0)
       + (if port_in (local_port c) (suspicious_ports config) then 25 else 0)
       + (if truthy_str (foreign_ip c) && negb (is_internal_ip (foreign_ip c))
          then 20 else 0)
       + (if suspicious_program (program c) then 15 else 0) /\
     0 <= score <= 100 /\
     (truthy_str (foreign_ip c) && negb (is_internal_ip (foreign_ip c)) = true <->
      exists ip, foreign_ip c = Some ip /\ ip <> "" /\
                 match ip_address ip with
                 | Some a => is_private a = false /\ is_loopback a = false
                 | None => True
                 end) /\
     (50 < score <->
      exists a, snd (analyze_connection config c) = [a] /\ al_risk a = score /\
                al_severity a = (if 80 <? score then High else Medium)) /\
     (score <= 50 <-> snd (analyze_connection config c) = [])) /\
  calculate_basic_risk_score default_engine_config scenario_connection = 45 /\
  snd (analyze_connection default_engine_config scenario_connection) = [] /\
  calculate_basic_risk_score default_engine_config external_connection = 65 /\
  snd (analyze_connection default_engine_config external_connection)
  = [{| al_severity := Medium; al_risk := 65 |}].
Proof.
  split; [|vm_compute; repeat split; reflexivity].
  intros lib config c score.
  split; [apply risk_score_sum|].
  split.
  { subst score. rewrite risk_score_sum.
    destruct (port_in (foreign_port c) _), (port_in (local_port c) _),
      (truthy_str (foreign_ip c) && negb (is_internal_ip (foreign_ip c))),
      (suspicious_program (program c)); lia. }
  split.
  { unfold truthy_str, is_internal_ip.
    destruct (foreign_ip c) as [ip|]; simpl.
    - destruct (PyStr.is_empty ip) eqn:He; simpl.
      + apply is_empty_true in He. split; [discriminate|].
        intros (x & [= <-] & Hx & _). congruence.
      + assert (Hne : ip <> "") by (intros ->; discriminate).
        destruct (ip_address ip) as [a|] eqn:Ha; simpl.
        * rewrite negb_true_iff, orb_false_iff. split.
          -- intros Hpl. exists ip. rewrite Ha. auto.
          -- intros (x & [= <-] & _ & Hm). rewrite Ha in Hm. exact Hm.
        * split; [|reflexivity]. intros _. exists ip. rewrite Ha. auto.
    - split; [discriminate|]. intros (x & Hx & _). discriminate. }
  unfold analyze_connection. fold score.
  destruct (50 <? score) eqn:E; simpl.
  - split; split.
    + intros _. eexists. repeat split.
    + intros _. lia.
    + intros Hle. lia.
    + discriminate.
  - split; split.
    + intros Hlt. lia.
    + intros (a & [=] & _).
    + reflexivity.
    + intros _. lia.
Qed.

(** ** Automatic response budget *)

(** C5, as stated, fails: with a budget of two per hour, three automatic
    blocks succeed within two minutes when the hourly reset falls between the
    second and the third. *)
Lemma three_auto_blocks_in_two_minutes :
  max_auto_blocks_per_hour (response auto_two_per_hour) = 2 /\
  (forall t, minutes 59 <= clock linux_clock_jump t <= minutes 61) /\
  exists outs,
    fst (handle_connections linux_clock_jump auto_two_per_hour three_hostile empty_state)
    = Ok outs /\
    count_auto_blocked outs = 3.
Proof.
  split; [reflexivity|]. split.
  - intros t. simpl. destruct (t <? 22)%nat; unfold minutes; lia.
  - eexists. split; vm_compute; reflexivity.
Qed.

Section BudgetFacts.

Context {lib : IpAddressLib}.
Variable w : World.
Variable config : Config.

Let max_blocks : Z := max_auto_blocks_per_hour (response config).

(** An operation that always returns and does not touch the two counters
    of the controller. *)
Lemma run_controller {A} (m : M A) (s : State) :
  never_raises m ->
  keeps auto_block_count m ->
  keeps last_auto_block_reset m ->
  exists a s', m s = (Ok a, s') /\
               auto_block_count s' = auto_block_count s /\
               last_auto_block_reset s' = last_auto_block_reset s.
Proof.
  intros Hn Hc Hl. destruct (run_never_raises m s Hn) as (a & s' & E).
  exists a, s'. split; [exact E|].
  specialize (Hc s). specialize (Hl s). rewrite E in Hc, Hl. auto.
Qed.

Lemma check_auto_block_limits_run (s : State) :
  let now := clock w (tick s) in
  let reset := hours 1 <? now - last_auto_block_reset s in
  exists s1,
    check_auto_block_limits w config s = (Ok (auto_block_count s1 <? max_blocks), s1) /\
    auto_block_count s1 = (if reset then 0 else auto_block_count s) /\
    last_auto_block_reset s1 = (if reset then now else last_auto_block_reset s) /\
    trace s1 = trace s.
Proof.
  unfold check_auto_block_limits, datetime_now, next_tick, bind, ret, modify, get, when.
  simpl. destruct (hours 1 <? clock w (tick s) - last_auto_block_reset s);
    simpl;
    match goal with |- exists s1, (_, ?st) = _ /\ _ => exists st end;
    repeat split.
Qed.

Lemma handle_suspicious_connection_step (c : Connection) (s : State) :
  let now := clock w (tick s) in
  let checked := enabled (response config) && auto_response (response config) in
  let reset := checked && (hours 1 <? now - last_auto_block_reset s) in
  let count1 := if reset then 0 else auto_block_count s in
  exists o s',
    handle_suspicious_connection w config c s = (Ok o, s') /\
    last_auto_block_reset s' = (if reset then now else last_auto_block_reset s) /\
    auto_block_count s' = count1 + (if is_auto_blocked o then 1 else 0) /\
    (is_automatic o = true -> checked = true /\ count1 < max_blocks) /\
    (o = NoAction \/ o = ResponseDisabled -> trace s' = trace s).
Proof.
  intros now checked reset count1. subst now checked reset count1.
  unfold handle_suspicious_connection.
  destruct (enabled (response config)); simpl.
  2:{ exists ResponseDisabled, s. unfold ret.
      repeat split; first [reflexivity | discriminate | simpl; lia]. }
  destruct (auto_response (response config)); simpl.
  - rewrite bind_run.
    destruct (check_auto_block_limits_run s) as (s1 & -> & Hc & Hl & Ht).
    fold max_blocks.
    destruct (auto_block_count s1 <? max_blocks) eqn:Hb.
    + assert (Hlt : (if hours 1 <? clock w (tick s) - last_auto_block_reset s
                     then 0 else auto_block_count s) < max_blocks).
      { rewrite <- Hc. lia. }
      match goal with |- context [if ?b then _ else _] => destruct b end.
      * rewrite bind_run.
        destruct (run_controller
                    (terminate_process w config (pid c)
                       (risk_reason "Auto-terminate" (risk_score c))) s1)
          as (r & s2 & -> & Hc2 & Hl2).
        { apply never_raises_terminate_process. }
        { apply keeps_terminate_process; reflexivity. }
        { apply keeps_terminate_process; reflexivity. }
        unfold ret. do 2 eexists. split; [reflexivity|].
        split; [congruence|].
        split; [destruct (fst r); simpl; lia|].
        split; [auto|].
        destruct (fst r); intros [|]; discriminate.
      * match goal with |- context [if ?b then _ else _] => destruct b end.
        -- rewrite bind_run.
           destruct (run_controller
                       (block_ip w config (default "" (foreign_ip c))
                          (risk_reason "Auto-block" (risk_score c))
                          (default_block_duration_hours (response config))) s1)
             as (r & s2 & -> & Hc2 & Hl2).
           { apply never_raises_block_ip. }
           { apply keeps_block_ip; reflexivity. }
           { apply keeps_block_ip; reflexivity. }
           destruct (fst r); unfold bind, modify, ret; simpl;
             do 2 eexists; (split; [reflexivity|]); simpl;
             (split; [congruence|]); (split; [lia|]);
             (split; [auto|]); intros [|]; discriminate.
        -- unfold ret. exists NoAction, s1. split; [reflexivity|].
           split; [congruence|]. split; [simpl; lia|].
           split; [discriminate|]. auto.
    + match goal with |- context [if ?b then _ else _] => destruct b end.
      * rewrite bind_run.
        destruct (run_controller (prompt_manual_response w config c) s1)
          as (r & s2 & -> & Hc2 & Hl2).
        { apply never_raises_prompt_manual_response. }
        { apply keeps_prompt_manual_response; reflexivity. }
        { apply keeps_prompt_manual_response; reflexivity. }
        unfold ret. do 2 eexists. split; [reflexivity|].
        split; [congruence|]. split; [simpl; lia|].
        split; [discriminate|]. intros [|]; discriminate.
      * unfold ret. exists NoAction, s1. split; [reflexivity|].
        split; [congruence|]. split; [simpl; lia|].
        split; [discriminate|]. auto.
  - unfold bind, ret. simpl.
    match goal with |- context [if ?b then _ else _] => destruct b end.
    + destruct (run_controller (prompt_manual_response w config c) s)
        as (r & s2 & -> & Hc2 & Hl2).
      { apply never_raises_prompt_manual_response. }
      { apply keeps_prompt_manual_response; reflexivity. }
      { apply keeps_prompt_manual_response; reflexivity. }
      do 2 eexists. split; [reflexivity|].
      split; [congruence|]. split; [simpl; lia|].
      split; [discriminate|]. intros [|]; discriminate.
    + exists NoAction, s. repeat split; first [reflexivity | discriminate | simpl; lia].
Qed.

(** Within one window (no reset falls due), the successful automatic
    blocks are counted by the counter and never take it past the budget. *)
Lemma handle_connections_window (connections : list Connection) (s : State) :
  (forall t, clock w t - last_auto_block_reset s <= hours 1) ->
  exists outs s',
    handle_connections w config connections s = (Ok outs, s') /\
    last_auto_block_reset s' = last_auto_block_reset s /\
    auto_block_count s' = auto_block_count s + count_auto_blocked outs /\
    (0 < count_auto_blocked outs -> auto_block_count s' <= max_blocks).
Proof.
  revert s. induction connections as [|c rest IH]; intros s Hwin.
  - exists [], s. unfold count_auto_blocked. simpl. unfold ret.
    repeat split; lia.
  - simpl. destruct (alerts c) as [|a l].
    + apply IH. assumption.
    + rewrite bind_run.
      destruct (handle_suspicious_connection_step c s)
        as (o & s1 & -> & Hl & Hc & Hauto & _).
      assert (Hreset : (enabled (response config) && auto_response (response config)
                        && (hours 1 <? clock w (tick s) - last_auto_block_reset s)) = false).
      { specialize (Hwin (tick s)).
        replace (hours 1 <? _) with false by lia. apply andb_false_r. }
      rewrite Hreset in Hl, Hc, Hauto.
      destruct (IH s1) as (outs & s' & E & Hl' & Hc' & Hb').
      { intros t. rewrite Hl. apply Hwin. }
      rewrite bind_run, E. unfold ret.
      exists (o :: outs), s'. split; [reflexivity|].
      split; [congruence|].
      unfold count_auto_blocked in *. simpl.
      destruct (is_auto_blocked o) eqn:Ho; simpl length.
      * assert (Ha : is_automatic o = true) by (destruct o; try discriminate; reflexivity).
        destruct (Hauto Ha) as [_ Hlt].
        split; [lia|]. intros _.
        destruct (length (List.filter is_auto_blocked outs)) eqn:En; simpl in *; lia.
      * split; [lia|]. intros Hpos. apply Hb'. lia.
Qed.

End BudgetFacts.

(** C5 (amended): the budget is a fixed window that starts at the last
    reset, not a rolling hour.  For every handled connection: the counter is
    reset (to zero, with the reset time set to now) exactly when automatic
    mode is on and more than one hour has passed since the last reset; an
    automatic action is attempted only if the counter, after that check, is
    below [max_auto_blocks_per_hour]; the counter grows by one exactly on a
    successful automatic block; and a connection left without action leaves
    the trace of external calls as it was.  Over any run of connections
    during which no reset falls due, the run returns and the number of
    successful automatic blocks is at most what is left of the budget. *)
Theorem auto_block_budget `{IpAddressLib} (w : World) (config : Config) :
  (forall (c : Connection) (s : State),
     let now := clock w (tick s) in
     let checked := enabled (response config) && auto_response (response config) in
     let reset := checked && (hours 1 <? now - last_auto_block_reset s) in
     let count1 := if reset then 0 else auto_block_count s in
     exists o s',
       handle_suspicious_connection w config c s = (Ok o, s') /\
       last_auto_block_reset s' = (if reset then now else last_auto_block_reset s) /\
       auto_block_count s' = count1 + (if is_auto_blocked o then 1 else 0) /\
       (is_automatic o = true ->
        checked = true /\ count1 < max_auto_blocks_per_hour (response config)) /\
       (o = NoAction \/ o = ResponseDisabled -> trace s' = trace s)) /\
  (forall (connections : list Connection) (s : State),
     (forall t, clock w t - last_auto_block_reset s <= hours 1) ->
     exists outs s',
       handle_connections w config connections s = (Ok outs, s') /\
       auto_block_count s' = auto_block_count s + count_auto_blocked outs /\
       count_auto_blocked outs
       <= Z.max 0 (max_auto_blocks_per_hour (response config) - auto_block_count s)).
Proof.
  split.
  - intros c s. apply handle_suspicious_connection_step.
  - intros connections s Hwin.
    destruct (handle_connections_window w config connections s Hwin)
      as (outs & s' & E & _ & Hc & Hb).
    exists outs, s'. split; [exact E|]. split; [exact Hc|].
    assert (0 <= count_auto_blocked outs) by (unfold count_auto_blocked; lia).
    destruct (Z.eq_dec (count_auto_blocked outs) 0); lia.
Qed.

Lemma auto_block_budget_witness :
  (forall t, clock linux_frozen t - last_auto_block_reset empty_state <= hours 1) /\
  exists outs s',
    handle_connections linux_frozen auto_two_per_hour three_hostile empty_state
    = (Ok outs, s') /\
    count_auto_blocked outs <= 2.
Proof.
  assert (Hwin : forall t,
             clock linux_frozen t - last_auto_block_reset empty_state <= hours 1).
  { intros t. simpl. unfold hours. lia. }
  split; [exact Hwin|].
  destruct (proj2 (auto_block_budget linux_frozen auto_two_per_hour)
              three_hostile empty_state Hwin) as (outs & s' & E & _ & Hb).
  exists outs, s'. split; [exact E|]. exact Hb.
Defined.

(** ** Configuration merge *)


Lemma deep_merge_config_nil (base : list (string * PyVal)) :
  deep_merge_config base (PDict []) = base.
Proof. reflexivity. Qed.

Lemma deep_merge_config_cons (base : list (string * PyVal)) (key : string) (value : PyVal)
    (rest : list (string * PyVal)) :
  deep_merge_config base (PDict ((key, value) :: rest))
  = deep_merge_config (Dict.set key (merged_value (Dict.get key base) value) base)
      (PDict rest).
Proof.
  unfold merged_value. simpl.
  destruct (Dict.get key base) as [[]|]; try reflexivity.
  destruct value; reflexivity.
Qed.

Lemma get_set_same (k : string) (v : PyVal) (d : list (string * PyVal)) :
  Dict.get k (Dict.set k v d) = Some v.
Proof.
  induction d as [|[k0 v0] r IH]; simpl.
  - rewrite eqb_refl. reflexivity.
  - destruct (PyStr.eqb k0 k) eqn:E; simpl; rewrite E; [reflexivity|exact IH].
Qed.

Lemma get_set_other (k k' : string) (v : PyVal) (d : list (string * PyVal)) :
  PyStr.eqb k' k = false -> Dict.get k (Dict.set k' v d) = Dict.get k d.
Proof.
  intros Hne. induction d as [|[k0 v0] r IH]; simpl.
  - rewrite Hne. reflexivity.
  - destruct (PyStr.eqb k0 k') eqn:E; simpl.
    + apply String.eqb_eq in E. subst k0. rewrite Hne. reflexivity.
    + rewrite IH. reflexivity.
Qed.

Lemma merge_get_absent (items base : list (string * PyVal)) (key : string) :
  Dict.get key items = None ->
  Dict.get key (deep_merge_config base (PDict items)) = Dict.get key base.
Proof.
  revert base. induction items as [|[k v] rest IH]; intros base Hnone.
  - reflexivity.
  - simpl in Hnone. destruct (PyStr.eqb k key) eqn:E; [discriminate|].
    rewrite deep_merge_config_cons, IH by assumption.
    apply get_set_other. exact E.
Qed.

Lemma get_not_listed (key : string) (items : list (string * PyVal)) :
  existsb (PyStr.eqb key) (map fst items) = false -> Dict.get key items = None.
Proof.
  induction items as [|[k v] rest IH]; simpl; [reflexivity|].
  intros H. apply orb_false_elim in H as [H1 H2].
  unfold PyStr.eqb in *. rewrite String.eqb_sym, H1. apply IH. exact H2.
Qed.

Lemma merge_get_present (items base : list (string * PyVal)) (key : string) (v : PyVal) :
  no_dup_keys (map fst items) = true ->
  Dict.get key items = Some v ->
  Dict.get key (deep_merge_config base (PDict items))
  = Some (merged_value (Dict.get key base) v).
Proof.
  revert base. induction items as [|[k x] rest IH]; intros base Hnd Hget.
  - discriminate.
  - simpl in Hnd, Hget. apply andb_prop in Hnd as [Hk Hnd].
    rewrite deep_merge_config_cons.
    destruct (PyStr.eqb k key) eqn:E.
    + apply String.eqb_eq in E. subst k. injection Hget as <-.
      rewrite merge_get_absent.
      * apply get_set_same.
      * apply get_not_listed. apply negb_true_iff. exact Hk.
    + rewrite (IH _ Hnd Hget). rewrite get_set_other by exact E. reflexivity.
Qed.

Lemma well_formed_dict (items : list (string * PyVal)) :
  well_formed (PDict items) = true ->
  no_dup_keys (map fst items) = true /\
  forall k v, Dict.get k items = Some v -> well_formed v = true.
Proof.
  simpl. intros H. apply andb_prop in H as [Hnd Hall]. split; [exact Hnd|].
  clear Hnd. induction items as [|[k0 v0] rest IH]; intros k v Hget.
  - discriminate.
  - apply andb_prop in Hall as [H0 Hall]. simpl in Hget.
    destruct (PyStr.eqb k0 k); [injection Hget as <-; exact H0|].
    apply (IH Hall k v Hget).
Qed.



Lemma supplied_value_kept (path : list string) (v : PyVal) :
  (forall items, v <> PDict items) ->
  forall update base,
    path <> [] ->
    well_formed update = true ->
    lookup_path path update = Some v ->
    lookup_path path (PDict (deep_merge_config base update)) = Some v.
Proof.
  intros Hv. induction path as [|key rest IH]; intros update base Hne Hwf Hget.
  - contradiction.
  - destruct update; try discriminate.
    destruct (well_formed_dict items Hwf) as [Hnd Hsub].
    cbn [lookup_path] in *.
    destruct (Dict.get key items) as [sub|] eqn:Hk; [|discriminate].
    rewrite (merge_get_present items base key sub Hnd Hk).
    specialize (Hsub key sub Hk).
    destruct rest as [|key' rest'].
    + simpl in Hget. injection Hget as ->. simpl.
      unfold merged_value. destruct (Dict.get key base) as [[]|]; try reflexivity.
      destruct v; try reflexivity. exfalso. apply (Hv items1). reflexivity.
    + destruct sub; try discriminate.
      unfold merged_value.
      destruct (Dict.get key base) as [[| | | | | |bsub]|]; try exact Hget.
      apply IH; [discriminate|exact Hsub|exact Hget].
Qed.




(** ** Expiry sweeper *)

Section StepLemmas.

Context {A B : Type} (R : State -> State -> Prop).
Hypothesis R_refl : forall s, R s s.
Hypothesis R_trans : forall s1 s2 s3, R s1 s2 -> R s2 s3 -> R s1 s3.

Lemma steps_ret (a : A) : steps R (ret a).
Proof. intros s. apply R_refl. Qed.

Lemma steps_bind (m : M A) (f : A -> M B) :
  steps R m -> (forall a, steps R (f a)) -> steps R (bind m f).
Proof.
  intros Hm Hf s. unfold bind. specialize (Hm s).
  destruct (m s) as [[a|e] s1]; simpl in *; [|assumption].
  eapply R_trans; [exact Hm|apply Hf].
Qed.

Lemma steps_try_except (m : M A) (h : Exn -> M A) :
  steps R m -> (forall e, steps R (h e)) -> steps R (try_except m h).
Proof.
  intros Hm Hh s. unfold try_except. specialize (Hm s).
  destruct (m s) as [[a|e] s1]; simpl in *; [assumption|].
  eapply R_trans; [exact Hm|apply Hh].
Qed.

End StepLemmas.

Section AppendOnly.

Variable w : World.
Variable P : AuditEntry -> Prop.

Lemma appends_only_refl s : appends_only P s s.
Proof. exists []. split; [symmetry; apply app_nil_r|constructor]. Qed.

Lemma appends_only_trans s1 s2 s3 :
  appends_only P s1 s2 -> appends_only P s2 s3 -> appends_only P s1 s3.
Proof.
  intros (e1 & H1 & F1) (e2 & H2 & F2). exists (e1 ++ e2)%list.
  split; [rewrite H2, H1, app_assoc; reflexivity|].
  apply Forall_app. auto.
Qed.

Lemma keeps_appends_only {A} (m : M A) :
  keeps db_response_log m -> steps (appends_only P) m.
Proof.
  intros K s. exists []. rewrite K. split; [symmetry; apply app_nil_r|constructor].
Qed.

(** Whether the database accepts the row, rejects it, or fails at the
    commit, [log_response] adds at most the one row it was asked to add. *)
Lemma log_response_appends a t r b :
  (forall ts, P (audit_entry a t r ts b)) ->
  steps (appends_only P) (log_response w a t r b).
Proof.
  intros HP s.
  unfold log_response, datetime_now, db_commit, db_execute, next_tick, try_except,
    bind, ret, modify, get, when, log.
  simpl.
  destruct (db_ok w (S (tick s))); simpl.
  - destruct (db_ok w (S (S (tick s)))); simpl.
    + destruct (_ <? _)%nat; simpl; eexists; (split; [reflexivity|]);
        repeat constructor; apply HP.
    + eexists; (split; [reflexivity|]); repeat constructor; apply HP.
  - exists []. split; [symmetry; apply app_nil_r|constructor].
Qed.

End AppendOnly.

Ltac steps_engine :=
  repeat first
    [ solve [trivial]
    | apply keeps_appends_only; solve [keeps_engine]
    | apply steps_ret; apply appends_only_refl
    | apply steps_bind; [apply appends_only_trans| |intro]
    | apply steps_try_except; [apply appends_only_trans| |intro]
    | match goal with
      | |- steps _ (if ?b then _ else _) => destruct b
      | |- steps _ (match ?x with _ => _ end) => destruct x
      end ].

Section SweepFacts.

Variable w : World.

Lemma unblock_ip_appends ip : steps (appends_only is_manual_unblock) (unblock_ip w ip).
Proof.
  unfold unblock_ip.
  assert (L : steps (appends_only is_manual_unblock)
                (log_response w "unblock_ip" ip "Manual unblock" true)).
  { apply log_response_appends. intros ts. split; reflexivity. }
  steps_engine.
Qed.

Lemma for_each_appends {A} (body : A -> M unit) (l : list A) :
  (forall x, steps (appends_only is_manual_unblock) (body x)) ->
  steps (appends_only is_manual_unblock) (for_each body l).
Proof.
  intros Hb. induction l as [|x r IH]; simpl.
  - apply steps_ret. apply appends_only_refl.
  - apply steps_bind; [apply appends_only_trans|apply Hb|intros _; exact IH].
Qed.

Lemma auto_unblock_expired_appends :
  steps (appends_only is_manual_unblock) (auto_unblock_expired w).
Proof.
  unfold auto_unblock_expired.
  pose proof unblock_ip_appends as U.
  apply steps_try_except; [apply appends_only_trans| |intro; steps_engine].
  apply steps_bind; [apply appends_only_trans|steps_engine|intro now].
  apply steps_bind; [apply appends_only_trans|steps_engine|intro rows].
  apply for_each_appends. intros [ip t]. unfold sweep_one. steps_engine.
Qed.

End SweepFacts.

(** C7: one sweep removes an expired block through [unblock_ip], but the
    audit entry it leaves carries the reason of a manual unblock.  On every
    host and from every state, all the rows a sweep adds to the audit table
    are [unblock_ip] rows with the reason [Manual unblock], the reason a
    manual [unblock_ip] writes.  On the sample host with one block expired a
    second ago, the sweep empties the Ledger and its audit entry agrees with
    that of a manual unblock in action, target, reason and flag; only the
    text log tells the two apart. *)
Theorem sweep_audit_reason_is_manual :
  (forall (w : World) (s : State),
     appends_only is_manual_unblock s (snd (auto_unblock_expired w s))) /\
  (forall (w : World) (ip : string) (s : State),
     appends_only is_manual_unblock s (snd (unblock_ip w ip s))) /\
  let swept := snd (auto_unblock_expired linux_noon expired_block) in
  let manual := snd (unblock_ip linux_noon "8.8.8.8" expired_block) in
  blocked_ips swept = ∅ /\
  db_blocked_ips swept = [] /\
  map (fun e => (ae_action e, ae_target e, ae_reason e, ae_success e)) (db_response_log swept)
  = [("unblock_ip", "8.8.8.8", "Manual unblock", true)] /\
  map (fun e => (ae_action e, ae_target e, ae_reason e, ae_success e)) (db_response_log manual)
  = [("unblock_ip", "8.8.8.8", "Manual unblock", true)] /\
  map (fun e => (ae_action e, ae_target e, ae_reason e, ae_success e)) (audit_log swept)
  = map (fun e => (ae_action e, ae_target e, ae_reason e, ae_success e)) (audit_log manual) /\
  logger swept = [LogUnblockedIp "8.8.8.8"; LogAutoUnblocked "8.8.8.8"].
Proof.
  split; [intros w s; apply auto_unblock_expired_appends|].
  split; [intros w ip s; apply unblock_ip_appends|].
  vm_compute. repeat split; reflexivity.
Qed.

(** An error while unblocking one address does not stop the sweep: the
    first address stays blocked, the second is released. *)
Example sweep_continues_after_error :
  let swept := snd (auto_unblock_expired linux_noon_first_command_raises
                      two_expired_blocks) in
  blocked_ips swept = {["8.8.8.8"]} /\
  map br_ip (db_blocked_ips swept) = ["8.8.8.8"] /\
  map ae_target (db_response_log swept) = ["1.1.1.1"].
Proof. vm_compute. repeat split; reflexivity. Qed.

(** * Further properties *)

(** * Further properties of the engine *)

(** ** [unblock_ip] *)

Section UnblockFacts.

Variable w : World.

Lemma remove_rules_ledger ip s r s1 :
  remove_rules w ip s = (r, s1) -> ledger_same s s1.
Proof.
  intros E. split.
  - pose proof (keeps_remove_rules w blocked_ips
                  ltac:(reflexivity) ltac:(reflexivity) ip s) as K.
    rewrite E in K. exact K.
  - pose proof (keeps_remove_rules w db_blocked_ips
                  ltac:(reflexivity) ltac:(reflexivity) ip s) as K.
    rewrite E in K. exact K.
Qed.

Lemma unblock_ip_not_blocked ip s :
  ip ∉ blocked_ips s -> unblock_ip w ip s = (Ok (false, IpNotBlocked ip), s).
Proof.
  intros Hn. unfold unblock_ip. rewrite bind_run. simpl.
  rewrite bool_decide_eq_false_2 by assumption. reflexivity.
Qed.

(** The run of [unblock_ip] on a blocked address, in terms of the outcome of
    the platform branch and of the two database statements. *)
Lemma unblock_ip_attempt ip s :
  ip ∈ blocked_ips s ->
  unblock_ip w ip s =
  match remove_rules w ip s with
  | (Ok true, s1) =>
      let s2 := set_blocked_ips (fun ips => ips ∖ {[ip]}) s1 in
      if db_ok w (tick s2) then
        let s3 := set_tick S (set_db_blocked_ips (delete_blocked ip) s2) in
        if db_ok w (tick s3) then
          (Ok (true, IpUnblocked ip),
           snd (log_response w "unblock_ip" ip "Manual unblock" true
                  (set_logger (fun l => (l ++ [LogUnblockedIp ip])%list) (set_tick S s3))))
        else (Ok (false, ErrorUnblockingIp ip (Error "sqlite3.Error")), set_tick S s3)
      else (Ok (false, ErrorUnblockingIp ip (Error "sqlite3.Error")), set_tick S s2)
  | (Ok false, s1) => (Ok (false, FailedToUnblock ip), s1)
  | (Raise e, s1) => (Ok (false, ErrorUnblockingIp ip e), s1)
  end.
Proof.
  intros Hin. unfold unblock_ip. rewrite bind_run. simpl.
  rewrite bool_decide_eq_true_2 by assumption. simpl.
  rewrite try_except_run, bind_run.
  destruct (remove_rules w ip s) as [[[|]|e] s1]; try reflexivity.
  unfold db_commit, db_execute, log, next_tick, bind, ret, modify, raise. simpl.
  destruct (db_ok w (tick s1)); simpl; [|reflexivity].
  destruct (db_ok w (S (tick s1))); simpl; [|reflexivity].
  match goal with
  | |- context [log_response ?w ?a ?t ?r ?b ?s0] =>
      let s' := fresh "s" in let E := fresh "E" in
      destruct (log_response_ledger w a t r b s0) as (s' & E & _);
      rewrite E; simpl; f_equal; exact (eq_sym (f_equal snd E))
  end.
Qed.

Lemma unblock_ip_success ip s m s' :
  unblock_ip w ip s = (Ok (true, m), s') ->
  m = IpUnblocked ip /\ ip ∈ blocked_ips s /\
  blocked_ips s' = blocked_ips s ∖ {[ip]} /\
  db_blocked_ips s' = delete_blocked ip (db_blocked_ips s).
Proof.
  intros Hrun.
  destruct (decide (ip ∈ blocked_ips s)) as [Hin|Hn].
  2:{ rewrite unblock_ip_not_blocked in Hrun by assumption. discriminate. }
  rewrite (unblock_ip_attempt ip s Hin) in Hrun.
  destruct (remove_rules w ip s) as [[[|]|e] s1] eqn:Hr; try discriminate.
  destruct (remove_rules_ledger ip s _ s1 Hr) as [L1 L2].
  cbv zeta in Hrun. simpl in Hrun.
  destruct (db_ok w (tick s1)); [|discriminate].
  destruct (db_ok w (S (tick s1))); [|discriminate].
  injection Hrun as <- <-.
  split; [reflexivity|]. split; [assumption|].
  match goal with |- context [log_response w ?a ?t ?r ?b ?s0] =>
    destruct (log_response_snd_ledger w a t r b s0) as [K1 K2] end.
  split; [rewrite K1; simpl; rewrite L1; reflexivity|].
  rewrite K2. simpl. rewrite L2. reflexivity.
Qed.

End UnblockFacts.

Lemma rows_for_delete_same (ip : string) (t : list BlockedRow) :
  rows_for ip (delete_blocked ip t) = [].
Proof.
  unfold rows_for, delete_blocked.
  induction t as [|r t IH]; simpl; [reflexivity|].
  destruct (PyStr.eqb (br_ip r) ip) eqn:E; simpl; [assumption|].
  rewrite E. assumption.
Qed.

Lemma rows_for_delete_other (ip ip' : string) (t : list BlockedRow) :
  ip <> ip' -> rows_for ip' (delete_blocked ip t) = rows_for ip' t.
Proof.
  intros Hne. unfold rows_for, delete_blocked.
  induction t as [|r t IH]; simpl; [reflexivity|].
  destruct (PyStr.eqb (br_ip r) ip) eqn:E; simpl.
  - apply String.eqb_eq in E.
    destruct (PyStr.eqb (br_ip r) ip') eqn:E'; [|assumption].
    apply String.eqb_eq in E'. congruence.
  - rewrite IH. reflexivity.
Qed.

Lemma rows_for_insert_other (ip' : string) (row : BlockedRow) (t : list BlockedRow) :
  br_ip row <> ip' ->
  rows_for ip' (insert_or_replace_blocked row t) = rows_for ip' t.
Proof.
  intros Hne. unfold insert_or_replace_blocked.
  change (List.filter (fun r => negb (PyStr.eqb (br_ip r) (br_ip row))) t)
    with (delete_blocked (br_ip row) t).
  unfold rows_for at 1. rewrite List.filter_app.
  change (List.filter (fun r => PyStr.eqb (br_ip r) ip') (delete_blocked (br_ip row) t))
    with (rows_for ip' (delete_blocked (br_ip row) t)).
  rewrite rows_for_delete_other by assumption. simpl.
  destruct (PyStr.eqb (br_ip row) ip') eqn:E.
  - apply String.eqb_eq in E. congruence.
  - apply app_nil_r.
Qed.

(** X1: a successful [unblock_ip] removes the record of its address from
    the blocked set and from the table; on an address that is not blocked
    it answers so and leaves the state as it was. *)
Theorem unblock_ip_removes_record (w : World) (ip : string) (s : State) :
  ((ip ∉ blocked_ips s) -> unblock_ip w ip s = (Ok (false, IpNotBlocked ip), s)) /\
  (forall m s', unblock_ip w ip s = (Ok (true, m), s') ->
     m = IpUnblocked ip /\
     ip ∈ blocked_ips s /\ (ip ∉ blocked_ips s') /\
     rows_for ip (db_blocked_ips s') = []).
Proof.
  split; [apply unblock_ip_not_blocked|].
  intros m s' Hrun.
  destruct (unblock_ip_success w ip s m s' Hrun) as (Hm & Hin & Hb & Hd).
  split; [exact Hm|]. split; [exact Hin|]. split.
  - rewrite Hb. intros Hx. apply elem_of_difference in Hx as [_ Hx].
    apply Hx, elem_of_singleton. reflexivity.
  - rewrite Hd. apply rows_for_delete_same.
Qed.

Lemma unblock_ip_removes_record_witness :
  unblock_ip linux_ok "8.8.8.8" empty_state
  = (Ok (false, IpNotBlocked "8.8.8.8"), empty_state).
Proof.
  refine (proj1 (unblock_ip_removes_record linux_ok "8.8.8.8" empty_state) _).
  apply not_elem_of_empty.
Defined.


Ltac keeps_using := repeat first [ solve [trivial] | keeps_engine_step ].

Section RemovalFacts.

Variable w : World.
Hypothesis Hcmd : commands_return w.

Lemma subprocess_run_returns c s :
  exists out, subprocess_run w c s
              = (Ok out, set_trace (fun t => (t ++ [EvRun c])%list) (set_tick S s)).
Proof.
  unfold subprocess_run, next_tick, emit, bind, modify, of_res, ret. simpl.
  destruct (Hcmd (tick s) c) as [out ->]. eauto.
Qed.

Lemma remove_rules_linux ip s :
  system w = "linux" ->
  remove_rules w ip s
  = (Ok true,
     set_trace (fun t => (t ++ [EvRun ("iptables -D INPUT -s " ++ ip ++ " -j DROP");
                                EvRun ("iptables -D OUTPUT -d " ++ ip ++ " -j DROP")])%list)
       (set_tick (fun t => S (S t)) s)).
Proof.
  intros Hs. unfold remove_rules. rewrite Hs. simpl.
  rewrite bind_run.
  destruct (subprocess_run_returns ("iptables -D INPUT -s " ++ ip ++ " -j DROP") s)
    as [o1 ->].
  rewrite bind_run.
  match goal with |- context [subprocess_run w ?c ?s0] =>
    destruct (subprocess_run_returns c s0) as [o2 ->] end.
  unfold ret. f_equal. unfold set_trace, set_tick. simpl.
  rewrite <- app_assoc. reflexivity.
Qed.

Lemma remove_rules_windows ip s :
  system w = "windows" ->
  exists s1, remove_rules w ip s = (Ok true, s1).
Proof.
  intros Hs. unfold remove_rules. rewrite Hs. simpl.
  rewrite bind_run.
  match goal with |- context [subprocess_run w ?c ?s0] =>
    destruct (subprocess_run_returns c s0) as [o1 ->] end.
  rewrite bind_run.
  match goal with |- context [subprocess_run w ?c ?s0] =>
    destruct (subprocess_run_returns c s0) as [o2 ->] end.
  unfold ret. eauto.
Qed.

Lemma unblock_ip_returns_true ip s :
  system w = "linux" \/ system w = "windows" ->
  db_healthy w ->
  ip ∈ blocked_ips s ->
  exists s', unblock_ip w ip s = (Ok (true, IpUnblocked ip), s').
Proof.
  intros Hsys Hdb Hin.
  assert (Hr : exists s1, remove_rules w ip s = (Ok true, s1)).
  { destruct Hsys as [Hs|Hs].
    - rewrite (remove_rules_linux ip s Hs). eauto.
    - apply remove_rules_windows; assumption. }
  destruct Hr as [s1 Hr].
  pose proof (unblock_ip_attempt w ip s Hin) as Hrun.
  rewrite Hr in Hrun. cbv zeta in Hrun. rewrite !Hdb in Hrun.
  eexists. exact Hrun.
Qed.

End RemovalFacts.

(** X2: on Linux and on Windows the removal commands are run without
    looking at their return codes: provided they do not raise and the
    database accepts the delete, [unblock_ip] of a blocked address succeeds
    and removes its record, whatever the commands report. *)
Theorem unblock_ip_ignores_return_codes (w : World) (ip : string) (s : State) :
  system w = "linux" \/ system w = "windows" ->
  commands_return w ->
  db_healthy w ->
  ip ∈ blocked_ips s ->
  exists s',
    unblock_ip w ip s = (Ok (true, IpUnblocked ip), s') /\
    (ip ∉ blocked_ips s') /\
    rows_for ip (db_blocked_ips s') = [].
Proof.
  intros Hsys Hcmd Hdb Hin.
  destruct (unblock_ip_returns_true w Hcmd ip s Hsys Hdb Hin) as [s' Hrun].
  exists s'. split; [exact Hrun|].
  destruct (unblock_ip_success w ip s _ s' Hrun) as (_ & _ & Hb & Hd).
  split.
  - rewrite Hb. intros Hx. apply elem_of_difference in Hx as [_ Hx].
    apply Hx, elem_of_singleton. reflexivity.
  - rewrite Hd. apply rows_for_delete_same.
Qed.

Lemma unblock_ip_ignores_return_codes_witness :
  exists s',
    unblock_ip linux_iptables_fails "8.8.8.8" expired_block
    = (Ok (true, IpUnblocked "8.8.8.8"), s').
Proof.
  destruct (unblock_ip_ignores_return_codes linux_iptables_fails "8.8.8.8" expired_block)
    as (s' & H & _).
  - left. reflexivity.
  - intros t c. eexists. reflexivity.
  - intros t. reflexivity.
  - vm_compute. reflexivity.
  - exists s'. exact H.
Defined.


(** ** The Ledger across operations *)

Lemma delete_insert_same (row : BlockedRow) (t : list BlockedRow) :
  delete_blocked (br_ip row) (insert_or_replace_blocked row t)
  = delete_blocked (br_ip row) t.
Proof.
  unfold delete_blocked, insert_or_replace_blocked.
  rewrite List.filter_app. simpl. rewrite eqb_refl. simpl. rewrite app_nil_r.
  induction t as [|r t IH]; simpl; [reflexivity|].
  destruct (PyStr.eqb (br_ip r) (br_ip row)) eqn:E; simpl; [assumption|].
  rewrite E. simpl. rewrite IH. reflexivity.
Qed.

Section RoundTrip.

Context {lib : IpAddressLib}.
Variable w : World.
Variable config : Config.

Lemma block_ip_not_blocked_before ip reason d s m s1 :
  block_ip w config ip reason d s = (Ok (true, m), s1) -> ip ∉ blocked_ips s.
Proof.
  intros Hrun Hin.
  destruct (block_ip_guards config ip s) as [G|[[G _]|[_ Hn]]].
  - rewrite (block_ip_refused w config ip reason d s G) in Hrun. discriminate.
  - rewrite (block_ip_already w config ip reason d s G Hin) in Hrun. discriminate.
  - contradiction.
Qed.

Lemma install_rules_linux_trace ip s command result s1 :
  system w = "linux" ->
  install_rules w ip s = (Ok (true, command, result), s1) ->
  trace s1 = (trace s ++ [EvRun ("iptables -A INPUT -s " ++ ip ++ " -j DROP");
                          EvRun ("iptables -A OUTPUT -d " ++ ip ++ " -j DROP")])%list.
Proof.
  intros Hs. unfold install_rules. rewrite Hs. simpl.
  unfold subprocess_run, next_tick, emit, bind, ret, modify, of_res, when, raise. simpl.
  destruct (run w (tick s) _) as [out|e]; simpl; [|discriminate].
  destruct (fst out =? 0); simpl; [|discriminate].
  destruct (run w (S (tick s)) _) as [out2|e]; simpl; [|discriminate].
  intros [= _ _ <-]. simpl. rewrite <- app_assoc. reflexivity.
Qed.

Lemma block_ip_success_trace ip reason d s m s' :
  block_ip w config ip reason d s = (Ok (true, m), s') ->
  exists command result s1,
    install_rules w ip s = (Ok (true, command, result), s1) /\ trace s' = trace s1.
Proof.
  intros Hrun.
  pose proof (block_ip_not_blocked_before ip reason d s m s' Hrun) as Hn.
  destruct (block_ip_guards config ip s) as [G|[[G Hin]|[G _]]].
  - rewrite (block_ip_refused w config ip reason d s G) in Hrun. discriminate.
  - contradiction.
  - rewrite (block_ip_attempt w config ip reason d s G Hn) in Hrun.
    destruct (install_rules w ip s) as [[[[success command] result]|e] s1] eqn:Hi.
    2:{ discriminate. }
    destruct success.
    2:{ destruct command, result; discriminate. }
    cbv zeta in Hrun. simpl in Hrun.
    destruct (expiry_in_range (clock w (tick s1)) d); [|discriminate].
    destruct (db_ok w (S (S (tick s1)))); [|discriminate].
    destruct (db_ok w (S (S (S (tick s1))))); [|discriminate].
    injection Hrun as _ <-.
    exists command, result, s1. split; [reflexivity|].
    match goal with |- context [log_response w ?a ?t ?r ?b ?s0] =>
      pose proof (keeps_log_response w trace) as K;
      specialize (K ltac:(reflexivity) ltac:(reflexivity) ltac:(reflexivity)
                    ltac:(reflexivity) a t r b s0) end.
    rewrite K. reflexivity.
Qed.

End RoundTrip.

(** X3: on Linux, while the commands do not raise and the database accepts
    its statements, a successful [block_ip] followed by [unblock_ip] of the
    same address succeeds and leaves no record of the address: the blocked
    set is what it was before the block, the table has no row for the
    address, and the firewall saw the two rules appended and then the same
    two rules deleted. *)
Theorem block_then_unblock `{IpAddressLib} (w : World) (config : Config)
    (ip reason : string) (d : Z) (s s1 : State) (m : Msg) :
  system w = "linux" ->
  commands_return w ->
  db_healthy w ->
  block_ip w config ip reason d s = (Ok (true, m), s1) ->
  exists s2,
    unblock_ip w ip s1 = (Ok (true, IpUnblocked ip), s2) /\
    blocked_ips s2 = blocked_ips s /\
    db_blocked_ips s2 = delete_blocked ip (db_blocked_ips s) /\
    rows_for ip (db_blocked_ips s2) = [] /\
    trace s2 = (trace s ++ [EvRun ("iptables -A INPUT -s " ++ ip ++ " -j DROP");
                            EvRun ("iptables -A OUTPUT -d " ++ ip ++ " -j DROP");
                            EvRun ("iptables -D INPUT -s " ++ ip ++ " -j DROP");
                            EvRun ("iptables -D OUTPUT -d " ++ ip ++ " -j DROP")])%list.
Proof.
  intros Hsys Hcmd Hdb Hrun.
  pose proof (block_ip_not_blocked_before w config ip reason d s m s1 Hrun) as Hn.
  destruct (block_ip_success w config ip reason d s m s1 Hrun)
    as (_ & c & res & s0 & t1 & t2 & _ & _ & _ & Hb & Hd).
  destruct (block_ip_success_trace w config ip reason d s m s1 Hrun)
    as (c' & res' & s0' & Hi & Ht).
  rewrite (install_rules_linux_trace w ip s c' res' s0' Hsys Hi) in Ht.
  assert (Hin : ip ∈ blocked_ips s1).
  { rewrite Hb. apply elem_of_union_r, elem_of_singleton. reflexivity. }
  pose proof (unblock_ip_attempt w ip s1 Hin) as Hu.
  rewrite (remove_rules_linux w Hcmd ip s1 Hsys) in Hu.
  cbv zeta in Hu. rewrite !Hdb in Hu.
  eexists. split; [exact Hu|].
  destruct (unblock_ip_success w ip s1 _ _ Hu) as (_ & _ & Hb2 & Hd2).
  split; [|split; [|split]].
  - rewrite Hb2, Hb. apply set_eq. intros x.
    rewrite elem_of_difference, elem_of_union, elem_of_singleton.
    split; [intros [[Hx|Hx] Hne]; [assumption|contradiction]|].
    intros Hx. split; [left; assumption|]. intros ->. contradiction.
  - rewrite Hd2, Hd.
    apply (delete_insert_same
             {| br_ip := ip; br_reason := reason; br_timestamp := t2;
                br_auto_unblock_time := Some (t1 + hours d) |}).
  - rewrite Hd2. apply rows_for_delete_same.
  - match goal with |- context [log_response w ?a ?t ?r ?b ?s0] =>
      pose proof (keeps_log_response w trace) as K;
      specialize (K ltac:(reflexivity) ltac:(reflexivity) ltac:(reflexivity)
                    ltac:(reflexivity) a t r b s0) end.
    simpl. rewrite K. simpl. rewrite Ht. rewrite <- app_assoc. reflexivity.
Qed.

Lemma block_then_unblock_witness :
  exists s2,
    unblock_ip linux_ok "8.8.8.8"
      (snd (block_ip linux_ok default_engine_config "8.8.8.8" "probe" 1 empty_state))
    = (Ok (true, IpUnblocked "8.8.8.8"), s2) /\
    blocked_ips s2 = blocked_ips empty_state.
Proof.
  destruct (block_then_unblock linux_ok default_engine_config "8.8.8.8" "probe" 1
              empty_state
              (snd (block_ip linux_ok default_engine_config "8.8.8.8" "probe" 1 empty_state))
              (IpBlocked "8.8.8.8" 3600000002))
    as (s2 & H1 & H2 & _).
  - reflexivity.
  - intros t c. eexists. reflexivity.
  - intros t. reflexivity.
  - vm_compute. reflexivity.
  - exists s2. split; [exact H1|exact H2].
Defined.


Section OtherRecords.

Context {lib : IpAddressLib}.
Variable w : World.
Variable config : Config.
Variables ip ip' : string.
Hypothesis Hne : ip <> ip'.

Lemma record_of_add s :
  record_of ip' (set_blocked_ips (fun ips => ips ∪ {[ip]}) s) = record_of ip' s.
Proof.
  unfold record_of. simpl. f_equal. apply bool_decide_ext.
  rewrite elem_of_union, elem_of_singleton. split; [intros [Hx|Hx]|auto]; congruence.
Qed.

Lemma record_of_remove s :
  record_of ip' (set_blocked_ips (fun ips => ips ∖ {[ip]}) s) = record_of ip' s.
Proof.
  unfold record_of. simpl. f_equal. apply bool_decide_ext.
  rewrite elem_of_difference, elem_of_singleton. split; [intros [Hx _]|]; auto.
Qed.

Lemma record_of_insert reason t u s :
  record_of ip' (set_db_blocked_ips
                   (insert_or_replace_blocked
                      {| br_ip := ip; br_reason := reason; br_timestamp := t;
                         br_auto_unblock_time := u |}) s)
  = record_of ip' s.
Proof.
  unfold record_of. simpl. f_equal. apply rows_for_insert_other. exact Hne.
Qed.

Lemma record_of_delete s :
  record_of ip' (set_db_blocked_ips (delete_blocked ip) s) = record_of ip' s.
Proof.
  unfold record_of. simpl. f_equal. apply rows_for_delete_other. exact Hne.
Qed.

Lemma keeps_record_block_ip reason d : keeps (record_of ip') (block_ip w config ip reason d).
Proof.
  unfold block_ip, plus_timedelta_hours.
  pose proof record_of_add. pose proof record_of_insert.
  pose proof (keeps_log_response w (record_of ip') ltac:(reflexivity) ltac:(reflexivity)
                ltac:(reflexivity) ltac:(reflexivity)).
  keeps_using.
Qed.

Lemma keeps_record_unblock_ip : keeps (record_of ip') (unblock_ip w ip).
Proof.
  unfold unblock_ip.
  pose proof record_of_remove. pose proof record_of_delete.
  pose proof (keeps_log_response w (record_of ip') ltac:(reflexivity) ltac:(reflexivity)
                ltac:(reflexivity) ltac:(reflexivity)).
  keeps_using.
Qed.

End OtherRecords.

(** X4: blocking or unblocking one address never touches the record of
    another: whatever the outcome, the other address is in the blocked set
    exactly if it was, and its rows in the table are the same. *)
Theorem other_records_untouched `{IpAddressLib} (w : World) (config : Config)
    (ip ip' reason : string) (d : Z) (s : State) :
  ip <> ip' ->
  record_of ip' (snd (block_ip w config ip reason d s)) = record_of ip' s /\
  record_of ip' (snd (unblock_ip w ip s)) = record_of ip' s.
Proof.
  intros Hne. split.
  - apply (keeps_record_block_ip w config ip ip' Hne reason d s).
  - apply (keeps_record_unblock_ip w ip ip' Hne s).
Qed.

Lemma other_records_untouched_witness :
  record_of "1.1.1.1"
    (snd (block_ip linux_ok default_engine_config "8.8.8.8" "probe" 24 two_expired_blocks))
  = record_of "1.1.1.1" two_expired_blocks /\
  record_of "1.1.1.1" (snd (unblock_ip linux_ok "8.8.8.8" two_expired_blocks))
  = record_of "1.1.1.1" two_expired_blocks.
Proof.
  apply (other_records_untouched linux_ok default_engine_config "8.8.8.8" "1.1.1.1"
           "probe" 24 two_expired_blocks).
  discriminate.
Defined.


(** ** Invariants of the Ledger *)

Lemma unique_rows_ledger_same (s s' : State) :
  db_blocked_ips s' = db_blocked_ips s -> unique_rows s -> unique_rows s'.
Proof. intros E U ip. rewrite E. apply U. Qed.

Lemma unique_rows_insert (row : BlockedRow) (s s' : State) :
  db_blocked_ips s' = insert_or_replace_blocked row (db_blocked_ips s) ->
  unique_rows s -> unique_rows s'.
Proof.
  intros E U ip. rewrite E.
  destruct (string_dec (br_ip row) ip) as [<-|Hne].
  - rewrite rows_for_insert. simpl. lia.
  - rewrite rows_for_insert_other by assumption. apply U.
Qed.

Lemma unique_rows_delete (ip0 : string) (s s' : State) :
  db_blocked_ips s' = delete_blocked ip0 (db_blocked_ips s) ->
  unique_rows s -> unique_rows s'.
Proof.
  intros E U ip. rewrite E.
  destruct (string_dec ip0 ip) as [<-|Hne].
  - rewrite rows_for_delete_same. simpl. lia.
  - rewrite rows_for_delete_other by assumption. apply U.
Qed.

Lemma in_sync_ledger_same (s s' : State) :
  ledger_same s s' -> in_sync s -> in_sync s'.
Proof. intros [E1 E2] I ip. rewrite E1, E2. apply I. Qed.

Lemma in_sync_insert (row : BlockedRow) (s s' : State) :
  blocked_ips s' = blocked_ips s ∪ {[br_ip row]} ->
  db_blocked_ips s' = insert_or_replace_blocked row (db_blocked_ips s) ->
  in_sync s -> in_sync s'.
Proof.
  intros E1 E2 I ip. rewrite E1, E2, elem_of_union, elem_of_singleton.
  destruct (string_dec (br_ip row) ip) as [<-|Hne].
  - rewrite rows_for_insert. split; [discriminate|auto].
  - rewrite rows_for_insert_other by assumption. specialize (I ip).
    split; [intros [Hx|Hx]; [apply I; assumption|congruence]|].
    intros Hx. left. apply I. assumption.
Qed.

Lemma in_sync_delete (ip0 : string) (s s' : State) :
  blocked_ips s' = blocked_ips s ∖ {[ip0]} ->
  db_blocked_ips s' = delete_blocked ip0 (db_blocked_ips s) ->
  in_sync s -> in_sync s'.
Proof.
  intros E1 E2 I ip. rewrite E1, E2, elem_of_difference, elem_of_singleton.
  destruct (string_dec ip0 ip) as [<-|Hne].
  - rewrite rows_for_delete_same. split; [intros [_ Hx]; congruence|congruence].
  - rewrite rows_for_delete_other by assumption. specialize (I ip).
    split; [intros [Hx _]; apply I; assumption|].
    intros Hx. split; [apply I; assumption|congruence].
Qed.

Section LedgerOutcomes.

Context {lib : IpAddressLib}.
Variable w : World.
Variable config : Config.

(** Whatever happens, the table after [block_ip] is the old table, or the
    old table with the row of the address inserted or replaced. *)
Lemma block_ip_db_cases ip reason d s :
  let s' := snd (block_ip w config ip reason d s) in
  db_blocked_ips s' = db_blocked_ips s \/
  exists row, br_ip row = ip /\
              db_blocked_ips s' = insert_or_replace_blocked row (db_blocked_ips s).
Proof.
  intros s'. subst s'.
  destruct (block_ip_guards config ip s) as [G|[[G Hin]|[G Hin]]].
  - rewrite (block_ip_refused w config ip reason d s G). left. reflexivity.
  - rewrite (block_ip_already w config ip reason d s G Hin). left. reflexivity.
  - rewrite (block_ip_attempt w config ip reason d s G Hin).
    destruct (install_rules w ip s) as [[[[success command] result]|e] s1] eqn:Hi.
    + destruct (install_rules_ledger w ip s _ s1 Hi) as [_ L].
      destruct success.
      * cbv zeta. simpl.
        destruct (expiry_in_range (clock w (tick s1)) d);
          [destruct (db_ok w (S (S (tick s1))));
             [destruct (db_ok w (S (S (S (tick s1)))))|]|];
          simpl;
          match goal with |- context [log_response w ?a ?t ?r ?b ?s0] =>
            destruct (log_response_snd_ledger w a t r b s0) as [_ K]; rewrite K end;
          simpl; rewrite L;
          first [ left; reflexivity
                | right; eexists; split; [|reflexivity]; reflexivity ].
      * destruct command, result; simpl;
          match goal with |- context [log_response w ?a ?t ?r ?b ?s0] =>
            destruct (log_response_snd_ledger w a t r b s0) as [_ K]; rewrite K end;
          left; exact L.
    + destruct (install_rules_ledger w ip s _ s1 Hi) as [_ L]. simpl.
      match goal with |- context [log_response w ?a ?t ?r ?b ?s0] =>
        destruct (log_response_snd_ledger w a t r b s0) as [_ K]; rewrite K end.
      left. exact L.
Qed.

Lemma unblock_ip_db_cases ip s :
  let s' := snd (unblock_ip w ip s) in
  db_blocked_ips s' = db_blocked_ips s \/
  db_blocked_ips s' = delete_blocked ip (db_blocked_ips s).
Proof.
  intros s'. subst s'.
  destruct (decide (ip ∈ blocked_ips s)) as [Hin|Hn].
  2:{ rewrite unblock_ip_not_blocked by assumption. left. reflexivity. }
  rewrite (unblock_ip_attempt w ip s Hin).
  destruct (remove_rules w ip s) as [[[|]|e] s1] eqn:Hr;
    destruct (remove_rules_ledger w ip s _ s1 Hr) as [_ L]; simpl; auto.
  destruct (db_ok w (tick s1)); [destruct (db_ok w (S (tick s1)))|]; simpl.
  - match goal with |- context [log_response w ?a ?t ?r ?b ?s0] =>
      destruct (log_response_snd_ledger w a t r b s0) as [_ K]; rewrite K end.
    simpl. rewrite L. auto.
  - rewrite L. auto.
  - auto.
Qed.

(** With a healthy database the two parts of the Ledger move together. *)
Lemma block_ip_in_sync ip reason d s :
  db_healthy w ->
  (forall t, expiry_in_range (clock w t) d = true) ->
  in_sync s -> in_sync (snd (block_ip w config ip reason d s)).
Proof.
  intros Hdb Hr I.
  destruct (block_ip w config ip reason d s) as [[[ok m]|e] s'] eqn:Hrun.
  2:{ destruct (run_never_raises (block_ip w config ip reason d) s
                  (never_raises_block_ip w config ip reason d)) as (a & s0 & E).
      rewrite E in Hrun. discriminate. }
  simpl. destruct ok.
  - destruct (block_ip_success w config ip reason d s m s' Hrun)
      as (_ & c & res & s1 & t1 & t2 & _ & _ & _ & Hb & Hd).
    exact (in_sync_insert
             {| br_ip := ip; br_reason := reason; br_timestamp := t2;
                br_auto_unblock_time := Some (t1 + hours d) |} s s' Hb Hd I).
  - apply (in_sync_ledger_same s s'); [|exact I].
    destruct (block_ip_guards config ip s) as [G|[[G Hin]|[G Hin]]].
    + rewrite (block_ip_refused w config ip reason d s G) in Hrun.
      injection Hrun as _ <-. apply ledger_same_refl.
    + rewrite (block_ip_already w config ip reason d s G Hin) in Hrun.
      injection Hrun as _ <-. apply ledger_same_refl.
    + rewrite (block_ip_attempt w config ip reason d s G Hin) in Hrun.
      destruct (install_rules w ip s) as [[[[success command] result]|e] s1] eqn:Hi;
        pose proof (install_rules_ledger w ip s _ s1 Hi) as L1.
      * destruct success.
        -- cbv zeta in Hrun. rewrite Hr, !Hdb in Hrun. discriminate.
        -- destruct command, result; injection Hrun as _ <-;
             (eapply ledger_same_trans; [exact L1|apply log_response_snd_ledger]).
      * injection Hrun as _ <-.
        eapply ledger_same_trans; [exact L1|apply log_response_snd_ledger].
Qed.

Lemma unblock_ip_in_sync ip s :
  db_healthy w -> in_sync s -> in_sync (snd (unblock_ip w ip s)).
Proof.
  intros Hdb I.
  destruct (unblock_ip w ip s) as [[[ok m]|e] s'] eqn:Hrun.
  2:{ destruct (run_never_raises (unblock_ip w ip) s (never_raises_unblock_ip w ip))
        as (a & s0 & E).
      rewrite E in Hrun. discriminate. }
  simpl. destruct ok.
  - destruct (unblock_ip_success w ip s m s' Hrun) as (_ & _ & Hb & Hd).
    exact (in_sync_delete ip s s' Hb Hd I).
  - apply (in_sync_ledger_same s s'); [|exact I].
    destruct (decide (ip ∈ blocked_ips s)) as [Hin|Hn].
    2:{ rewrite unblock_ip_not_blocked in Hrun by assumption.
        injection Hrun as _ <-. apply ledger_same_refl. }
    rewrite (unblock_ip_attempt w ip s Hin) in Hrun.
    destruct (remove_rules w ip s) as [[[|]|e] s1] eqn:Hr;
      pose proof (remove_rules_ledger w ip s _ s1 Hr) as L1.
    + cbv zeta in Hrun. rewrite !Hdb in Hrun. discriminate.
    + injection Hrun as _ <-. exact L1.
    + injection Hrun as _ <-. exact L1.
Qed.

(** Once the rule is installed the address joins the blocked set; when the
    expiry cannot be computed or the INSERT is rejected, nothing takes it out
    again and no row is written. *)
Lemma block_ip_set_ahead ip reason d s s1 command result :
  PyStr.is_empty ip || is_whitelisted_ip config ip = false ->
  ip ∉ blocked_ips s ->
  install_rules w ip s = (Ok (true, command, result), s1) ->
  expiry_in_range (clock w (tick s1)) d = false \/ db_ok w (S (S (tick s1))) = false ->
  exists s',
    block_ip w config ip reason d s
    = (Ok (false, ErrorBlockingIp ip
                    (if expiry_in_range (clock w (tick s1)) d
                     then Error "sqlite3.Error" else Error "OverflowError")), s') /\
    ip ∈ blocked_ips s' /\
    db_blocked_ips s' = db_blocked_ips s /\
    trace s' = trace s1.
Proof.
  intros G Hn Hi Hfail.
  pose proof (block_ip_attempt w config ip reason d s G Hn) as Hrun.
  rewrite Hi in Hrun. cbv zeta in Hrun. simpl in Hrun.
  destruct (install_rules_ledger w ip s _ s1 Hi) as [L1 L2].
  assert (Hlog : forall s0,
             blocked_ips s0 = blocked_ips s1 ∪ {[ip]} ->
             db_blocked_ips s0 = db_blocked_ips s1 ->
             trace s0 = trace s1 ->
             let s' := snd (log_response w "block_ip" ip reason false s0) in
             ip ∈ blocked_ips s' /\ db_blocked_ips s' = db_blocked_ips s /\
             trace s' = trace s1).
  { intros s0 Hb Hd Ht s'. subst s'.
    destruct (log_response_snd_ledger w "block_ip" ip reason false s0) as [K1 K2].
    pose proof (keeps_log_response w trace ltac:(reflexivity) ltac:(reflexivity)
                  ltac:(reflexivity) ltac:(reflexivity) "block_ip" ip reason false s0)
      as K3.
    rewrite K1, K2, K3, Hb, Hd, Ht. split; [|split; [exact L2|reflexivity]].
    apply elem_of_union_r, elem_of_singleton. reflexivity. }
  destruct (expiry_in_range (clock w (tick s1)) d).
  - destruct Hfail as [Hfail|Hfail]; [discriminate|]. rewrite Hfail in Hrun.
    eexists. split; [exact Hrun|]. apply Hlog; reflexivity.
  - eexists. split; [exact Hrun|]. apply Hlog; reflexivity.
Qed.

End LedgerOutcomes.

Section StepsGeneric.

Context (R : State -> State -> Prop).
Hypothesis R_refl : forall s, R s s.
Hypothesis R_trans : forall s1 s2 s3, R s1 s2 -> R s2 s3 -> R s1 s3.

Lemma steps_for_each {A} (body : A -> M unit) (l : list A) :
  (forall x, steps R (body x)) -> steps R (for_each body l).
Proof.
  intros Hb. induction l as [|x r IH]; simpl.
  - apply steps_ret. exact R_refl.
  - apply steps_bind; [exact R_trans|apply Hb|intros _; exact IH].
Qed.

Lemma steps_when (b : bool) (m : M unit) : steps R m -> steps R (when b m).
Proof. destruct b; [auto|intros _ s; apply R_refl]. Qed.

(** The sweep is made of [unblock_ip] calls and of steps that leave the
    Ledger alone. *)
Lemma steps_auto_unblock_expired (w : World) :
  (forall (A : Type) (m : M A), keeps blocked_ips m -> keeps db_blocked_ips m -> steps R m) ->
  (forall ip, steps R (unblock_ip w ip)) ->
  steps R (auto_unblock_expired w).
Proof.
  intros Hkeep Hun. unfold auto_unblock_expired.
  assert (Hlog : forall l, steps R (log l)).
  { intros l. apply Hkeep; keeps_engine. }
  apply steps_try_except; [exact R_trans| |intro; apply Hlog].
  apply steps_bind; [exact R_trans|apply Hkeep; keeps_engine|intro now].
  apply steps_bind; [exact R_trans|apply Hkeep; keeps_engine|intro rows].
  apply steps_for_each. intros [ip t]. unfold sweep_one.
  apply steps_try_except; [exact R_trans| |intro; apply Hlog].
  destruct (t <=? now); [|apply steps_ret; exact R_trans || exact R_refl].
  apply steps_bind; [exact R_trans|apply Hun|intro r].
  apply steps_when. apply Hlog.
Qed.

End StepsGeneric.

(** X5: the primary key of the [blocked_ips] table is kept: if no address
    has more than one row, that is still so after [block_ip], after
    [unblock_ip] and after a sweep, on every host and whatever fails. *)
Theorem unique_rows_kept `{IpAddressLib} (w : World) (config : Config) (s : State) :
  unique_rows s ->
  (forall ip reason d, unique_rows (snd (block_ip w config ip reason d s))) /\
  (forall ip, unique_rows (snd (unblock_ip w ip s))) /\
  unique_rows (snd (auto_unblock_expired w s)).
Proof.
  intros U. split; [|split].
  - intros ip reason d.
    destruct (block_ip_db_cases w config ip reason d s) as [E|(row & _ & E)].
    + exact (unique_rows_ledger_same s _ E U).
    + exact (unique_rows_insert row s _ E U).
  - intros ip. destruct (unblock_ip_db_cases w ip s) as [E|E].
    + exact (unique_rows_ledger_same s _ E U).
    + exact (unique_rows_delete ip s _ E U).
  - refine (steps_auto_unblock_expired
              (fun s s' => unique_rows s -> unique_rows s') _ _ w _ _ s U).
    + auto.
    + auto.
    + intros A m _ K s0 U0. exact (unique_rows_ledger_same s0 _ (K s0) U0).
    + intros ip s0 U0. destruct (unblock_ip_db_cases w ip s0) as [E|E].
      * exact (unique_rows_ledger_same s0 _ E U0).
      * exact (unique_rows_delete ip s0 _ E U0).
Qed.

Lemma unique_rows_two_expired_blocks : unique_rows two_expired_blocks.
Proof.
  intros ip. unfold rows_for, two_expired_blocks, db_blocked_ips, blocked_row.
  cbn [List.filter br_ip].
  destruct (PyStr.eqb "8.8.8.8" ip) eqn:E1; destruct (PyStr.eqb "1.1.1.1" ip) eqn:E2;
    cbn [length]; try lia.
  apply String.eqb_eq in E1, E2. congruence.
Qed.

Lemma unique_rows_kept_witness :
  unique_rows (snd (auto_unblock_expired linux_noon two_expired_blocks)).
Proof.
  apply (unique_rows_kept linux_noon default_engine_config two_expired_blocks).
  exact unique_rows_two_expired_blocks.
Defined.

(** X6: while the database accepts its statements, the in-memory blocked
    set and the [blocked_ips] table stay in step: if they list the same
    addresses, they still do after [unblock_ip], after a sweep, and after
    [block_ip] with a duration whose expiry is a representable date.  The
    condition on the duration cannot be dropped: when the rule is installed
    and the expiry overflows, [block_ip] leaves the address in the set
    without a row, and the two are out of step although the database is
    healthy. *)
Theorem in_sync_kept `{IpAddressLib} (w : World) (config : Config) (s : State) :
  db_healthy w ->
  in_sync s ->
  (forall ip reason d,
      (forall t, expiry_in_range (clock w t) d = true) ->
      in_sync (snd (block_ip w config ip reason d s))) /\
  (forall ip, in_sync (snd (unblock_ip w ip s))) /\
  in_sync (snd (auto_unblock_expired w s)) /\
  (forall ip reason d command result s1,
      PyStr.is_empty ip || is_whitelisted_ip config ip = false ->
      (ip ∉ blocked_ips s) ->
      install_rules w ip s = (Ok (true, command, result), s1) ->
      expiry_in_range (clock w (tick s1)) d = false ->
      ~ in_sync (snd (block_ip w config ip reason d s))).
Proof.
  intros Hdb I. split; [|split; [|split]].
  4:{ intros ip reason d command result s1 G Hn Hi Hr I'.
      destruct (block_ip_set_ahead w config ip reason d s s1 command result G Hn Hi
                  (or_introl Hr)) as (s' & Hrun & Hin & Hd & _).
      rewrite Hrun in I'. cbn [snd] in I'.
      apply (I' ip) in Hin. apply Hin. rewrite Hd.
      destruct (rows_for ip (db_blocked_ips s)) eqn:E; [reflexivity|].
      exfalso. apply Hn. apply (I ip). rewrite E. discriminate. }
  - intros ip reason d Hr. apply block_ip_in_sync; assumption.
  - intros ip. apply unblock_ip_in_sync; assumption.
  - refine (steps_auto_unblock_expired
              (fun s s' => in_sync s -> in_sync s') _ _ w _ _ s I).
    + auto.
    + auto.
    + intros A m K1 K2 s0 I0.
      apply (in_sync_ledger_same s0); [split; [apply K1|apply K2]|exact I0].
    + intros ip s0 I0. apply unblock_ip_in_sync; assumption.
Qed.

Lemma in_sync_empty_state : in_sync empty_state.
Proof.
  intros ip. simpl. split; [intros Hx|intros Hx; congruence].
  apply not_elem_of_empty in Hx. contradiction.
Qed.

Lemma in_sync_kept_witness :
  in_sync (snd (block_ip linux_frozen default_engine_config "8.8.8.8" "probe" 24
                  empty_state)) /\
  ~ in_sync (snd (block_ip linux_frozen default_engine_config "8.8.8.8" "probe"
                    100000000 empty_state)).
Proof.
  pose proof (in_sync_kept linux_frozen default_engine_config empty_state
                ltac:(intros t; reflexivity) in_sync_empty_state) as (Hb & _ & _ & Ho).
  split.
  - apply (Hb "8.8.8.8" "probe" 24). intros t. reflexivity.
  - apply (Ho "8.8.8.8" "probe" 100000000
             (Some "iptables -A INPUT -s 8.8.8.8 -j DROP") (Some (0, ""))
             (snd (install_rules linux_frozen "8.8.8.8" empty_state))).
    + vm_compute. reflexivity.
    + apply not_elem_of_empty.
    + vm_compute. reflexivity.
    + vm_compute. reflexivity.
Defined.


(** X7: when the firewall rules are installed but the database rejects the
    INSERT, [block_ip] reports a failure although the address is already in
    the in-memory blocked set and its rule is in place; the table is
    unchanged, and every retry is refused as already blocked.  The error
    reported is the database's, unless the expiry overflowed before the
    INSERT was reached. *)
Theorem block_ip_insert_rejected `{IpAddressLib} (w : World) (config : Config)
    (ip reason : string) (d : Z) (s s1 : State)
    (command : option string) (result : option (Z * string)) :
  PyStr.is_empty ip || is_whitelisted_ip config ip = false ->
  (ip ∉ blocked_ips s) ->
  install_rules w ip s = (Ok (true, command, result), s1) ->
  db_ok w (S (S (tick s1))) = false ->
  exists s',
    block_ip w config ip reason d s
    = (Ok (false, ErrorBlockingIp ip
                    (if expiry_in_range (clock w (tick s1)) d
                     then Error "sqlite3.Error" else Error "OverflowError")), s') /\
    ip ∈ blocked_ips s' /\
    db_blocked_ips s' = db_blocked_ips s /\
    (exists cmd, command = Some cmd /\ In (EvRun cmd) (trace s')) /\
    forall reason' d',
      block_ip w config ip reason' d' s' = (Ok (false, IpAlreadyBlocked ip), s').
Proof.
  intros G Hn Hi Hdb.
  destruct (block_ip_set_ahead w config ip reason d s s1 command result G Hn Hi
              (or_intror Hdb)) as (s' & Hrun & Hmem & Hd & Ht).
  destruct (install_rules_flag w ip s command result s1 Hi)
    as (cmd & out & t & -> & _ & _ & _ & Hin).
  exists s'. split; [exact Hrun|]. split; [exact Hmem|]. split; [exact Hd|].
  split; [exists cmd; split; [reflexivity|]; rewrite Ht; exact Hin|].
  intros reason' d'. apply block_ip_already; assumption.
Qed.

Lemma block_ip_insert_rejected_witness :
  exists s',
    block_ip linux_insert_rejected default_engine_config "8.8.8.8" "probe" 24 empty_state
    = (Ok (false, ErrorBlockingIp "8.8.8.8" (Error "sqlite3.Error")), s') /\
    "8.8.8.8" ∈ blocked_ips s' /\
    db_blocked_ips s' = [].
Proof.
  destruct (block_ip_insert_rejected linux_insert_rejected default_engine_config
              "8.8.8.8" "probe" 24 empty_state
              (snd (install_rules linux_insert_rejected "8.8.8.8" empty_state))
              (Some "iptables -A INPUT -s 8.8.8.8 -j DROP") (Some (0, "")))
    as (s' & H1 & H2 & H3 & _).
  - vm_compute. reflexivity.
  - apply not_elem_of_empty.
  - vm_compute. reflexivity.
  - vm_compute. reflexivity.
  - exists s'. split; [exact H1|]. split; [exact H2|exact H3].
Defined.

(** ** A complete sweep *)

Lemma delete_blocked_absent (ip : string) (t : list BlockedRow) :
  rows_for ip t = [] -> delete_blocked ip t = t.
Proof.
  unfold rows_for, delete_blocked. induction t as [|r t IH]; simpl; [reflexivity|].
  destruct (PyStr.eqb (br_ip r) ip); simpl; [discriminate|].
  intros H. rewrite IH by assumption. reflexivity.
Qed.

Lemma filter_two_steps (ip : string) (ips : list string) (t : list BlockedRow) :
  List.filter (fun r => negb (PyStr.eqb (br_ip r) ip || existsb (PyStr.eqb (br_ip r)) ips)) t
  = List.filter (fun r => negb (existsb (PyStr.eqb (br_ip r)) ips))
      (List.filter (fun r => negb (PyStr.eqb (br_ip r) ip)) t).
Proof.
  induction t as [|r t IH]; [reflexivity|].
  cbn [List.filter].
  destruct (PyStr.eqb (br_ip r) ip); cbn [orb negb List.filter]; [exact IH|].
  destruct (existsb (PyStr.eqb (br_ip r)) ips); cbn [negb]; rewrite IH; reflexivity.
Qed.

Lemma delete_all_cons (ip : string) (ips : list string) (t : list BlockedRow) :
  delete_all (ip :: ips) t = delete_all ips (delete_blocked ip t).
Proof. apply filter_two_steps. Qed.

Section SweepComplete.

Variable w : World.
Hypothesis Hsys : system w = "linux" \/ system w = "windows".
Hypothesis Hcmd : commands_return w.
Hypothesis Hdb : db_healthy w.

Lemma unblock_ip_healthy ip s :
  in_sync s ->
  exists r s',
    unblock_ip w ip s = (Ok r, s') /\
    blocked_ips s' = blocked_ips s ∖ {[ip]} /\
    db_blocked_ips s' = delete_blocked ip (db_blocked_ips s).
Proof.
  intros I.
  destruct (decide (ip ∈ blocked_ips s)) as [Hin|Hn].
  - destruct (unblock_ip_returns_true w Hcmd ip s Hsys Hdb Hin) as (s' & Hrun).
    destruct (unblock_ip_success w ip s _ s' Hrun) as (_ & _ & Hb & Hd).
    eauto.
  - rewrite unblock_ip_not_blocked by assumption.
    do 2 eexists. split; [reflexivity|]. split.
    + apply set_eq. intros x. rewrite elem_of_difference, elem_of_singleton.
      split; [|intros [Hx _]; exact Hx].
      intros Hx. split; [exact Hx|]. intros ->. contradiction.
    + symmetry. apply delete_blocked_absent.
      destruct (rows_for ip (db_blocked_ips s)) eqn:E; [reflexivity|].
      exfalso. apply Hn. apply I. rewrite E. discriminate.
Qed.

Lemma sweep_one_healthy now ip t s :
  in_sync s ->
  exists s',
    sweep_one w now (ip, t) s = (Ok tt, s') /\ in_sync s' /\
    if t <=? now
    then blocked_ips s' = blocked_ips s ∖ {[ip]} /\
         db_blocked_ips s' = delete_blocked ip (db_blocked_ips s)
    else ledger_same s s'.
Proof.
  intros I. unfold sweep_one. rewrite try_except_run.
  destruct (t <=? now).
  - rewrite bind_run.
    destruct (unblock_ip_healthy ip s I) as (r & s1 & Hrun & Hb & Hd).
    rewrite Hrun.
    assert (I1 : in_sync s1) by exact (in_sync_delete ip s s1 Hb Hd I).
    destruct (fst r); unfold when, log, modify, ret; simpl;
      eexists; (split; [reflexivity|]); (split; [|split; assumption]).
    + intros x. apply I1.
    + exact I1.
  - unfold ret. exists s. split; [reflexivity|]. split; [exact I|apply ledger_same_refl].
Qed.

Lemma sweep_rows_healthy now rows s :
  in_sync s ->
  exists s',
    for_each (sweep_one w now) rows s = (Ok tt, s') /\ in_sync s' /\
    (forall x, x ∈ blocked_ips s' <-> x ∈ blocked_ips s /\ ~ In x (expired_ips now rows)) /\
    db_blocked_ips s' = delete_all (expired_ips now rows) (db_blocked_ips s).
Proof.
  revert s. induction rows as [|[ip t] rows IH]; intros s I.
  - exists s. unfold ret. simpl. split; [reflexivity|]. split; [exact I|].
    split; [intros x; tauto|].
    unfold delete_all. simpl. symmetry.
    induction (db_blocked_ips s) as [|r l IHl]; simpl; [reflexivity|].
    f_equal. exact IHl.
  - cbn [for_each]. rewrite bind_run.
    destruct (sweep_one_healthy now ip t s I) as (s1 & -> & I1 & Hstep).
    destruct (IH s1 I1) as (s' & Hrun & I' & Hb & Hd).
    exists s'. split; [exact Hrun|]. split; [exact I'|].
    unfold expired_ips in *. simpl.
    destruct (t <=? now); simpl.
    + destruct Hstep as [Hb1 Hd1]. split.
      * intros x. rewrite Hb, Hb1, elem_of_difference, elem_of_singleton.
        split.
        -- intros [[Hx Hne] Hnin]. split; [exact Hx|]. intros [Heq|Hin]; congruence.
        -- intros [Hx Hnin]. split; [split; [exact Hx|]|]; intros Hc; apply Hnin; auto.
      * rewrite Hd, Hd1. symmetry. apply delete_all_cons.
    + destruct Hstep as [Hb1 Hd1]. split.
      * intros x. rewrite Hb, Hb1. reflexivity.
      * rewrite Hd, Hd1. reflexivity.
Qed.

End SweepComplete.


Lemma in_expired_ips (now : Z) (t : list BlockedRow) (x : string) :
  In x (expired_ips now (select_expiring t)) <->
  exists r, In r t /\ br_ip r = x /\ expired now r = true.
Proof.
  unfold expired_ips, select_expiring, expired.
  rewrite in_map_iff. split.
  - intros ([ip u] & Hfst & Hin). simpl in Hfst. subst ip.
    apply filter_In in Hin as [Hin Hexp]. simpl in Hexp.
    apply in_flat_map in Hin as (r & Hr & Hin).
    destruct (br_auto_unblock_time r) as [u'|] eqn:E; [|contradiction].
    destruct Hin as [[= <- <-]|[]].
    exists r. rewrite E. auto.
  - intros (r & Hr & Hx & Hexp).
    destruct (br_auto_unblock_time r) as [u|] eqn:E; [|discriminate].
    exists (x, u). split; [reflexivity|].
    apply filter_In. split; [|exact Hexp].
    apply in_flat_map. exists r. split; [exact Hr|]. rewrite E, Hx. left. reflexivity.
Qed.

Lemma unique_rows_same_row (s : State) (r r' : BlockedRow) :
  unique_rows s ->
  In r (db_blocked_ips s) -> In r' (db_blocked_ips s) -> br_ip r = br_ip r' -> r = r'.
Proof.
  intros U Hr Hr' E. specialize (U (br_ip r)).
  assert (H1 : In r (rows_for (br_ip r) (db_blocked_ips s))).
  { apply filter_In. split; [exact Hr|apply eqb_refl]. }
  assert (H2 : In r' (rows_for (br_ip r) (db_blocked_ips s))).
  { apply filter_In. split; [exact Hr'|]. rewrite E. apply eqb_refl. }
  destruct (rows_for (br_ip r) (db_blocked_ips s)) as [|a [|b l]]; simpl in *.
  - contradiction.
  - destruct H1 as [<-|[]], H2 as [<-|[]]. reflexivity.
  - lia.
Qed.

Lemma delete_all_expired (now : Z) (s : State) :
  unique_rows s ->
  delete_all (expired_ips now (select_expiring (db_blocked_ips s))) (db_blocked_ips s)
  = List.filter (fun r => negb (expired now r)) (db_blocked_ips s).
Proof.
  intros U. unfold delete_all. apply filter_ext_in. intros r Hr. f_equal.
  destruct (expired now r) eqn:E.
  - apply existsb_exists. exists (br_ip r). split; [|apply eqb_refl].
    apply in_expired_ips. exists r. auto.
  - destruct (existsb _ _) eqn:Ex; [|reflexivity].
    apply existsb_exists in Ex as (x & Hx & Heq).
    apply String.eqb_eq in Heq. subst x.
    apply in_expired_ips in Hx as (r' & Hr' & Hip & Hexp).
    rewrite (unique_rows_same_row s r r' U Hr Hr' (eq_sym Hip)) in E. congruence.
Qed.

Lemma auto_unblock_expired_healthy (w : World) :
  system w = "linux" \/ system w = "windows" ->
  commands_return w ->
  db_healthy w ->
  forall s, in_sync s ->
  exists s',
    auto_unblock_expired w s = (Ok tt, s') /\ in_sync s' /\
    (forall x, x ∈ blocked_ips s' <->
               x ∈ blocked_ips s /\
               ~ In x (expired_ips (clock w (tick s)) (select_expiring (db_blocked_ips s)))) /\
    db_blocked_ips s'
    = delete_all (expired_ips (clock w (tick s)) (select_expiring (db_blocked_ips s)))
        (db_blocked_ips s).
Proof.
  intros Hsys Hcmd Hdb s I.
  assert (I0 : in_sync (set_tick S (set_tick S s))) by exact I.
  destruct (sweep_rows_healthy w Hsys Hcmd Hdb (clock w (tick s))
              (select_expiring (db_blocked_ips s))
              (set_tick S (set_tick S s)) I0)
    as (s' & Hrun & I' & Hb & Hd).
  exists s'. split; [|auto].
  unfold auto_unblock_expired, datetime_now, db_select, next_tick, try_except, bind, ret, get.
  cbn [fst snd tick set_tick]. rewrite Hdb.
  cbn [db_blocked_ips set_tick]. rewrite Hrun. reflexivity.
Qed.

(** X8: on Linux or Windows, while the removal commands do not raise and
    the database accepts its statements, one sweep over a Ledger that is in
    step and has one row per address releases exactly the expired blocks:
    the table keeps the rows that have not expired, in their order, and the
    blocked set loses the addresses of the expired rows and no other. *)
Theorem sweep_releases_expired (w : World) (s : State) :
  system w = "linux" \/ system w = "windows" ->
  commands_return w ->
  db_healthy w ->
  in_sync s ->
  unique_rows s ->
  let now := clock w (tick s) in
  let s' := snd (auto_unblock_expired w s) in
  db_blocked_ips s' = List.filter (fun r => negb (expired now r)) (db_blocked_ips s) /\
  (forall ip, ip ∈ blocked_ips s' <->
              ip ∈ blocked_ips s /\
              ~ exists r, In r (db_blocked_ips s) /\ br_ip r = ip /\ expired now r = true) /\
  in_sync s'.
Proof.
  intros Hsys Hcmd Hdb I U now s'. subst now s'.
  destruct (auto_unblock_expired_healthy w Hsys Hcmd Hdb s I) as (s' & -> & I' & Hb & Hd).
  cbn [snd]. split; [|split].
  - rewrite Hd. apply delete_all_expired. exact U.
  - intros ip. rewrite Hb, in_expired_ips. reflexivity.
  - exact I'.
Qed.

Lemma in_sync_two_expired_blocks : in_sync two_expired_blocks.
Proof.
  intros ip. unfold rows_for, two_expired_blocks, db_blocked_ips, blocked_ips, blocked_row.
  cbn [List.filter br_ip]. unfold PyStr.eqb.
  rewrite elem_of_union, !elem_of_singleton.
  destruct (String.eqb_spec "8.8.8.8" ip) as [E1|E1];
    destruct (String.eqb_spec "1.1.1.1" ip) as [E2|E2];
    (split; [intros [Hx|Hx]; first [discriminate | congruence]
            | intros Hn; first [ left; congruence | right; congruence
                               | exfalso; apply Hn; reflexivity ] ]).
Qed.

Lemma sweep_releases_expired_witness :
  db_blocked_ips (snd (auto_unblock_expired linux_noon two_expired_blocks))
  = List.filter (fun r => negb (expired (clock linux_noon (tick two_expired_blocks)) r))
      (db_blocked_ips two_expired_blocks).
Proof.
  apply (sweep_releases_expired linux_noon two_expired_blocks).
  - left. reflexivity.
  - intros t c. eexists. reflexivity.
  - intros t. reflexivity.
  - exact in_sync_two_expired_blocks.
  - exact unique_rows_two_expired_blocks.
Defined.

(** ** The two kinds of operation keep to their own records *)

Section CallsOnly.

Variable P : Event -> bool.

Lemma calls_only_refl s : calls_only P s s.
Proof. exists []. split; [symmetry; apply app_nil_r|reflexivity]. Qed.

Lemma calls_only_trans s1 s2 s3 :
  calls_only P s1 s2 -> calls_only P s2 s3 -> calls_only P s1 s3.
Proof.
  intros (e1 & H1 & F1) (e2 & H2 & F2). exists (e1 ++ e2)%list.
  split; [rewrite H2, H1, app_assoc; reflexivity|].
  rewrite forallb_app, F1, F2. reflexivity.
Qed.

Lemma keeps_calls_only {A} (m : M A) : keeps trace m -> steps (calls_only P) m.
Proof.
  intros K s. exists []. rewrite K. split; [symmetry; apply app_nil_r|reflexivity].
Qed.

Lemma emit_calls_only e : P e = true -> steps (calls_only P) (emit e).
Proof. intros H s. exists [e]. simpl. rewrite H. auto. Qed.

End CallsOnly.

Ltac calls_step :=
  first
    [ solve [trivial]
    | apply steps_ret; apply calls_only_refl
    | apply steps_bind; [apply calls_only_trans| |intro]
    | apply steps_try_except; [apply calls_only_trans| |intro]
    | apply steps_when; [apply calls_only_refl|]
    | match goal with
      | |- steps _ (if ?b then _ else _) => destruct b
      | |- steps _ (match ?x with _ => _ end) => destruct x
      end
    | apply keeps_calls_only; solve [keeps_engine] ].

Ltac calls_engine := repeat calls_step.

Section Separation.

Context {lib : IpAddressLib}.
Variable w : World.
Variable config : Config.
Variable P : Event -> bool.

Lemma psutil_calls_only c : P (EvPs c) = true -> steps (calls_only P) (psutil w c).
Proof.
  intros H. unfold psutil. pose proof (emit_calls_only P (EvPs c) H). calls_engine.
Qed.

Lemma subprocess_run_calls_only c :
  P (EvRun c) = true -> steps (calls_only P) (subprocess_run w c).
Proof.
  intros H. unfold subprocess_run. pose proof (emit_calls_only P (EvRun c) H). calls_engine.
Qed.

Lemma os_call_calls_only c : P (EvFs c) = true -> steps (calls_only P) (os_call w c).
Proof.
  intros H. unfold os_call. pose proof (emit_calls_only P (EvFs c) H). calls_engine.
Qed.

Lemma log_response_calls_only a t r b : steps (calls_only P) (log_response w a t r b).
Proof.
  apply keeps_calls_only. apply keeps_log_response; intros; reflexivity.
Qed.

Section ProcessCalls.

Hypothesis HP : forall c, P (EvPs c) = true.

Lemma psutil_Process_calls_only p : steps (calls_only P) (psutil_Process w p).
Proof.
  unfold psutil_Process. pose proof (fun c => psutil_calls_only c (HP c)). calls_engine.
Qed.

Lemma terminate_process_calls_only pid reason :
  steps (calls_only P) (terminate_process w config pid reason).
Proof.
  unfold terminate_process.
  pose proof (fun c => psutil_calls_only c (HP c)).
  pose proof psutil_Process_calls_only. pose proof log_response_calls_only.
  calls_engine.
Qed.

Lemma suspend_process_calls_only pid reason :
  steps (calls_only P) (suspend_process w config pid reason).
Proof.
  unfold suspend_process.
  pose proof (fun c => psutil_calls_only c (HP c)).
  pose proof psutil_Process_calls_only. pose proof log_response_calls_only.
  calls_engine.
Qed.

Lemma resume_process_calls_only pid : steps (calls_only P) (resume_process w pid).
Proof.
  unfold resume_process.
  pose proof (fun c => psutil_calls_only c (HP c)).
  pose proof psutil_Process_calls_only. pose proof log_response_calls_only.
  calls_engine.
Qed.

End ProcessCalls.

Section AddressCalls.

Hypothesis HR : forall c, P (EvRun c) = true.
Hypothesis HF : forall c, P (EvFs c) = true.

Lemma install_rules_calls_only ip : steps (calls_only P) (install_rules w ip).
Proof.
  unfold install_rules.
  pose proof (fun c => subprocess_run_calls_only c (HR c)).
  pose proof (fun c => os_call_calls_only c (HF c)).
  calls_engine.
Qed.

Lemma remove_rules_calls_only ip : steps (calls_only P) (remove_rules w ip).
Proof.
  unfold remove_rules.
  pose proof (fun c => subprocess_run_calls_only c (HR c)).
  pose proof (fun c => os_call_calls_only c (HF c)).
  calls_engine.
Qed.

Lemma block_ip_calls_only ip reason d :
  steps (calls_only P) (block_ip w config ip reason d).
Proof.
  unfold block_ip, plus_timedelta_hours.
  pose proof install_rules_calls_only. pose proof log_response_calls_only.
  calls_engine.
Qed.

Lemma unblock_ip_calls_only ip : steps (calls_only P) (unblock_ip w ip).
Proof.
  unfold unblock_ip.
  pose proof remove_rules_calls_only. pose proof log_response_calls_only.
  calls_engine.
Qed.

Lemma auto_unblock_expired_calls_only : steps (calls_only P) (auto_unblock_expired w).
Proof.
  unfold auto_unblock_expired.
  pose proof unblock_ip_calls_only as U.
  apply steps_try_except; [apply calls_only_trans| |intro; calls_engine].
  apply steps_bind; [apply calls_only_trans|calls_engine|intro now].
  apply steps_bind; [apply calls_only_trans|calls_engine|intro rows].
  apply steps_for_each; [apply calls_only_refl|apply calls_only_trans|].
  intros [ip t]. unfold sweep_one. calls_engine.
Qed.

End AddressCalls.

End Separation.

Lemma keeps_for_each {A C} (proj : State -> C) (body : A -> M unit) (l : list A) :
  (forall x, keeps proj (body x)) -> keeps proj (for_each body l).
Proof.
  intros Hb. induction l as [|x r IH]; simpl.
  - apply keeps_ret.
  - apply keeps_bind; [apply Hb|intros _; exact IH].
Qed.

Lemma keeps_auto_unblock_expired {C} (w : World) (proj : State -> C) :
  (forall f s, proj (set_tick f s) = proj s) ->
  (forall f s, proj (set_logger f s) = proj s) ->
  (forall ip, keeps proj (unblock_ip w ip)) ->
  keeps proj (auto_unblock_expired w).
Proof.
  intros Ht Hl Hu. unfold auto_unblock_expired.
  apply keeps_try_except; [|intro; keeps_using].
  apply keeps_bind; [keeps_using|intro now].
  apply keeps_bind; [keeps_using|intro rows].
  apply keeps_for_each. intros [ip t]. unfold sweep_one. keeps_using.
Qed.

(** X9: the process operations keep to processes.  Whatever the system
    answers, [terminate_process], [suspend_process] and [resume_process]
    leave the blocked set and the [blocked_ips] table as they were, and the
    only calls they make are psutil calls: no firewall command is run and no
    rule file is touched. *)
Theorem process_operations_leave_addresses `{IpAddressLib} (w : World) (config : Config)
    (pid : option Z) (p : Z) (reason : string) (s : State) :
  Forall (fun s' => ledger_same s s' /\ calls_only is_ps s s')
    [ snd (terminate_process w config pid reason s);
      snd (suspend_process w config pid reason s);
      snd (resume_process w p s) ].
Proof.
  repeat constructor.
  - apply keeps_terminate_process; intros; reflexivity.
  - apply keeps_terminate_process; intros; reflexivity.
  - apply terminate_process_calls_only. reflexivity.
  - apply keeps_suspend_process; intros; reflexivity.
  - apply keeps_suspend_process; intros; reflexivity.
  - apply suspend_process_calls_only. reflexivity.
  - unfold resume_process.
    pose proof (keeps_log_response w blocked_ips ltac:(reflexivity) ltac:(reflexivity)
                  ltac:(reflexivity) ltac:(reflexivity)).
    keeps_using.
  - unfold resume_process.
    pose proof (keeps_log_response w db_blocked_ips ltac:(reflexivity) ltac:(reflexivity)
                  ltac:(reflexivity) ltac:(reflexivity)).
    keeps_using.
  - apply resume_process_calls_only. reflexivity.
Qed.

(** X10: the address operations keep to addresses.  Whatever the system
    answers, [block_ip], [unblock_ip] and the expiry sweep leave the
    suspended set and the [suspended_processes] table as they were, and they
    make no psutil call: the only calls are firewall commands and rule-file
    accesses. *)
Theorem address_operations_leave_processes `{IpAddressLib} (w : World) (config : Config)
    (ip reason : string) (d : Z) (s : State) :
  Forall (fun s' => processes_same s s' /\ calls_only (fun e => negb (is_ps e)) s s')
    [ snd (block_ip w config ip reason d s);
      snd (unblock_ip w ip s);
      snd (auto_unblock_expired w s) ].
Proof.
  repeat constructor.
  - apply keeps_block_ip; intros; reflexivity.
  - apply keeps_block_ip; intros; reflexivity.
  - apply block_ip_calls_only; reflexivity.
  - apply keeps_unblock_ip; intros; reflexivity.
  - apply keeps_unblock_ip; intros; reflexivity.
  - apply unblock_ip_calls_only; reflexivity.
  - apply keeps_auto_unblock_expired; try (intros; reflexivity).
    intro. apply keeps_unblock_ip; intros; reflexivity.
  - apply keeps_auto_unblock_expired; try (intros; reflexivity).
    intro. apply keeps_unblock_ip; intros; reflexivity.
  - apply auto_unblock_expired_calls_only; reflexivity.
Qed.

(** ** Termination *)

(** X11: [terminate_process] makes at most six psutil calls, in a fixed
    order: open, name, terminate, wait five seconds, kill, wait three
    seconds.  [terminate] is reached only for a named process that is not
    whitelisted, and [kill] only after the five-second wait raised
    [TimeoutExpired]: any other failure of the wait ends the operation
    without a kill. *)
Theorem terminate_process_calls `{IpAddressLib} (w : World) (config : Config)
    (pid : Z) (reason : string) (s : State) :
  let s' := snd (terminate_process w config (Some pid) reason s) in
  exists evs,
    trace s' = (trace s ++ evs)%list /\
    evs `prefix_of` terminate_calls pid /\
    (In (EvPs (PsTerminate pid)) evs ->
       exists name, ps w (1 + tick s)%nat (PsName pid) = Ok name /\
                    is_whitelisted_process config (Some name) (Some pid) = false) /\
    (In (EvPs (PsKill pid)) evs ->
       ps w (3 + tick s)%nat (PsWait pid 5) = Raise TimeoutExpired).
Proof.
  unfold terminate_process, terminate_calls.
  destruct (pid =? 0).
  { exists []. simpl. rewrite app_nil_r. repeat split; try contradiction.
    eexists; reflexivity. }
  unfold psutil_Process, psutil, log, next_tick, emit, try_except, bind, ret, modify,
    of_res, raise.
  cbn -[is_whitelisted_process log_response].
  repeat ps_oracle w;
    repeat match goal with T : trace _ = _ |- _ => rewrite T; clear T end;
    cbn -[is_whitelisted_process log_response];
    rewrite <- ?app_assoc; cbn [app];
    (eexists; split; [try (symmetry; apply app_nil_r); reflexivity|]);
    (split; [eexists; reflexivity|]);
    (split; intros Hin; simpl in Hin; try contradiction;
       try solve [eexists; split; [reflexivity|assumption] | reflexivity];
       repeat (destruct Hin as [Hin|Hin]; try discriminate Hin; try contradiction)).
Qed.

(** ** Suspension *)

(** X12: [suspend_process] makes at most three psutil calls (open, name,
    suspend) and [resume_process] at most four (open, resume, name, name), in
    that order.  [suspend] is reached only for a named process that is not
    whitelisted and not already in the suspended set, and [resume_process]
    makes no call at all for a pid outside the suspended set. *)
Theorem suspension_calls `{IpAddressLib} (w : World) (config : Config)
    (pid : Z) (reason : string) (s : State) :
  (let s' := snd (suspend_process w config (Some pid) reason s) in
   exists evs,
     trace s' = (trace s ++ evs)%list /\
     evs `prefix_of` suspend_calls pid /\
     (In (EvPs (PsSuspend pid)) evs ->
        (pid ∉ suspended_processes s) /\
        exists name, ps w (1 + tick s)%nat (PsName pid) = Ok name /\
                     is_whitelisted_process config (Some name) (Some pid) = false)) /\
  (let s' := snd (resume_process w pid s) in
   exists evs,
     trace s' = (trace s ++ evs)%list /\
     evs `prefix_of` resume_calls pid /\
     (evs <> [] -> pid ∈ suspended_processes s)).
Proof.
  split.
  - unfold suspend_process, suspend_calls.
    destruct (pid =? 0).
    { exists []. simpl. rewrite app_nil_r. repeat split; try contradiction.
      eexists; reflexivity. }
    unfold psutil_Process, psutil, datetime_now, db_commit, db_execute, log, next_tick,
      emit, try_except, bind, ret, modify, get, of_res, raise.
    cbn -[is_whitelisted_process log_response].
    repeat ps_oracle w;
      repeat match goal with T : trace _ = _ |- _ => rewrite T; clear T end;
      cbn -[is_whitelisted_process log_response];
      rewrite <- ?app_assoc; cbn [app];
      (eexists; split; [try (symmetry; apply app_nil_r); reflexivity|]);
      (split; [eexists; reflexivity|]);
      intros Hin; simpl in Hin; try contradiction;
      try solve [ split; [eapply bool_decide_eq_false_1; eassumption
                         |eexists; split; [reflexivity|assumption]] ];
      repeat (destruct Hin as [Hin|Hin]; try discriminate Hin; try contradiction).
  - unfold resume_process, resume_calls.
    unfold psutil_Process, psutil, datetime_now, db_commit, db_execute, log, next_tick,
      emit, try_except, bind, ret, modify, get, of_res, raise.
    cbn -[log_response].
    destruct (bool_decide (pid ∈ suspended_processes s)) eqn:B.
    2:{ exists []. simpl. rewrite app_nil_r. repeat split; try congruence.
        eexists; reflexivity. }
    apply bool_decide_eq_true in B.
    cbn -[log_response].
    repeat ps_oracle w;
      repeat match goal with T : trace _ = _ |- _ => rewrite T; clear T end;
      cbn -[log_response];
      rewrite <- ?app_assoc; cbn [app];
      (eexists; split; [try (symmetry; apply app_nil_r); reflexivity|]);
      (split; [eexists; reflexivity|]); intros _; exact B.
Qed.

Lemma rows_of_insert (row : SuspendedRow) (t : list SuspendedRow) :
  rows_of (sr_pid row) (insert_or_replace_suspended row t) = [row].
Proof.
  unfold rows_of, insert_or_replace_suspended.
  rewrite List.filter_app. simpl. rewrite Z.eqb_refl.
  replace (List.filter _ (List.filter _ t)) with (@nil SuspendedRow); [reflexivity|].
  symmetry. induction t as [|r t IH]; simpl; [reflexivity|].
  destruct (sr_pid r =? sr_pid row) eqn:E; simpl; [assumption|].
  rewrite E. assumption.
Qed.

Lemma delete_suspended_insert (row : SuspendedRow) (t : list SuspendedRow) :
  delete_suspended (sr_pid row) (insert_or_replace_suspended row t)
  = delete_suspended (sr_pid row) t.
Proof.
  unfold delete_suspended, insert_or_replace_suspended.
  rewrite List.filter_app. simpl. rewrite Z.eqb_refl. simpl. rewrite app_nil_r.
  induction t as [|r t IH]; simpl; [reflexivity|].
  destruct (sr_pid r =? sr_pid row) eqn:E; simpl; [assumption|].
  rewrite E. simpl. rewrite IH. reflexivity.
Qed.

Lemma delete_suspended_absent (pid : Z) (t : list SuspendedRow) :
  rows_of pid t = [] -> delete_suspended pid t = t.
Proof.
  unfold rows_of, delete_suspended. induction t as [|r t IH]; simpl; [reflexivity|].
  destruct (sr_pid r =? pid); simpl; [discriminate|]. intros H. rewrite IH; auto.
Qed.

Lemma rows_of_delete_same (pid : Z) (t : list SuspendedRow) :
  rows_of pid (delete_suspended pid t) = [].
Proof.
  unfold rows_of, delete_suspended.
  induction t as [|r l IH]; simpl; [reflexivity|].
  destruct (sr_pid r =? pid) eqn:E; simpl; [exact IH|]. rewrite E. exact IH.
Qed.

Section SuspendFacts.

Context {lib : IpAddressLib}.
Variable w : World.
Variable config : Config.

(** [log_response] returns, and leaves the suspension records alone. *)
Lemma log_response_processes a t r b s :
  exists s', log_response w a t r b s = (Ok tt, s') /\ processes_same s s' /\
             trace s' = trace s.
Proof.
  destruct (run_never_raises (log_response w a t r b) s (never_raises_log_response w a t r b))
    as ([] & s' & E).
  exists s'. split; [exact E|].
  pose proof (keeps_log_response w suspended_processes ltac:(reflexivity) ltac:(reflexivity)
                ltac:(reflexivity) ltac:(reflexivity) a t r b s) as K1.
  pose proof (keeps_log_response w db_suspended_processes ltac:(reflexivity)
                ltac:(reflexivity) ltac:(reflexivity) ltac:(reflexivity) a t r b s) as K2.
  pose proof (keeps_log_response w trace ltac:(reflexivity) ltac:(reflexivity)
                ltac:(reflexivity) ltac:(reflexivity) a t r b s) as K3.
  rewrite E in K1, K2, K3. split; [split|]; assumption.
Qed.

Lemma suspend_process_cases pid reason s :
  suspend_outcome config pid reason s (suspend_process w config pid reason s).
Proof.
  unfold suspend_process, suspend_outcome.
  destruct pid as [pid|]; [|split; reflexivity].
  destruct (pid =? 0) eqn:Hz; [split; reflexivity|].
  unfold psutil_Process, psutil, datetime_now, db_commit, db_execute, log, next_tick,
    emit, try_except, bind, ret, modify, get, of_res, raise.
  destruct (pid <? 0) eqn:Hneg; cbn -[is_whitelisted_process log_response].
  { destruct (log_response_processes "suspend_process" (pid_target pid) reason false s)
      as (s1 & -> & _). exact I. }
  repeat match goal with
    | |- context [match ps w ?t ?c with _ => _ end] =>
        let E := fresh "E" in
        destruct (ps w t c) as [?|[]] eqn:E; cbn -[is_whitelisted_process log_response]
    | |- context [log_response w ?a ?t ?r ?b ?s] =>
        let s' := fresh "s" in let E := fresh "E" in let T := fresh "T" in
        destruct (log_response_processes a t r b s) as (s' & E & T);
        rewrite E; cbn -[is_whitelisted_process log_response]
    | |- context [if ?b then _ else _] =>
        lazymatch b with
        | context [if _ then _ else _] => fail
        | _ => let E := fresh "E" in
               destruct b eqn:E; cbn -[is_whitelisted_process log_response]
        end
    end;
    try exact I; try (split; reflexivity).
  destruct T as [[T1 T2] T3]. simpl in T1, T2, T3.
  do 3 eexists. split; [reflexivity|]. split; [reflexivity|].
  split; [lia|]. split; [assumption|].
  split; [eapply bool_decide_eq_false_1; eassumption|].
  split; [exact T1|]. split; [exact T2|].
  rewrite T3, <- !app_assoc. reflexivity.
Qed.

End SuspendFacts.

(** X13: what a suspension records.  When [suspend_process] reports
    success, the process was named, not whitelisted and not yet suspended;
    its pid has joined the suspended set and the table holds the new row
    for it, replacing any older row of that pid.  When it reports a refusal
    (no pid, whitelisted, already suspended, not found, access denied), the
    set and the table are as they were. *)
Theorem suspend_process_records `{IpAddressLib} (w : World) (config : Config)
    (pid : option Z) (reason : string) (s s' : State) (ok : bool) (m : Msg) :
  suspend_process w config pid reason s = (Ok (ok, m), s') ->
  if ok then
    exists p name t,
      pid = Some p /\ m = Suspended name p /\
      is_whitelisted_process config (Some name) (Some p) = false /\
      (p ∉ suspended_processes s) /\
      suspended_processes s' = suspended_processes s ∪ {[p]} /\
      db_suspended_processes s'
      = insert_or_replace_suspended
          {| sr_pid := p; sr_name := name; sr_reason := reason; sr_timestamp := t |}
          (db_suspended_processes s) /\
      rows_of p (db_suspended_processes s')
      = [ {| sr_pid := p; sr_name := name; sr_reason := reason; sr_timestamp := t |} ]
  else
    (forall what p e, m <> ErrorOn what p e) -> processes_same s s'.
Proof.
  intros Hrun. pose proof (suspend_process_cases w config pid reason s) as C.
  rewrite Hrun in C. unfold suspend_outcome in C. destruct ok.
  - destruct C as (p & name & t & -> & -> & _ & Hw & Hn & Hs & Hd & _).
    exists p, name, t. repeat (split; [assumption || reflexivity|]).
    rewrite Hd.
    exact (rows_of_insert
             {| sr_pid := p; sr_name := name; sr_reason := reason; sr_timestamp := t |} _).
  - intros Hm. destruct m; try exact C. exfalso. eapply Hm. reflexivity.
Qed.

Lemma suspend_process_records_witness :
  exists p name t,
    Some 4242 = Some p /\
    rows_of p (db_suspended_processes
                 (snd (suspend_process linux_ok default_engine_config (Some 4242) "probe"
                         empty_state)))
    = [ {| sr_pid := p; sr_name := name; sr_reason := "probe"; sr_timestamp := t |} ].
Proof.
  destruct (suspend_process_records linux_ok default_engine_config (Some 4242) "probe"
              empty_state _ true _ ltac:(vm_compute; reflexivity))
    as (p & name & t & Hp & _ & _ & _ & _ & _ & Hr).
  exists p, name, t. split; [exact Hp|exact Hr].
Defined.

Section ResumeFacts.

Variable w : World.
Hypothesis Hps : ps_answers w.
Hypothesis Hdb : db_healthy w.

Lemma resume_process_healthy p s :
  0 <= p ->
  p ∈ suspended_processes s ->
  exists s2,
    resume_process w p s = (Ok (true, Resumed p), s2) /\
    suspended_processes s2 = suspended_processes s ∖ {[p]} /\
    db_suspended_processes s2 = delete_suspended p (db_suspended_processes s) /\
    trace s2 = (trace s ++ resume_calls p)%list.
Proof.
  intros Hp Hin. unfold resume_process.
  unfold psutil_Process, psutil, datetime_now, db_commit, db_execute, log, next_tick,
    emit, try_except, bind, ret, modify, get, of_res, raise.
  cbn -[log_response].
  rewrite (bool_decide_eq_true_2 _ Hin). cbn -[log_response].
  replace (p <? 0) with false by lia. cbn -[log_response].
  repeat match goal with
    | |- context [match ps w ?t ?c with _ => _ end] =>
        let a := fresh "a" in let E := fresh "E" in
        destruct (Hps t c) as [a E]; rewrite E; cbn -[log_response]
    | |- context [db_ok w ?t] => rewrite (Hdb t); cbn -[log_response]
    | |- context [log_response w ?a ?t ?r ?b ?s] =>
        let s' := fresh "s" in let E := fresh "E" in let T := fresh "T" in
        destruct (log_response_processes w a t r b s) as (s' & E & T);
        rewrite E; cbn -[log_response]
    end.
  destruct T as [[T1 T2] T3]. simpl in T1, T2, T3.
  eexists. split; [reflexivity|].
  split; [exact T1|]. split; [exact T2|].
  rewrite T3, <- !app_assoc. reflexivity.
Qed.

End ResumeFacts.

(** X14: while psutil answers its calls and the database accepts its
    statements, a successful [suspend_process] followed by [resume_process]
    of the same pid succeeds and leaves no record of the pid: the suspended
    set is what it was before the suspension, the table has no row for the
    pid, and psutil saw the three calls of the suspension followed by the
    four of the resumption. *)
Theorem suspend_then_resume `{IpAddressLib} (w : World) (config : Config)
    (p : Z) (reason : string) (s s1 : State) (m : Msg) :
  ps_answers w ->
  db_healthy w ->
  suspend_process w config (Some p) reason s = (Ok (true, m), s1) ->
  exists s2,
    resume_process w p s1 = (Ok (true, Resumed p), s2) /\
    suspended_processes s2 = suspended_processes s /\
    db_suspended_processes s2 = delete_suspended p (db_suspended_processes s) /\
    rows_of p (db_suspended_processes s2) = [] /\
    trace s2 = (trace s ++ suspend_calls p ++ resume_calls p)%list.
Proof.
  intros Hps Hdb Hrun.
  pose proof (suspend_process_cases w config (Some p) reason s) as C.
  rewrite Hrun in C.
  destruct C as (p' & name & t & [= <-] & _ & Hpos & _ & Hn & Hs & Hd & Ht).
  assert (Hin : p ∈ suspended_processes s1).
  { rewrite Hs. apply elem_of_union_r, elem_of_singleton. reflexivity. }
  destruct (resume_process_healthy w Hps Hdb p s1 ltac:(lia) Hin)
    as (s2 & Hr & Hs2 & Hd2 & Ht2).
  exists s2. split; [exact Hr|]. split; [|split; [|split]].
  - rewrite Hs2, Hs. apply set_eq. intros x.
    rewrite elem_of_difference, elem_of_union, elem_of_singleton.
    split; [intros [[Hx|Hx] Hne]; [assumption|contradiction]|].
    intros Hx. split; [left; assumption|]. intros ->. contradiction.
  - rewrite Hd2, Hd.
    exact (delete_suspended_insert
             {| sr_pid := p; sr_name := name; sr_reason := reason; sr_timestamp := t |} _).
  - rewrite Hd2. apply rows_of_delete_same.
  - rewrite Ht2, Ht, <- app_assoc. reflexivity.
Qed.

Lemma suspend_then_resume_witness :
  exists s2,
    resume_process linux_ok 4242
      (snd (suspend_process linux_ok default_engine_config (Some 4242) "probe" empty_state))
    = (Ok (true, Resumed 4242), s2) /\
    suspended_processes s2 = suspended_processes empty_state.
Proof.
  destruct (suspend_then_resume linux_ok default_engine_config 4242 "probe" empty_state
              _ _ ltac:(intros t c; eexists; reflexivity) ltac:(intros t; reflexivity)
              ltac:(vm_compute; reflexivity))
    as (s2 & Hr & Hs & _).
  exists s2. split; [exact Hr|exact Hs].
Defined.

(** ** The audit store, whatever fails *)

Section AuditAlways.

Context {lib : IpAddressLib}.
Variable w : World.
Variable config : Config.

(** [log_response] returns; the table gains the row or, when the database
    rejects the statement, stays as it was. *)
Lemma log_response_row a t r b s :
  exists s', log_response w a t r b s = (Ok tt, s') /\
    (db_response_log s' = db_response_log s \/
     db_response_log s'
     = (db_response_log s ++ [audit_entry a t r (clock w (tick s)) b])%list).
Proof.
  unfold log_response, datetime_now, db_commit, db_execute, next_tick, try_except,
    bind, ret, modify, get, when, log, raise.
  simpl.
  destruct (db_ok w (S (tick s))); simpl.
  - destruct (db_ok w (S (S (tick s)))); simpl.
    + destruct (_ <? _)%nat; simpl; eexists; (split; [reflexivity|]); right; reflexivity.
    + eexists; (split; [reflexivity|]); right; reflexivity.
  - eexists. split; [reflexivity|]. left. reflexivity.
Qed.

Ltac audit_run :=
  unfold psutil_Process, psutil, subprocess_run, os_call, datetime_now, db_commit,
    db_execute, log, next_tick, emit, try_except, bind, ret, modify, get, of_res,
    raise, when, audit_steps;
  cbn -[is_whitelisted_process is_whitelisted_ip log_response];
  repeat match goal with
    | |- context [match ps w ?t ?c with _ => _ end] =>
        let E := fresh "E" in
        destruct (ps w t c) as [?|[]] eqn:E;
        cbn -[is_whitelisted_process is_whitelisted_ip log_response]
    | |- context [match run w ?t ?c with _ => _ end] =>
        let E := fresh "E" in
        destruct (run w t c) as [?|?] eqn:E;
        cbn -[is_whitelisted_process is_whitelisted_ip log_response]
    | |- context [match fs w ?t ?c with _ => _ end] =>
        let E := fresh "E" in
        destruct (fs w t c) as [?|?] eqn:E;
        cbn -[is_whitelisted_process is_whitelisted_ip log_response]
    | |- context [log_response w ?a ?t ?r ?b ?s] =>
        let s' := fresh "s" in let E := fresh "E" in let T := fresh "T" in
        destruct (log_response_row a t r b s) as (s' & E & T);
        rewrite E; cbn -[is_whitelisted_process is_whitelisted_ip log_response]
    | |- context [if ?b then _ else _] =>
        lazymatch b with
        | context [if _ then _ else _] => fail
        | _ => let E := fresh "E" in
               destruct b eqn:E;
               cbn -[is_whitelisted_process is_whitelisted_ip log_response]
        end
    end;
  try solve [ left; reflexivity ];
  try match goal with
      | T : _ \/ _ |- _ =>
          simpl in T; destruct T as [T|T];
          [left; exact T | right; do 3 eexists; exact T]
      end.

Lemma terminate_process_audit_steps pid reason s :
  audit_steps "terminate_process" (terminate_process w config pid reason s) s.
Proof.
  unfold terminate_process.
  destruct pid as [pid|]; [|left; reflexivity].
  destruct (pid =? 0); [left; reflexivity|].
  audit_run.
Qed.

Lemma suspend_process_audit_steps pid reason s :
  audit_steps "suspend_process" (suspend_process w config pid reason s) s.
Proof.
  unfold suspend_process.
  destruct pid as [pid|]; [|left; reflexivity].
  destruct (pid =? 0); [left; reflexivity|].
  audit_run.
Qed.

Lemma resume_process_audit_steps pid s :
  audit_steps "resume_process" (resume_process w pid s) s.
Proof. unfold resume_process. audit_run. Qed.

Lemma block_ip_audit_steps ip reason d s :
  audit_steps "block_ip" (block_ip w config ip reason d s) s.
Proof. unfold block_ip, plus_timedelta_hours, install_rules. audit_run. Qed.

Lemma unblock_ip_audit_steps ip s :
  audit_steps "unblock_ip" (unblock_ip w ip s) s.
Proof. unfold unblock_ip, remove_rules. audit_run. Qed.

End AuditAlways.

(** X15: the audit trail whatever fails.  On every host, whatever psutil,
    the firewall commands and the database answer, each of the five
    operations returns and either leaves the [response_log] table as it
    was or appends exactly one row to it; that row carries the operation's
    own name and the success flag the operation returns.  No operation
    rewrites or removes an earlier row. *)
Theorem audit_trail_append_only `{IpAddressLib} (w : World) (config : Config) (s : State) :
  (forall ip reason d, audit_steps "block_ip" (block_ip w config ip reason d s) s) /\
  (forall ip, audit_steps "unblock_ip" (unblock_ip w ip s) s) /\
  (forall pid reason,
      audit_steps "suspend_process" (suspend_process w config pid reason s) s) /\
  (forall pid, audit_steps "resume_process" (resume_process w pid s) s) /\
  (forall pid reason,
      audit_steps "terminate_process" (terminate_process w config pid reason s) s).
Proof.
  split; [intros; apply block_ip_audit_steps|].
  split; [intros; apply unblock_ip_audit_steps|].
  split; [intros; apply suspend_process_audit_steps|].
  split; [intros; apply resume_process_audit_steps|].
  intros; apply terminate_process_audit_steps.
Qed.

Section Bounded.

Context {lib : IpAddressLib}.
Variable w : World.
Variable config : Config.

Lemma bounded_refl s : bound_kept s s.
Proof. intros B. exact B. Qed.

Lemma bounded_trans s1 s2 s3 : bound_kept s1 s2 -> bound_kept s2 s3 -> bound_kept s1 s3.
Proof. unfold bound_kept. auto. Qed.

Lemma keeps_bounded {A} (m : M A) : keeps audit_log m -> steps bound_kept m.
Proof. intros K s B. unfold audit_log_bounded. rewrite K. exact B. Qed.

Lemma last_n_length {A} (n : nat) (l : list A) : (length (last_n n l) <= n)%nat.
Proof. unfold last_n. rewrite length_skipn. lia. Qed.

Lemma log_response_bounded a t r b : steps bound_kept (log_response w a t r b).
Proof.
  intros s B. unfold audit_log_bounded in *.
  unfold log_response, datetime_now, db_commit, db_execute, next_tick, try_except,
    bind, ret, modify, get, when, log, raise.
  simpl.
  destruct (db_ok w (S (tick s))); simpl; [|exact B].
  destruct (db_ok w (S (S (tick s)))); simpl; [|exact B].
  destruct (1000 <? _)%nat eqn:E; simpl.
  - apply last_n_length.
  - apply Nat.ltb_ge in E. exact E.
Qed.

Ltac bounded_step :=
  first
    [ solve [trivial]
    | apply log_response_bounded
    | apply steps_ret; apply bounded_refl
    | apply steps_bind; [apply bounded_trans| |intro]
    | apply steps_try_except; [apply bounded_trans| |intro]
    | apply steps_when; [apply bounded_refl|]
    | match goal with
      | |- steps _ (if ?b then _ else _) => destruct b
      | |- steps _ (match ?x with _ => _ end) => destruct x
      end
    | apply keeps_bounded; solve [keeps_engine] ].

Ltac bounded := repeat bounded_step.

Lemma terminate_process_bounded pid reason :
  steps bound_kept (terminate_process w config pid reason).
Proof. unfold terminate_process. bounded. Qed.

Lemma suspend_process_bounded pid reason :
  steps bound_kept (suspend_process w config pid reason).
Proof. unfold suspend_process. bounded. Qed.

Lemma resume_process_bounded pid : steps bound_kept (resume_process w pid).
Proof. unfold resume_process. bounded. Qed.

Lemma block_ip_bounded ip reason d : steps bound_kept (block_ip w config ip reason d).
Proof. unfold block_ip, plus_timedelta_hours. bounded. Qed.

Lemma unblock_ip_bounded ip : steps bound_kept (unblock_ip w ip).
Proof. unfold unblock_ip. bounded. Qed.

Lemma auto_unblock_expired_bounded : steps bound_kept (auto_unblock_expired w).
Proof.
  unfold auto_unblock_expired.
  pose proof unblock_ip_bounded as U.
  apply steps_try_except; [apply bounded_trans| |intro; bounded].
  apply steps_bind; [apply bounded_trans|bounded|intro now].
  apply steps_bind; [apply bounded_trans|bounded|intro rows].
  apply steps_for_each; [apply bounded_refl|apply bounded_trans|].
  intros [ip t]. unfold sweep_one. bounded.
Qed.

Lemma handle_suspicious_connection_bounded c :
  steps bound_kept (handle_suspicious_connection w config c).
Proof.
  pose proof terminate_process_bounded. pose proof suspend_process_bounded.
  pose proof block_ip_bounded.
  unfold handle_suspicious_connection, prompt_manual_response, check_auto_block_limits.
  bounded.
Qed.

Lemma steps_bounded {A} (m : M A) s :
  steps bound_kept m -> audit_log_bounded s -> audit_log_bounded (snd (m s)).
Proof. intros Hm. apply Hm. Qed.

End Bounded.

(** X16: the in-memory audit log never outgrows its bound.  If it holds at
    most 1000 entries, it still does after any of the five operations, after
    a sweep, and after the handling of a connection, whatever fails on the
    way. *)
Theorem audit_log_stays_bounded `{IpAddressLib} (w : World) (config : Config) (s : State) :
  audit_log_bounded s ->
  (forall ip reason d, audit_log_bounded (snd (block_ip w config ip reason d s))) /\
  (forall ip, audit_log_bounded (snd (unblock_ip w ip s))) /\
  (forall pid reason, audit_log_bounded (snd (suspend_process w config pid reason s))) /\
  (forall pid, audit_log_bounded (snd (resume_process w pid s))) /\
  (forall pid reason, audit_log_bounded (snd (terminate_process w config pid reason s))) /\
  audit_log_bounded (snd (auto_unblock_expired w s)) /\
  (forall c, audit_log_bounded (snd (handle_suspicious_connection w config c s))).
Proof.
  intros B.
  split; [intros; apply steps_bounded; [apply block_ip_bounded|exact B]|].
  split; [intros; apply steps_bounded; [apply unblock_ip_bounded|exact B]|].
  split; [intros; apply steps_bounded; [apply suspend_process_bounded|exact B]|].
  split; [intros; apply steps_bounded; [apply resume_process_bounded|exact B]|].
  split; [intros; apply steps_bounded; [apply terminate_process_bounded|exact B]|].
  split; [apply steps_bounded; [apply auto_unblock_expired_bounded|exact B]|].
  intros; apply steps_bounded; [apply handle_suspicious_connection_bounded|exact B].
Qed.

Lemma audit_log_stays_bounded_witness :
  audit_log_bounded
    (snd (block_ip linux_ok default_engine_config "8.8.8.8" "probe" 24 empty_state)).
Proof.
  refine (proj1 (audit_log_stays_bounded linux_ok default_engine_config empty_state _)
            "8.8.8.8" "probe" 24).
  unfold audit_log_bounded. simpl. lia.
Defined.

(** ** What handling one connection can reach *)

Lemma rows_of_delete_other (p p' : Z) (t : list SuspendedRow) :
  p <> p' -> rows_of p' (delete_suspended p t) = rows_of p' t.
Proof.
  intros Hne. unfold rows_of, delete_suspended.
  induction t as [|r t IH]; simpl; [reflexivity|].
  destruct (sr_pid r =? p) eqn:E; simpl.
  - destruct (sr_pid r =? p') eqn:E'; [lia|assumption].
  - rewrite IH. reflexivity.
Qed.

Lemma rows_of_insert_other (p' : Z) (row : SuspendedRow) (t : list SuspendedRow) :
  sr_pid row <> p' ->
  rows_of p' (insert_or_replace_suspended row t) = rows_of p' t.
Proof.
  intros Hne. unfold insert_or_replace_suspended.
  change (List.filter (fun r => negb (sr_pid r =? sr_pid row)) t)
    with (delete_suspended (sr_pid row) t).
  unfold rows_of at 1. rewrite List.filter_app.
  change (List.filter (fun r => sr_pid r =? p') (delete_suspended (sr_pid row) t))
    with (rows_of p' (delete_suspended (sr_pid row) t)).
  rewrite rows_of_delete_other by assumption. simpl.
  destruct (sr_pid row =? p') eqn:E; [lia|apply app_nil_r].
Qed.

Section Confinement.

Context {lib : IpAddressLib}.
Variable w : World.
Variable config : Config.

Section Calls.

Variable P : Event -> bool.

Lemma terminate_process_calls_within pid reason :
  (forall p, pid = Some p -> forallb P (terminate_calls p) = true) ->
  steps (calls_only P) (terminate_process w config pid reason).
Proof.
  intros HP. unfold terminate_process.
  destruct pid as [p|]; [|calls_engine].
  specialize (HP p eq_refl). simpl in HP.
  repeat (apply andb_prop in HP; destruct HP as [? HP]).
  pose proof (psutil_calls_only w P (PsProcess p) ltac:(assumption)).
  pose proof (psutil_calls_only w P (PsName p) ltac:(assumption)).
  pose proof (psutil_calls_only w P (PsTerminate p) ltac:(assumption)).
  pose proof (psutil_calls_only w P (PsWait p 5) ltac:(assumption)).
  pose proof (psutil_calls_only w P (PsKill p) ltac:(assumption)).
  pose proof (psutil_calls_only w P (PsWait p 3) ltac:(assumption)).
  pose proof (log_response_calls_only w P).
  unfold psutil_Process. calls_engine.
Qed.

Lemma suspend_process_calls_within pid reason :
  (forall p, pid = Some p -> forallb P (suspend_calls p) = true) ->
  steps (calls_only P) (suspend_process w config pid reason).
Proof.
  intros HP. unfold suspend_process.
  destruct pid as [p|]; [|calls_engine].
  specialize (HP p eq_refl). simpl in HP.
  repeat (apply andb_prop in HP; destruct HP as [? HP]).
  pose proof (psutil_calls_only w P (PsProcess p) ltac:(assumption)).
  pose proof (psutil_calls_only w P (PsName p) ltac:(assumption)).
  pose proof (psutil_calls_only w P (PsSuspend p) ltac:(assumption)).
  pose proof (log_response_calls_only w P).
  unfold psutil_Process. calls_engine.
Qed.

End Calls.

Lemma about_pid_terminate pid p :
  pid = Some p -> forallb (about_pid pid) (terminate_calls p) = true.
Proof. intros ->. simpl. rewrite Z.eqb_refl. reflexivity. Qed.

Lemma about_pid_suspend pid p :
  pid = Some p -> forallb (about_pid pid) (suspend_calls p) = true.
Proof. intros ->. simpl. rewrite Z.eqb_refl. reflexivity. Qed.

Lemma handle_calls_confined c :
  steps (calls_only (about_pid (pid c))) (handle_suspicious_connection w config c).
Proof.
  pose proof (fun reason =>
    terminate_process_calls_within (about_pid (pid c)) (pid c) reason
      (about_pid_terminate (pid c))).
  pose proof (fun reason =>
    suspend_process_calls_within (about_pid (pid c)) (pid c) reason
      (about_pid_suspend (pid c))).
  pose proof (fun ip reason d =>
    block_ip_calls_only w config (about_pid (pid c)) ltac:(reflexivity) ltac:(reflexivity)
      ip reason d).
  unfold handle_suspicious_connection, prompt_manual_response, check_auto_block_limits.
  calls_engine.
Qed.

(** *** The record of another address *)

Lemma keeps_record_block_ip_default (fip : option string) (ip' reason : string) (d : Z) :
  fip <> Some ip' -> keeps (record_of ip') (block_ip w config (default "" fip) reason d).
Proof.
  intros Hne. destruct fip as [ip|]; simpl.
  - apply keeps_record_block_ip. congruence.
  - intros s. rewrite block_ip_refused by reflexivity. reflexivity.
Qed.

Lemma handle_keeps_record c ip' :
  foreign_ip c <> Some ip' ->
  keeps (record_of ip') (handle_suspicious_connection w config c).
Proof.
  intros Hne.
  pose proof (fun reason d => keeps_record_block_ip_default (foreign_ip c) ip' reason d Hne).
  pose proof (keeps_terminate_process w config (record_of ip') ltac:(reflexivity)
                ltac:(reflexivity) ltac:(reflexivity) ltac:(reflexivity)
                ltac:(reflexivity)).
  pose proof (keeps_suspend_process w config (record_of ip') ltac:(reflexivity)
                ltac:(reflexivity) ltac:(reflexivity) ltac:(reflexivity)
                ltac:(reflexivity) ltac:(reflexivity) ltac:(reflexivity)).
  unfold handle_suspicious_connection, prompt_manual_response, check_auto_block_limits.
  keeps_using.
Qed.

(** *** The record of another process *)

Lemma process_record_add p p' s :
  p <> p' ->
  process_record_of p' (set_suspended_processes (fun ps => ps ∪ {[p]}) s)
  = process_record_of p' s.
Proof.
  intros Hne. unfold process_record_of. simpl. f_equal. apply bool_decide_ext.
  rewrite elem_of_union, elem_of_singleton. split; [intros [Hx|Hx]|auto]; congruence.
Qed.

Lemma process_record_insert p p' name reason t s :
  p <> p' ->
  process_record_of p' (set_db_suspended_processes
                          (insert_or_replace_suspended
                             {| sr_pid := p; sr_name := name; sr_reason := reason;
                                sr_timestamp := t |}) s)
  = process_record_of p' s.
Proof.
  intros Hne. unfold process_record_of. simpl. f_equal.
  apply rows_of_insert_other. exact Hne.
Qed.

Lemma keeps_process_record_suspend pid p' reason :
  pid <> Some p' ->
  keeps (process_record_of p') (suspend_process w config pid reason).
Proof.
  intros Hne. unfold suspend_process.
  destruct pid as [p|]; [|keeps_using].
  assert (Hp : p <> p') by congruence.
  pose proof (fun s => process_record_add p p' s Hp).
  pose proof (fun name reason t s => process_record_insert p p' name reason t s Hp).
  pose proof (keeps_log_response w (process_record_of p') ltac:(reflexivity)
                ltac:(reflexivity) ltac:(reflexivity) ltac:(reflexivity)).
  keeps_using.
Qed.

Lemma handle_keeps_process_record c p' :
  pid c <> Some p' ->
  keeps (process_record_of p') (handle_suspicious_connection w config c).
Proof.
  intros Hne.
  pose proof (fun reason => keeps_process_record_suspend (pid c) p' reason Hne).
  pose proof (keeps_terminate_process w config (process_record_of p') ltac:(reflexivity)
                ltac:(reflexivity) ltac:(reflexivity) ltac:(reflexivity)
                ltac:(reflexivity)).
  pose proof (keeps_block_ip w config (process_record_of p') ltac:(reflexivity)
                ltac:(reflexivity) ltac:(reflexivity) ltac:(reflexivity)
                ltac:(reflexivity) ltac:(reflexivity) ltac:(reflexivity)).
  unfold handle_suspicious_connection, prompt_manual_response, check_auto_block_limits.
  keeps_using.
Qed.

End Confinement.

(** X17: handling a connection reaches nothing but that connection.
    Whatever the configuration, the operator's answers and the system's
    replies, [handle_suspicious_connection] makes psutil calls on the
    connection's own pid only (none when it has no pid), leaves the Ledger
    record of every address other than the connection's foreign address as
    it was, and leaves the suspension record of every other pid as it
    was. *)
Theorem response_confined `{IpAddressLib} (w : World) (config : Config)
    (c : Connection) (s : State) :
  let s' := snd (handle_suspicious_connection w config c s) in
  calls_only (about_pid (pid c)) s s' /\
  (forall ip', foreign_ip c <> Some ip' -> record_of ip' s' = record_of ip' s) /\
  (forall p', pid c <> Some p' -> process_record_of p' s' = process_record_of p' s).
Proof.
  split; [apply handle_calls_confined|].
  split.
  - intros ip' Hne. apply handle_keeps_record. exact Hne.
  - intros p' Hne. apply handle_keeps_process_record. exact Hne.
Qed.

(** ** The operator's choice *)

Lemma snd_bind_ret {A B} (m : M A) (g : A -> B) (s : State) :
  snd (bind m (fun r => ret (g r)) s) = snd (m s).
Proof. unfold bind, ret. destruct (m s) as [[a|e] s1]; reflexivity. Qed.

Section PromptFacts.

Context {lib : IpAddressLib}.
Variable w : World.
Variable config : Config.

Lemma read_input_run s : read_input w s = (Ok (input w (tick s)), set_tick S s).
Proof. reflexivity. Qed.

End PromptFacts.

(** X18: what the operator's answer can set off.  In
    [prompt_manual_response], unless the stripped answer is 1 the Ledger is
    left as it was and no firewall command or rule-file access is made;
    unless it is 2 the suspension records are left as they were; and unless
    it is 3 and the answer to the confirmation question, lower-cased, is
    exactly y, no process is terminated or killed. *)
Theorem manual_response_choices `{IpAddressLib} (w : World) (config : Config)
    (c : Connection) (s : State) :
  let choice := PyStr.strip (input w (tick s)) in
  let confirm := PyStr.lower (input w (S (tick s))) in
  let s' := snd (prompt_manual_response w config c s) in
  (choice <> "1" -> ledger_same s s' /\ calls_only is_ps s s') /\
  (choice <> "2" -> processes_same s s') /\
  (~ (choice = "3" /\ confirm = "y") -> calls_only (fun e => negb (is_kill e)) s s').
Proof.
  intros choice confirm s'. subst s'.
  unfold prompt_manual_response.
  rewrite bind_run, read_input_run. cbv beta iota. fold choice.
  set (s0 := set_tick S s).
  assert (L0 : ledger_same s s0) by (split; reflexivity).
  assert (P0 : processes_same s s0) by (split; reflexivity).
  assert (C0 : forall P, calls_only P s s0) by (intro; apply (calls_only_refl _ s)).
  pose proof (keeps_block_ip w config suspended_processes ltac:(reflexivity)
                ltac:(reflexivity) ltac:(reflexivity) ltac:(reflexivity) ltac:(reflexivity)
                ltac:(reflexivity) ltac:(reflexivity)) as KB1.
  pose proof (keeps_block_ip w config db_suspended_processes ltac:(reflexivity)
                ltac:(reflexivity) ltac:(reflexivity) ltac:(reflexivity) ltac:(reflexivity)
                ltac:(reflexivity) ltac:(reflexivity)) as KB2.
  pose proof (keeps_suspend_process w config blocked_ips ltac:(reflexivity)
                ltac:(reflexivity) ltac:(reflexivity) ltac:(reflexivity) ltac:(reflexivity)
                ltac:(reflexivity) ltac:(reflexivity)) as KS1.
  pose proof (keeps_suspend_process w config db_blocked_ips ltac:(reflexivity)
                ltac:(reflexivity) ltac:(reflexivity) ltac:(reflexivity) ltac:(reflexivity)
                ltac:(reflexivity) ltac:(reflexivity)) as KS2.
  pose proof (keeps_terminate_process w config blocked_ips ltac:(reflexivity)
                ltac:(reflexivity) ltac:(reflexivity) ltac:(reflexivity)
                ltac:(reflexivity)) as KT1.
  pose proof (keeps_terminate_process w config db_blocked_ips ltac:(reflexivity)
                ltac:(reflexivity) ltac:(reflexivity) ltac:(reflexivity)
                ltac:(reflexivity)) as KT2.
  pose proof (keeps_terminate_process w config suspended_processes ltac:(reflexivity)
                ltac:(reflexivity) ltac:(reflexivity) ltac:(reflexivity)
                ltac:(reflexivity)) as KT3.
  pose proof (keeps_terminate_process w config db_suspended_processes ltac:(reflexivity)
                ltac:(reflexivity) ltac:(reflexivity) ltac:(reflexivity)
                ltac:(reflexivity)) as KT4.
  destruct (PyStr.eqb choice "1" && truthy_str (foreign_ip c)) eqn:B1.
  { apply andb_prop in B1. destruct B1 as [B1 _]. apply String.eqb_eq in B1.
    rewrite snd_bind_ret.
    split; [intros Hn; congruence|]. split.
    - intros _. split.
      + exact (KB1 _ _ _ s0).
      + exact (KB2 _ _ _ s0).
    - intros _. exact (block_ip_calls_only w config (fun e => negb (is_kill e))
                        ltac:(reflexivity) ltac:(reflexivity)
                         _ _ _ s0). }
  destruct (PyStr.eqb choice "2" && truthy_pid (pid c)) eqn:B2.
  { apply andb_prop in B2. destruct B2 as [B2 _]. apply String.eqb_eq in B2.
    rewrite snd_bind_ret.
    split; [|split; [intros Hn; congruence|]].
    - intros _. split; [split|].
      + exact (KS1 _ _ s0).
      + exact (KS2 _ _ s0).
      + exact (suspend_process_calls_only w config is_ps ltac:(reflexivity) _ _ s0).
    - intros _.
      exact (suspend_process_calls_within w config (fun e => negb (is_kill e)) (pid c) _
               ltac:(intros p _; reflexivity) s0). }
  destruct (PyStr.eqb choice "3" && truthy_pid (pid c)) eqn:B3.
  { apply andb_prop in B3. destruct B3 as [B3 _]. apply String.eqb_eq in B3.
    rewrite bind_run, read_input_run. cbv beta iota.
    change (input w (tick s0)) with (input w (S (tick s))). fold confirm.
    set (s1 := set_tick S s0).
    destruct (PyStr.eqb confirm "y") eqn:By.
    - apply String.eqb_eq in By. rewrite snd_bind_ret.
      split; [|split].
      + intros _. split; [split|].
        * exact (KT1 _ _ s1).
        * exact (KT2 _ _ s1).
        * exact (terminate_process_calls_only w config is_ps ltac:(reflexivity) _ _ s1).
      + intros _. split.
        * exact (KT3 _ _ s1).
        * exact (KT4 _ _ s1).
      + intros Hn. exfalso. apply Hn. split; assumption.
    - split; [intros _; split; [exact L0|apply C0]|].
      split; [intros _; exact P0|intros _; apply C0]. }
  assert (Hrest : forall m : M ManualOutcome,
             (m = ret Ignoring \/ m = ret ShowDetails \/ m = ret NoChoice) ->
             snd (m s0) = s0).
  { intros m [->|[->| ->]]; reflexivity. }
  rewrite Hrest.
  2:{ destruct (PyStr.eqb choice "4"); [auto|]. destruct (PyStr.eqb choice "5"); auto. }
  split; [intros _; split; [exact L0|apply C0]|].
  split; [intros _; exact P0|intros _; apply C0].
Qed.

Lemma manual_response_choices_witness :
  let s' := snd (prompt_manual_response linux_ok default_engine_config
                   scenario_connection empty_state) in
  ledger_same empty_state s' /\ calls_only is_ps empty_state s'.
Proof.
  refine (proj1 (manual_response_choices linux_ok default_engine_config
                   scenario_connection empty_state) _).
  vm_compute. discriminate.
Defined.

(** ** Whitelisted addresses and the order of the automatic responses *)

Section WhitelistedAddress.

Context {lib : IpAddressLib}.
Variable w : World.
Variable config : Config.
Variable c : Connection.
Variable ip : string.
Hypothesis Hfip : foreign_ip c = Some ip.
Hypothesis Hw : is_whitelisted_ip config ip = true.

Lemma block_ip_refused_default reason d s :
  block_ip w config (default "" (foreign_ip c)) reason d s
  = (Ok (false, IpWhitelistedOrInvalid ip), s).
Proof.
  rewrite Hfip. simpl. apply block_ip_refused. rewrite Hw. apply orb_true_r.
Qed.

Lemma handle_whitelisted_ledger {C} (proj : State -> C) :
  (forall f s, proj (set_tick f s) = proj s) ->
  (forall f s, proj (set_trace f s) = proj s) ->
  (forall f s, proj (set_logger f s) = proj s) ->
  (forall f s, proj (set_audit_log f s) = proj s) ->
  (forall f s, proj (set_db_response_log f s) = proj s) ->
  (forall f s, proj (set_suspended_processes f s) = proj s) ->
  (forall f s, proj (set_db_suspended_processes f s) = proj s) ->
  (forall f s, proj (set_auto_block_count f s) = proj s) ->
  (forall f s, proj (set_last_auto_block_reset f s) = proj s) ->
  keeps proj (handle_suspicious_connection w config c).
Proof.
  intros H1 H2 H3 H4 H5 H6 H7 H8 H9.
  assert (forall reason d,
             keeps proj (block_ip w config (default "" (foreign_ip c)) reason d)).
  { intros reason d s. rewrite block_ip_refused_default. reflexivity. }
  pose proof (keeps_terminate_process w config proj H1 H2 H3 H4 H5).
  pose proof (keeps_suspend_process w config proj H1 H2 H3 H4 H5 H6 H7).
  unfold handle_suspicious_connection, prompt_manual_response, check_auto_block_limits.
  keeps_using.
Qed.

Lemma handle_whitelisted_calls :
  steps (calls_only is_ps) (handle_suspicious_connection w config c).
Proof.
  assert (forall reason d,
             steps (calls_only is_ps)
               (block_ip w config (default "" (foreign_ip c)) reason d)).
  { intros reason d s. rewrite block_ip_refused_default. apply calls_only_refl. }
  pose proof (terminate_process_calls_only w config is_ps ltac:(reflexivity)).
  pose proof (suspend_process_calls_only w config is_ps ltac:(reflexivity)).
  unfold handle_suspicious_connection, prompt_manual_response, check_auto_block_limits.
  calls_engine.
Qed.

End WhitelistedAddress.

(** X19: a whitelisted foreign address is never blocked, neither by the
    automatic response nor by the operator.  Whatever the configured
    thresholds, the risk score and the operator's answers, handling a
    connection whose foreign address is whitelisted leaves the Ledger as it
    was and makes no firewall command and no rule-file access. *)
Theorem whitelisted_address_never_blocked `{IpAddressLib} (w : World) (config : Config)
    (c : Connection) (ip : string) (s : State) :
  foreign_ip c = Some ip ->
  is_whitelisted_ip config ip = true ->
  let s' := snd (handle_suspicious_connection w config c s) in
  ledger_same s s' /\ calls_only is_ps s s'.
Proof.
  intros Hfip Hw. split; [split|].
  - apply (handle_whitelisted_ledger w config c ip Hfip Hw blocked_ips);
      intros; reflexivity.
  - apply (handle_whitelisted_ledger w config c ip Hfip Hw db_blocked_ips);
      intros; reflexivity.
  - apply (handle_whitelisted_calls w config c ip Hfip Hw).
Qed.

Lemma whitelisted_address_never_blocked_witness :
  let s' := snd (handle_suspicious_connection linux_ok auto_two_per_hour
                   (hostile "10.0.0.5") empty_state) in
  ledger_same empty_state s' /\ calls_only is_ps empty_state s'.
Proof.
  exact (@whitelisted_address_never_blocked python_ipv4 linux_ok auto_two_per_hour
           (hostile "10.0.0.5") "10.0.0.5" empty_state eq_refl
           ltac:(vm_compute; reflexivity)).
Defined.

Section TerminateFirst.

Context {lib : IpAddressLib}.
Variable w : World.
Variable config : Config.
Variable c : Connection.
Hypothesis Hrisk : auto_terminate_threshold (response config) <= risk_score c.
Hypothesis Hpid : truthy_pid (pid c) = true.
Hypothesis Hprog : is_whitelisted_process config (program c) (pid c) = false.

Lemma budget_check_run s :
  exists b s1,
    (if auto_response (response config) then check_auto_block_limits w config
     else ret false) s = (Ok b, s1) /\
    ledger_same s s1 /\ trace s1 = trace s.
Proof.
  destruct (auto_response (response config)).
  - destruct (check_auto_block_limits_run w config s) as (s1 & E & _ & _ & T).
    assert (K1 : keeps blocked_ips (check_auto_block_limits w config))
      by (unfold check_auto_block_limits; keeps_engine).
    assert (K2 : keeps db_blocked_ips (check_auto_block_limits w config))
      by (unfold check_auto_block_limits; keeps_engine).
    specialize (K1 s). specialize (K2 s). rewrite E in K1, K2.
    eexists _, s1. split; [exact E|]. split; [split; assumption|exact T].
  - exists false, s. split; [reflexivity|]. split; [apply ledger_same_refl|reflexivity].
Qed.

Lemma handle_terminate_first s :
  match handle_suspicious_connection w config c s with
  | (Ok o, s') =>
      is_auto_blocked o = false /\
      (forall m, o <> AutoBlockFailed m) /\
      ((forall p, o <> Prompted p) -> ledger_same s s' /\ calls_only is_ps s s')
  | (Raise _, _) => False
  end.
Proof.
  unfold handle_suspicious_connection.
  destruct (enabled (response config)); simpl.
  2:{ split; [reflexivity|]. split; [discriminate|].
      intros _. split; [apply ledger_same_refl|apply calls_only_refl]. }
  rewrite bind_run.
  destruct (budget_check_run s) as (b & s1 & -> & L1 & T1).
  destruct b.
  - apply Z.leb_le in Hrisk. rewrite Hrisk, Hpid, Hprog. simpl.
    rewrite bind_run.
    pose proof (keeps_terminate_process w config blocked_ips ltac:(reflexivity)
                  ltac:(reflexivity) ltac:(reflexivity) ltac:(reflexivity)
                  ltac:(reflexivity) (pid c)
                  (risk_reason "Auto-terminate" (risk_score c)) s1) as K1.
    pose proof (keeps_terminate_process w config db_blocked_ips ltac:(reflexivity)
                  ltac:(reflexivity) ltac:(reflexivity) ltac:(reflexivity)
                  ltac:(reflexivity) (pid c)
                  (risk_reason "Auto-terminate" (risk_score c)) s1) as K2.
    pose proof (terminate_process_calls_only w config is_ps ltac:(reflexivity) (pid c)
                  (risk_reason "Auto-terminate" (risk_score c)) s1) as K3.
    destruct (run_never_raises _ s1
                (never_raises_terminate_process w config (pid c)
                   (risk_reason "Auto-terminate" (risk_score c))))
      as ([ok m] & s2 & E).
    rewrite E in K1, K2, K3 |- *. simpl in K1, K2, K3.
    assert (Hs : ledger_same s s2 /\ calls_only is_ps s s2).
    { split.
      - apply (ledger_same_trans s s1 s2 L1). split; assumption.
      - destruct K3 as (evs & Ht & Hf). exists evs. rewrite Ht, T1. auto. }
    unfold ret. destruct ok; simpl; (split; [reflexivity|]); (split; [discriminate|]);
      intros _; exact Hs.
  - assert (Hs : ledger_same s s1 /\ calls_only is_ps s s1).
    { split; [exact L1|]. exists []. rewrite T1, app_nil_r. auto. }
    destruct (require_confirmation (response config) && (50 <? risk_score c)).
    + rewrite bind_run.
      destruct (run_never_raises _ s1 (never_raises_prompt_manual_response w config c))
        as (p & s2 & ->).
      unfold ret. split; [reflexivity|]. split; [discriminate|].
      intros Hn. exfalso. apply (Hn p). reflexivity.
    + unfold ret. split; [reflexivity|]. split; [discriminate|]. intros _. exact Hs.
Qed.

End TerminateFirst.

(** X20: termination comes first and has no fallback.  For a connection
    that reaches the termination threshold, has a pid and a program that is
    not whitelisted, [handle_suspicious_connection] never attempts the
    automatic block, even when its score also reaches the block threshold
    and even when the termination fails; unless the operator is prompted,
    the Ledger is left as it was and no firewall command is run. *)
Theorem auto_terminate_excludes_block `{IpAddressLib} (w : World) (config : Config)
    (c : Connection) (s s' : State) (o : Outcome) :
  auto_terminate_threshold (response config) <= risk_score c ->
  truthy_pid (pid c) = true ->
  is_whitelisted_process config (program c) (pid c) = false ->
  handle_suspicious_connection w config c s = (Ok o, s') ->
  is_auto_blocked o = false /\
  (forall m, o <> AutoBlockFailed m) /\
  ((forall p, o <> Prompted p) -> ledger_same s s' /\ calls_only is_ps s s').
Proof.
  intros Hrisk Hpid Hprog Hrun.
  pose proof (handle_terminate_first w config c Hrisk Hpid Hprog s) as C.
  rewrite Hrun in C. exact C.
Qed.

Lemma auto_terminate_excludes_block_witness :
  exists o s',
    handle_suspicious_connection linux_ok auto_two_per_hour
      (set_risk_score 95 external_connection) empty_state = (Ok o, s') /\
    is_auto_blocked o = false.
Proof.
  eexists _, _. split; [vm_compute; reflexivity|].
  refine (proj1 (@auto_terminate_excludes_block python_ipv4 linux_ok auto_two_per_hour
                   (set_risk_score 95 external_connection) empty_state _ _
                   _ _ _ _)).
  - vm_compute. discriminate.
  - reflexivity.
  - vm_compute. reflexivity.
  - vm_compute. reflexivity.
Defined.

(** ** What the basic scorer can reach *)

(** X21: the four rules cannot reach the cap.  The basic score never
    exceeds 90, so the [min(score, 100)] of the source never binds; an alert
    (a score above 50) needs a suspicious port on one side or the other and
    at least two of the four rules; and a high-severity alert (a score above
    80) is raised exactly when all four rules fire, the score being then
    90. *)
Theorem risk_score_reach `{IpAddressLib} (config : Config) (c : Connection) :
  let score := calculate_basic_risk_score config c in
  let fport := port_in (foreign_port c) (suspicious_ports config) in
  let lport := port_in (local_port c) (suspicious_ports config) in
  let external := truthy_str (foreign_ip c) && negb (is_internal_ip (foreign_ip c)) in
  let prog := suspicious_program (program c) in
  0 <= score <= 90 /\
  (50 < score -> fport || lport = true) /\
  (50 < score ->
   fport && lport || fport && external && prog || lport && external && prog = true) /\
  (80 < score <-> fport && lport && external && prog = true) /\
  (80 < score <-> score = 90).
Proof.
  cbv zeta. rewrite risk_score_sum.
  destruct (port_in (foreign_port c) _), (port_in (local_port c) _),
    (truthy_str (foreign_ip c) && negb (is_internal_ip (foreign_ip c))),
    (suspicious_program (program c)); simpl;
    repeat split; intros; try reflexivity; try discriminate; lia.
Qed.

Lemma risk_score_reach_witness :
  port_in (foreign_port external_connection) (suspicious_ports default_engine_config)
  || port_in (local_port external_connection) (suspicious_ports default_engine_config)
  = true.
Proof.
  refine (proj1 (proj2 (@risk_score_reach python_ipv4 default_engine_config
                          external_connection)) _).
  vm_compute. reflexivity.
Defined.

(** X22: what the scorer calls internal, the engine never blocks.  A
    non-empty address that [is_internal_ip] reports as internal is
    whitelisted under every configuration; and when the configured address
    whitelist is empty the two notions coincide on non-empty addresses. *)
Theorem internal_addresses_are_whitelisted `{IpAddressLib} (config : Config) (ip : string) :
  ip <> "" ->
  (is_internal_ip (Some ip) = true -> is_whitelisted_ip config ip = true) /\
  (ip_whitelist (response config) = [] ->
   is_whitelisted_ip config ip = is_internal_ip (Some ip)).
Proof.
  intros Hne. unfold is_internal_ip, is_whitelisted_ip.
  destruct (PyStr.is_empty ip) eqn:He.
  { apply is_empty_true in He. contradiction. }
  destruct (ip_address ip) as [a|]; [|split; [discriminate|reflexivity]].
  split.
  - intros Hi. rewrite orb_comm, Hi. reflexivity.
  - intros ->. simpl. rewrite orb_comm.
    destruct (is_private a || is_loopback a); reflexivity.
Qed.

Lemma internal_addresses_are_whitelisted_witness :
  is_whitelisted_ip default_engine_config "10.0.0.5" = true.
Proof.
  refine (proj1 (@internal_addresses_are_whitelisted python_ipv4 default_engine_config
                   "10.0.0.5" _) _).
  - discriminate.
  - vm_compute. reflexivity.
Defined.

(** ** The analysis loop and the handling loop *)

Section Loops.

Context {lib : IpAddressLib}.
Variable w : World.
Variable config : Config.

Lemma analyze_connections_cons conn rest :
  analyze_connections config (conn :: rest)
  = (fst (analyze_connection config conn) :: fst (analyze_connections config rest),
     (snd (analyze_connection config conn) ++ snd (analyze_connections config rest))%list).
Proof.
  cbn [analyze_connections].
  destruct (analyze_connection config conn), (analyze_connections config rest).
  reflexivity.
Qed.

Lemma score_after_analysis conn :
  calculate_basic_risk_score config (fst (analyze_connection config conn))
  = calculate_basic_risk_score config conn.
Proof.
  unfold analyze_connection.
  destruct (50 <? calculate_basic_risk_score config conn); reflexivity.
Qed.

Lemma analyze_connection_idempotent conn :
  analyze_connection config (fst (analyze_connection config conn))
  = (fst (analyze_connection config conn), snd (analyze_connection config conn)).
Proof.
  unfold analyze_connection at 1. rewrite score_after_analysis.
  unfold analyze_connection.
  destruct (50 <? calculate_basic_risk_score config conn) eqn:E; simpl; reflexivity.
Qed.

End Loops.

(** X23: the analysis loop.  [analyze_netstat_comprehensive] returns one
    analysed connection per parsed connection, in order, each differing from
    its source in the score and the alerts only and carrying the score the
    rules give it; the alert list is the alerts raised, in connection order;
    and analysing the result again changes nothing. *)
Theorem analysis_loop `{IpAddressLib} (config : Config) (l : list Connection) :
  let out := analyze_connections config l in
  fst out = map (fun c => fst (analyze_connection config c)) l /\
  snd out = flat_map (fun c => snd (analyze_connection config c)) l /\
  Forall2 (fun c c' =>
             risk_score c' = calculate_basic_risk_score config c /\
             set_alerts [] (set_risk_score 0 c') = set_alerts [] (set_risk_score 0 c))
          l (fst out) /\
  analyze_connections config (fst out) = out.
Proof.
  induction l as [|c r IH]; [repeat split; constructor|].
  cbv zeta in *. rewrite analyze_connections_cons.
  destruct IH as (IH1 & IH2 & IH3 & IH4). cbn [fst snd map flat_map].
  split; [rewrite IH1; reflexivity|].
  split; [rewrite IH2; reflexivity|].
  split.
  - constructor; [|exact IH3].
    unfold analyze_connection.
    destruct (50 <? calculate_basic_risk_score config c); split; reflexivity.
  - rewrite analyze_connections_cons, IH4, analyze_connection_idempotent.
    reflexivity.
Qed.

Section Handling.

Context {lib : IpAddressLib}.
Variable w : World.
Variable config : Config.

Lemma handle_each_length (l : list Connection) :
  forall s outs s',
    handle_each w config l s = (Ok outs, s') -> length outs = length l.
Proof.
  induction l as [|c r IH]; intros s outs s'; cbn [handle_each].
  - intros [= <- _]. reflexivity.
  - rewrite bind_run.
    destruct (handle_suspicious_connection w config c s) as [[o|e] s1]; [|discriminate].
    rewrite bind_run.
    destruct (handle_each w config r s1) as [[os|e] s2] eqn:E; [|discriminate].
    intros [= <- _]. cbn [length]. rewrite (IH _ _ _ E). reflexivity.
Qed.

Lemma handle_connections_each (l : list Connection) (s : State) :
  handle_connections w config l s
  = handle_each w config
      (List.filter (fun c => match alerts c with [] => false | _ => true end) l) s.
Proof.
  revert s. induction l as [|c r IH]; intros s; [reflexivity|].
  cbn [handle_connections List.filter].
  destruct (alerts c) as [|a al]; [apply IH|].
  cbn [handle_each]. rewrite !bind_run.
  destruct (handle_suspicious_connection w config c s) as [[o|e] s1]; [|reflexivity].
  rewrite !bind_run, IH. reflexivity.
Qed.

Lemma alerts_after_analysis conn :
  alerts conn = [] ->
  match alerts (fst (analyze_connection config conn)) with [] => false | _ => true end
  = (50 <? calculate_basic_risk_score config conn).
Proof.
  intros Ha. unfold analyze_connection.
  destruct (50 <? calculate_basic_risk_score config conn); simpl; [reflexivity|].
  rewrite Ha. reflexivity.
Qed.

End Handling.

(** X24: one monitoring pass responds to the connections that score above
    50 and to no other.  When freshly parsed connections (carrying no alert
    yet) are analysed and the result is handed to the handling loop, the
    loop does exactly what handling the connections whose score exceeds 50
    does, one after the other in the order of the list, each carrying its
    score and its alert and otherwise as parsed: the same outcomes and the
    same final state, or the same exception if one is raised.  So a pass
    that returns gives one outcome for each such connection; and when no
    score exceeds 50 the pass returns at once with the state left as it was,
    the clock not even being read. *)
Theorem monitoring_pass `{IpAddressLib} (w : World) (config : Config)
    (l : list Connection) (s : State) :
  Forall (fun c => alerts c = []) l ->
  let scored := List.filter (fun c => 50 <? calculate_basic_risk_score config c) l in
  let handled := map (fun c => fst (analyze_connection config c)) scored in
  let pass := handle_connections w config (fst (analyze_connections config l)) s in
  pass = handle_each w config handled s /\
  Forall2 (fun c c' =>
             risk_score c' = calculate_basic_risk_score config c /\
             50 < risk_score c' /\
             alerts c' = [{| al_severity := if 80 <? risk_score c' then High else Medium;
                             al_risk := risk_score c' |}] /\
             set_alerts [] (set_risk_score 0 c') = set_alerts [] (set_risk_score 0 c))
          scored handled /\
  (forall outs s', pass = (Ok outs, s') -> length outs = length scored) /\
  (scored = [] -> pass = (Ok [], s)).
Proof.
  intros Hfresh scored handled pass.
  assert (Hfilter :
    List.filter (fun c => match alerts c with [] => false | _ => true end)
      (fst (analyze_connections config l))
    = handled).
  { subst handled scored. induction Hfresh as [|c r Hc Hr IH]; [reflexivity|].
    rewrite analyze_connections_cons. cbn [fst List.filter].
    rewrite (alerts_after_analysis config c Hc).
    destruct (50 <? calculate_basic_risk_score config c); cbn [map]; rewrite IH;
      reflexivity. }
  assert (Hpass : pass = handle_each w config handled s).
  { subst pass. rewrite handle_connections_each, Hfilter. reflexivity. }
  split; [exact Hpass|]. split; [|split].
  - subst handled scored. clear Hfilter Hpass pass Hfresh.
    induction l as [|c r IH]; [constructor|].
    cbn [List.filter].
    destruct (50 <? calculate_basic_risk_score config c) eqn:E; [|exact IH].
    cbn [map]. constructor; [|exact IH].
    unfold analyze_connection. rewrite E. cbn.
    repeat split. lia.
  - intros outs s' Hrun. rewrite Hpass in Hrun.
    rewrite (handle_each_length w config _ _ _ _ Hrun).
    subst handled. apply length_map.
  - intros Hnone. rewrite Hpass. subst handled. rewrite Hnone. reflexivity.
Qed.

Lemma monitoring_pass_witness :
  let l := [scenario_connection; external_connection] in
  let scored :=
    List.filter (fun c => 50 <? calculate_basic_risk_score default_engine_config c) l in
  length scored = 1%nat /\
  handle_connections linux_ok default_engine_config
    (fst (analyze_connections default_engine_config l)) empty_state
  = handle_each linux_ok default_engine_config
      (map (fun c => fst (analyze_connection default_engine_config c)) scored)
      empty_state.
Proof.
  intros l scored. split; [vm_compute; reflexivity|].
  exact (proj1 (@monitoring_pass python_ipv4 linux_ok default_engine_config
                  l empty_state ltac:(repeat constructor))).
Defined.

(** ** Supplied values *)

(** X25: a value supplied by the configuration document wins.  For a
    document that is an object, every path of keys that leads to a value
    other than an object in the document (a number, a string, a flag, a
    list) leads to that same value in the effective configuration, whatever
    the built-in configuration held at that path, be it a scalar, a whole
    section or nothing. *)
Theorem load_config_overrides (config : list (string * PyVal)) (custom : PyVal)
    (path : list string) (v : PyVal) :
  well_formed custom = true ->
  path <> [] ->
  (forall items, v <> PDict items) ->
  lookup_path path custom = Some v ->
  lookup_path path (PDict (load_config config (Some custom))) = Some v.
Proof.
  intros Hwf Hne Hv Hget.
  destruct custom; try (destruct path; [contradiction|discriminate]).
  unfold load_config. apply supplied_value_kept; assumption.
Qed.

Lemma load_config_overrides_witness :
  lookup_path ["response"; "enabled"]
    (PDict (load_config default_config (Some custom_document)))
  = Some (PBool true).
Proof.
  apply (load_config_overrides default_config custom_document ["response"; "enabled"]
           (PBool true)).
  - vm_compute. reflexivity.
  - discriminate.
  - discriminate.
  - vm_compute. reflexivity.
Defined.

(** ** The netstat parser *)

(** *** Characters and cuts *)

Lemma prefix_empty (s : string) : String.prefix "" s = true.
Proof. destruct s; reflexivity. Qed.

Lemma contains_char (c a : ascii) (r : string) :
  PyStr.contains (String c "") (String a r)
  = Ascii.eqb c a || PyStr.contains (String c "") r.
Proof.
  cbn [PyStr.contains String.prefix]. destruct (ascii_dec c a) as [->|Hne].
  - rewrite Ascii.eqb_refl, prefix_empty. reflexivity.
  - apply Ascii.eqb_neq in Hne. rewrite Hne. reflexivity.
Qed.

Lemma contains_char_nil (c : ascii) : PyStr.contains (String c "") "" = false.
Proof. reflexivity. Qed.

Lemma contains_char_app (c : ascii) (a b : string) :
  PyStr.contains (String c "") (a ++ b)
  = PyStr.contains (String c "") a || PyStr.contains (String c "") b.
Proof.
  induction a as [|x a IH].
  - reflexivity.
  - change (String x a ++ b) with (String x (a ++ b)).
    rewrite !contains_char, IH. apply orb_assoc.
Qed.

Lemma rsplit_last_absent (sep : ascii) (d : string) :
  PyStr.contains (String sep "") d = false -> PyText.rsplit_last sep d = [d].
Proof.
  induction d as [|a r IH]; [reflexivity|].
  rewrite contains_char. intros H. apply orb_false_elim in H as [Ha Hr].
  cbn [PyText.rsplit_last]. rewrite (IH Hr).
  rewrite Ascii.eqb_sym, Ha. reflexivity.
Qed.

Lemma rsplit_last_app (sep : ascii) (host d : string) :
  PyStr.contains (String sep "") d = false ->
  PyText.rsplit_last sep (host ++ String sep d) = [host; d].
Proof.
  intros Hd. induction host as [|a h IH].
  - change ("" ++ String sep d) with (String sep d).
    cbn [PyText.rsplit_last]. rewrite (rsplit_last_absent sep d Hd).
    rewrite Ascii.eqb_refl. reflexivity.
  - change (String a h ++ String sep d) with (String a (h ++ String sep d)).
    cbn [PyText.rsplit_last]. rewrite IH. reflexivity.
Qed.

Lemma split_first_app (sep : ascii) (d name : string) :
  PyStr.contains (String sep "") d = false ->
  PyText.split_first sep (d ++ String sep name) = [d; name].
Proof.
  induction d as [|a r IH].
  - intros _. change ("" ++ String sep name) with (String sep name).
    cbn [PyText.split_first]. rewrite Ascii.eqb_refl. reflexivity.
  - rewrite contains_char. intros H. apply orb_false_elim in H as [Ha Hr].
    change (String a r ++ String sep name) with (String a (r ++ String sep name)).
    cbn [PyText.split_first]. rewrite Ascii.eqb_sym, Ha, (IH Hr). reflexivity.
Qed.

Lemma span_app (p : ascii -> bool) (a b : string) :
  all_chars p a = true ->
  match b with String c _ => p c = false | EmptyString => True end ->
  PyText.span p (a ++ b) = (a, b).
Proof.
  intros Ha Hb. induction a as [|x a IH].
  - change ("" ++ b) with b. destruct b as [|c b]; [reflexivity|].
    cbn [PyText.span]. rewrite Hb. reflexivity.
  - cbn [all_chars] in Ha. apply andb_prop in Ha as [Hx Ha].
    change (String x a ++ b) with (String x (a ++ b)).
    cbn [PyText.span]. rewrite Hx, (IH Ha). reflexivity.
Qed.

Lemma span_parts (p : ascii -> bool) (s : string) :
  s = fst (PyText.span p s) ++ snd (PyText.span p s).
Proof.
  induction s as [|c r IH]; [reflexivity|].
  cbn [PyText.span]. destruct (p c); [|reflexivity].
  destruct (PyText.span p r) as [a b]. cbn [fst snd] in *.
  change (String c a ++ b) with (String c (a ++ b)). rewrite <- IH. reflexivity.
Qed.

Lemma all_chars_not (c : ascii) (s : string) :
  PyStr.contains (String c "") s = false ->
  all_chars (fun x => negb (Ascii.eqb x c)) s = true.
Proof.
  induction s as [|a r IH]; [reflexivity|].
  rewrite contains_char. intros H. apply orb_false_elim in H as [Ha Hr].
  cbn [all_chars]. rewrite Ascii.eqb_sym, Ha, (IH Hr). reflexivity.
Qed.

Lemma all_digits_chars (s : string) :
  PyStr.all_digits s = all_chars PyStr.is_digit s.
Proof. induction s as [|a r IH]; [reflexivity|]. simpl. rewrite IH. reflexivity. Qed.

Lemma not_star (host d : string) : PyStr.eqb (host ++ ":" ++ d) "*" = false.
Proof.
  unfold PyStr.eqb. apply String.eqb_neq. intros E.
  destruct host as [|a [|b h]]; discriminate.
Qed.

Lemma not_empty_app (a : string) (c : ascii) (b : string) :
  PyStr.is_empty (a ++ String c b) = false.
Proof. destruct a; reflexivity. Qed.

Lemma match_bracketed_colon (address : string) :
  PyStr.contains ":" address = false -> match_bracketed address = None.
Proof.
  intros Hc. unfold match_bracketed.
  destruct address as [|c rest]; [reflexivity|].
  destruct (Ascii.eqb c "["); [|reflexivity].
  rewrite contains_char in Hc. apply orb_false_elim in Hc as [_ Hc].
  pose proof (span_parts (fun c => negb (Ascii.eqb c "]")) rest) as E.
  destruct (PyText.span _ rest) as [host after]. cbn [fst snd] in E.
  destruct host as [|h0 host]; [reflexivity|].
  destruct after as [|c1 [|c2 tail]]; try reflexivity.
  destruct (Ascii.eqb c1 "]"); [|reflexivity].
  destruct (Ascii.eqb c2 ":") eqn:E2; [|reflexivity].
  exfalso. apply Ascii.eqb_eq in E2. subst c2.
  rewrite E, contains_char_app in Hc. apply orb_false_elim in Hc as [_ Hc].
  rewrite (contains_char ":" c1), (contains_char ":" ":") in Hc.
  rewrite Ascii.eqb_refl, orb_true_r in Hc. discriminate.
Qed.

Lemma match_bracketed_app (host digits rest : string) :
  host <> "" ->
  PyStr.contains "]" host = false ->
  PyStr.isdigit digits = true ->
  match rest with String c _ => PyStr.is_digit c = false | EmptyString => True end ->
  match_bracketed ("[" ++ host ++ "]:" ++ digits ++ rest) = Some (host, digits).
Proof.
  intros Hh Hb Hd Hr.
  change ("[" ++ host ++ "]:" ++ digits ++ rest)
    with (String "[" (host ++ String "]" (String ":" (digits ++ rest)))).
  unfold match_bracketed.
  replace (Ascii.eqb "[" "[") with true by reflexivity.
  rewrite (span_app (fun c => negb (Ascii.eqb c "]")) host
             (String "]" (String ":" (digits ++ rest)))
             (all_chars_not "]" host Hb) eq_refl).
  destruct host as [|h0 host]; [contradiction|].
  replace (Ascii.eqb "]" "]" && Ascii.eqb ":" ":") with true by reflexivity.
  unfold PyStr.isdigit in Hd. apply andb_prop in Hd as [Hne Hall].
  rewrite all_digits_chars in Hall.
  rewrite (span_app PyStr.is_digit digits rest Hall Hr).
  destruct digits as [|d0 digits]; [discriminate|]. reflexivity.
Qed.

Section AddressFacts.

Context {pyint : PyInt}.

Lemma parse_address_colon (host d : string) :
  PyStr.contains ":" d = false ->
  PyText.startswith "[" host = false ->
  parse_address (host ++ ":" ++ d)
  = Ok match int d with
       | Some port => (if PyStr.eqb host "0.0.0.0" then None else Some host, Some port)
       | None => (Some (host ++ ":" ++ d), None)
       end.
Proof.
  intros Hd Hb. unfold parse_address.
  change (host ++ ":" ++ d) with (host ++ String ":" d).
  rewrite not_empty_app. change (host ++ String ":" d) with (host ++ ":" ++ d).
  rewrite not_star. cbn [orb].
  assert (Hs : PyText.startswith "[" (host ++ ":" ++ d) = false).
  { destruct host as [|a h]; [reflexivity|].
    unfold PyText.startswith in *.
    change (String a h ++ ":" ++ d) with (String a (h ++ ":" ++ d)).
    cbn [String.prefix] in *. destruct (ascii_dec "[" a); [|reflexivity].
    rewrite prefix_empty in Hb. discriminate. }
  rewrite Hs.
  change (host ++ ":" ++ d) with (host ++ String ":" d).
  rewrite contains_char_app, contains_char, Ascii.eqb_refl, orb_true_r.
  rewrite (rsplit_last_app ":" host d Hd).
  destruct (int d); [|reflexivity].
  destruct (PyStr.eqb host "0.0.0.0"); reflexivity.
Qed.

Lemma parse_address_whole (address : string) :
  PyStr.contains ":" address = false ->
  address <> "" -> address <> "*" ->
  parse_address address = Ok (Some address, None).
Proof.
  intros Hc He Hs. unfold parse_address.
  destruct (PyStr.is_empty address) eqn:E1.
  { apply is_empty_true in E1. contradiction. }
  destruct (PyStr.eqb address "*") eqn:E2.
  { apply String.eqb_eq in E2. contradiction. }
  cbn [orb]. rewrite (match_bracketed_colon address Hc), Hc.
  destruct (PyText.startswith "[" address); reflexivity.
Qed.

End AddressFacts.

(** X26: what [parse_address] makes of an address without brackets.  Cut
    at its last colon into a host and a port text, the address gives the host
    and the integer the port text denotes, the host 0.0.0.0 being reported
    as no address; when the port text denotes no integer (as the star of a
    listening socket), the whole text, colon and port included, is returned
    as the address, with no port.  An address without a colon is returned
    whole. *)
Theorem parse_address_plain `{PyInt} (host d address : string) :
  (PyStr.contains ":" d = false ->
   PyText.startswith "[" host = false ->
   parse_address (host ++ ":" ++ d)
   = Ok match int d with
        | Some port => (if PyStr.eqb host "0.0.0.0" then None else Some host, Some port)
        | None => (Some (host ++ ":" ++ d), None)
        end) /\
  (PyStr.contains ":" address = false ->
   address <> "" -> address <> "*" ->
   parse_address address = Ok (Some address, None)).
Proof.
  split; [apply parse_address_colon|apply parse_address_whole].
Qed.

Lemma parse_address_plain_witness :
  parse_address ("0.0.0.0" ++ ":" ++ "*") = Ok (Some "0.0.0.0:*", None) /\
  parse_address ("10.1.2.3" ++ ":" ++ "22") = Ok (Some "10.1.2.3", Some 22).
Proof.
  split.
  - exact (proj1 (@parse_address_plain python_int "0.0.0.0" "*" "") eq_refl eq_refl).
  - exact (proj1 (@parse_address_plain python_int "10.1.2.3" "22" "") eq_refl eq_refl).
Defined.

(** X27: what [parse_address] makes of a bracketed address.  For a
    non-empty host without a closing bracket, written between brackets and
    followed by a colon and a run of digits, the host and the integer the
    digits denote are returned, whatever follows the digits: the pattern is
    matched at the start of the text and not up to its end.  Should [int]
    reject the digits, the [ValueError] leaves [parse_address]. *)
Theorem parse_address_bracketed `{PyInt} (host digits rest : string) :
  host <> "" ->
  PyStr.contains "]" host = false ->
  PyStr.isdigit digits = true ->
  match rest with String c _ => PyStr.is_digit c = false | EmptyString => True end ->
  parse_address ("[" ++ host ++ "]:" ++ digits ++ rest)
  = match int digits with
    | Some port => Ok (Some host, Some port)
    | None => Raise (Error "ValueError")
    end.
Proof.
  intros Hh Hb Hd Hr. unfold parse_address.
  rewrite (match_bracketed_app host digits rest Hh Hb Hd Hr).
  change ("[" ++ host ++ "]:" ++ digits ++ rest)
    with (String "[" (host ++ "]:" ++ digits ++ rest)).
  cbn [PyStr.is_empty orb]. unfold PyStr.eqb at 1.
  replace (String.eqb (String "[" (host ++ "]:" ++ digits ++ rest)) "*") with false
    by (symmetry; apply String.eqb_neq; discriminate).
  replace (PyText.startswith "[" (String "[" (host ++ "]:" ++ digits ++ rest)))
    with true
    by (unfold PyText.startswith; cbn [String.prefix];
        destruct (ascii_dec "[" "["); [rewrite prefix_empty; reflexivity|congruence]).
  reflexivity.
Qed.

Lemma parse_address_bracketed_witness :
  parse_address ("[" ++ "::1" ++ "]:" ++ "631" ++ "/tcp") = Ok (Some "::1", Some 631).
Proof.
  exact (@parse_address_bracketed python_int "::1" "631" "/tcp"
           ltac:(discriminate) eq_refl eq_refl eq_refl).
Defined.

Section PidFacts.

Context {pyint : PyInt}.

Lemma not_dash (d name : string) : PyStr.eqb (d ++ "/" ++ name) "-" = false.
Proof.
  unfold PyStr.eqb. apply String.eqb_neq. intros E.
  destruct d as [|a [|b h]]; discriminate.
Qed.

Lemma extract_pid_program_slash (d name : string) :
  PyStr.contains "/" d = false ->
  extract_pid_program (d ++ "/" ++ name)
  = match int d with
    | Some pid => (Some pid, Some name)
    | None => (None, Some (d ++ "/" ++ name))
    end.
Proof.
  intros Hd. unfold extract_pid_program.
  change (d ++ "/" ++ name) with (d ++ String "/" name).
  rewrite not_empty_app. change (d ++ String "/" name) with (d ++ "/" ++ name).
  rewrite not_dash. cbn [orb].
  change (d ++ "/" ++ name) with (d ++ String "/" name).
  rewrite contains_char_app, contains_char, Ascii.eqb_refl, orb_true_r.
  rewrite (split_first_app "/" d name Hd). cbn [nth length].
  destruct (int d); reflexivity.
Qed.

Lemma extract_pid_program_bare (s : string) :
  PyStr.contains "/" s = false ->
  s <> "" -> s <> "-" ->
  extract_pid_program s
  = match int s with
    | Some pid => (Some pid, None)
    | None => (None, Some s)
    end.
Proof.
  intros Hc He Hd. unfold extract_pid_program.
  destruct (PyStr.is_empty s) eqn:E1.
  { apply is_empty_true in E1. contradiction. }
  destruct (PyStr.eqb s "-") eqn:E2.
  { apply String.eqb_eq in E2. contradiction. }
  cbn [orb]. rewrite Hc. reflexivity.
Qed.

End PidFacts.

(** X28: what [extract_pid_program] makes of the PID/Program column.  The
    text is cut at its first slash: when what precedes the slash denotes an
    integer, that is the pid and everything after the first slash, further
    slashes included, is the program; when it does not, there is no pid and
    the whole text is the program.  A text without a slash is a pid alone
    when it denotes an integer, and a program alone otherwise. *)
Theorem extract_pid_program_forms `{PyInt} (d name s : string) :
  (PyStr.contains "/" d = false ->
   extract_pid_program (d ++ "/" ++ name)
   = match int d with
     | Some pid => (Some pid, Some name)
     | None => (None, Some (d ++ "/" ++ name))
     end) /\
  (PyStr.contains "/" s = false ->
   s <> "" -> s <> "-" ->
   extract_pid_program s
   = match int s with
     | Some pid => (Some pid, None)
     | None => (None, Some s)
     end).
Proof.
  split; [apply extract_pid_program_slash|apply extract_pid_program_bare].
Qed.

Lemma extract_pid_program_forms_witness :
  extract_pid_program ("1234" ++ "/" ++ "usr/sbin/sshd") = (Some 1234, Some "usr/sbin/sshd").
Proof.
  exact (proj1 (@extract_pid_program_forms python_int "1234" "usr/sbin/sshd" "") eq_refl).
Defined.

(** *** Fields of a line *)

Lemma split_whitespace_field (p : string) :
  is_field p = true -> PyText.split_whitespace p = [p].
Proof.
  unfold is_field. destruct p as [|c r]; [discriminate|]. cbn [PyStr.is_empty negb andb].
  revert c. induction r as [|c' r IH]; intros c H.
  - cbn [all_chars] in H. apply andb_prop in H as [Hc _]. apply negb_true_iff in Hc.
    cbn [PyText.split_whitespace]. rewrite Hc. reflexivity.
  - cbn [all_chars] in H. apply andb_prop in H as [Hc H].
    pose proof H as H'. cbn [all_chars] in H'. apply andb_prop in H' as [Hc' _].
    apply negb_true_iff in Hc, Hc'.
    change (PyText.split_whitespace (String c (String c' r)))
      with (if PyStr.is_space c then PyText.split_whitespace (String c' r)
            else if PyStr.is_space c'
                 then String c EmptyString :: PyText.split_whitespace (String c' r)
                 else match PyText.split_whitespace (String c' r) with
                      | w :: ws => String c w :: ws
                      | [] => [String c EmptyString]
                      end).
    rewrite Hc, Hc', (IH c' H). reflexivity.
Qed.

Lemma split_whitespace_space (x : string) :
  PyText.split_whitespace (String " " x) = PyText.split_whitespace x.
Proof. reflexivity. Qed.

Lemma split_whitespace_field_app (p x : string) :
  is_field p = true ->
  PyText.split_whitespace (p ++ " " ++ x) = p :: PyText.split_whitespace x.
Proof.
  unfold is_field. destruct p as [|c r]; [discriminate|]. cbn [PyStr.is_empty negb andb].
  revert c. induction r as [|c' r IH]; intros c H.
  - cbn [all_chars] in H. apply andb_prop in H as [Hc _]. apply negb_true_iff in Hc.
    change (String c "" ++ " " ++ x) with (String c (String " " x)).
    change (PyText.split_whitespace (String c (String " " x)))
      with (if PyStr.is_space c then PyText.split_whitespace (String " " x)
            else String c EmptyString :: PyText.split_whitespace (String " " x)).
    rewrite Hc, split_whitespace_space. reflexivity.
  - cbn [all_chars] in H. apply andb_prop in H as [Hc H].
    pose proof H as H'. cbn [all_chars] in H'. apply andb_prop in H' as [Hc' _].
    apply negb_true_iff in Hc, Hc'.
    change (String c (String c' r) ++ " " ++ x)
      with (String c (String c' (r ++ " " ++ x))).
    change (PyText.split_whitespace (String c (String c' (r ++ " " ++ x))))
      with (if PyStr.is_space c
            then PyText.split_whitespace (String c' (r ++ " " ++ x))
            else if PyStr.is_space c'
                 then String c EmptyString
                      :: PyText.split_whitespace (String c' (r ++ " " ++ x))
                 else match PyText.split_whitespace (String c' (r ++ " " ++ x)) with
                      | w :: ws => String c w :: ws
                      | [] => [String c EmptyString]
                      end).
    rewrite Hc, Hc'.
    change (String c' (r ++ " " ++ x)) with (String c' r ++ " " ++ x).
    rewrite (IH c' H). reflexivity.
Qed.

Lemma split_whitespace_unwords (parts : list string) :
  forallb is_field parts = true ->
  PyText.split_whitespace (PyText.unwords parts) = parts.
Proof.
  induction parts as [|p rest IH]; [reflexivity|].
  cbn [forallb]. intros H. apply andb_prop in H as [Hp Hrest].
  destruct rest as [|q rest].
  - apply split_whitespace_field. exact Hp.
  - change (PyText.unwords (p :: q :: rest)) with (p ++ " " ++ PyText.unwords (q :: rest)).
    rewrite (split_whitespace_field_app p _ Hp), (IH Hrest). reflexivity.
Qed.

Lemma split_whitespace_lstrip (s : string) :
  PyText.split_whitespace (PyStr.lstrip s) = PyText.split_whitespace s.
Proof.
  induction s as [|c r IH]; [reflexivity|].
  cbn [PyStr.lstrip]. destruct (PyStr.is_space c) eqn:E; [|reflexivity].
  rewrite IH. cbn [PyText.split_whitespace]. rewrite E. reflexivity.
Qed.

Lemma rstrip_head (r : string) (c1 : ascii) (t1 : string) :
  PyStr.rstrip r = String c1 t1 -> exists r1, r = String c1 r1.
Proof.
  destruct r as [|a r0]; [discriminate|]. cbn [PyStr.rstrip].
  destruct (PyStr.rstrip r0); [destruct (PyStr.is_space a)|];
    intros [= <- _] || discriminate; eauto.
Qed.

Lemma split_whitespace_rstrip (s : string) :
  PyText.split_whitespace (PyStr.rstrip s) = PyText.split_whitespace s.
Proof.
  induction s as [|c r IH]; [reflexivity|].
  cbn [PyStr.rstrip]. destruct (PyStr.rstrip r) as [|c1 t1] eqn:Et.
  - cbn [PyText.split_whitespace] in IH.
    destruct (PyStr.is_space c) eqn:E.
    + cbn [PyText.split_whitespace]. rewrite E. exact IH.
    + cbn [PyText.split_whitespace]. rewrite E.
      destruct r as [|c' r']; [reflexivity|].
      destruct (PyStr.is_space c'); rewrite <- IH; reflexivity.
  - destruct (rstrip_head r c1 t1 Et) as [r1 ->].
    change (PyText.split_whitespace (String c (String c1 t1)))
      with (if PyStr.is_space c then PyText.split_whitespace (String c1 t1)
            else if PyStr.is_space c1
                 then String c EmptyString :: PyText.split_whitespace (String c1 t1)
                 else match PyText.split_whitespace (String c1 t1) with
                      | w :: ws => String c w :: ws
                      | [] => [String c EmptyString]
                      end).
    change (PyText.split_whitespace (String c (String c1 r1)))
      with (if PyStr.is_space c then PyText.split_whitespace (String c1 r1)
            else if PyStr.is_space c1
                 then String c EmptyString :: PyText.split_whitespace (String c1 r1)
                 else match PyText.split_whitespace (String c1 r1) with
                      | w :: ws => String c w :: ws
                      | [] => [String c EmptyString]
                      end).
    rewrite IH. reflexivity.
Qed.

Lemma split_whitespace_strip (s : string) :
  PyText.split_whitespace (PyStr.strip s) = PyText.split_whitespace s.
Proof.
  unfold PyStr.strip. rewrite split_whitespace_rstrip. apply split_whitespace_lstrip.
Qed.

Lemma nth_guard (n : nat) (l : list string) :
  (if (n <? length l)%nat then nth n l "" else "") = nth n l "".
Proof.
  destruct (n <? length l)%nat eqn:E; [reflexivity|].
  apply Nat.ltb_ge in E. symmetry. apply nth_overflow. exact E.
Qed.

Section LineFacts.

Context {pyint : PyInt}.
Variable w : World.

Lemma parse_netstat_line_run (line : string) (s : State) :
  let parts := PyText.split_whitespace line in
  let field i := nth i parts "" in
  parse_netstat_line w line s
  = if (length parts <? 4)%nat then (Ok None, s)
    else match parse_address (field 3%nat), parse_address (field 4%nat) with
         | Ok (local_ip, local_port), Ok (foreign_ip, foreign_port) =>
             (Ok (Some {| timestamp := clock w (tick s);
                          protocol := field 0%nat;
                          state := field 5%nat;
                          raw_line := PyStr.strip line;
                          connection :=
                            {| local_ip := local_ip; local_port := local_port;
                               foreign_ip := foreign_ip; foreign_port := foreign_port;
                               pid := fst (extract_pid_program (field 6%nat));
                               program := snd (extract_pid_program (field 6%nat));
                               risk_score := 0; alerts := [] |} |}),
              set_tick S s)
         | _, _ => (Ok None, s)
         end.
Proof.
  cbv zeta. unfold parse_netstat_line. rewrite split_whitespace_strip, !nth_guard.
  destruct (length (PyText.split_whitespace line) <? 4)%nat; [reflexivity|].
  destruct (extract_pid_program _) as [pid program].
  destruct (parse_address (nth 3 _ _)) as [[lip lport]|e]; [|reflexivity].
  destruct (parse_address (nth 4 _ _)) as [[fip fport]|e]; reflexivity.
Qed.

End LineFacts.

(** X29: the columns of a line.  A line made of fields separated by single
    blanks is read by position: fewer than four fields give no connection
    and the clock is not read; otherwise the first field is the protocol,
    the fourth and fifth the two addresses, the sixth the state and the
    seventh the PID/Program column, missing fields counting as empty, and the
    line is dropped when an address raises.  So a line of at most six fields
    (a UDP line, which has no state column, or any line printed without the
    program column) yields a connection without pid and without program; on
    a six-field UDP line the PID/Program text is taken for the state. *)
Theorem parse_netstat_line_fields `{PyInt} (w : World) (parts : list string) (s : State) :
  forallb is_field parts = true ->
  let line := PyText.unwords parts in
  let field i := nth i parts "" in
  parse_netstat_line w line s
  = (if (length parts <? 4)%nat then (Ok None, s)
     else match parse_address (field 3%nat), parse_address (field 4%nat) with
          | Ok (local_ip, local_port), Ok (foreign_ip, foreign_port) =>
              (Ok (Some {| timestamp := clock w (tick s);
                           protocol := field 0%nat;
                           state := field 5%nat;
                           raw_line := PyStr.strip line;
                           connection :=
                             {| local_ip := local_ip; local_port := local_port;
                                foreign_ip := foreign_ip; foreign_port := foreign_port;
                                pid := fst (extract_pid_program (field 6%nat));
                                program := snd (extract_pid_program (field 6%nat));
                                risk_score := 0; alerts := [] |} |}),
               set_tick S s)
          | _, _ => (Ok None, s)
          end) /\
  ((length parts <= 6)%nat ->
   forall p s', parse_netstat_line w line s = (Ok (Some p), s') ->
                pid (connection p) = None /\ program (connection p) = None /\
                state p = field 5%nat).
Proof.
  intros Hf line field.
  pose proof (parse_netstat_line_run w (PyText.unwords parts) s) as Hrun.
  cbv zeta in Hrun. rewrite (split_whitespace_unwords parts Hf) in Hrun.
  split; [exact Hrun|].
  intros Hlen p s'. subst line field. cbv beta. rewrite Hrun.
  assert (H6 : nth 6 parts "" = "") by (apply nth_overflow; exact Hlen).
  rewrite H6.
  destruct (length parts <? 4)%nat; [discriminate|].
  destruct (parse_address (nth 3 parts "")) as [[lip lport]|e]; [|discriminate].
  destruct (parse_address (nth 4 parts "")) as [[fip fport]|e]; [|discriminate].
  intros [= <- _]. repeat split.
Qed.

Lemma parse_netstat_line_fields_witness :
  exists p s',
    parse_netstat_line linux_ok
      (PyText.unwords ["udp"; "0"; "0"; "192.168.1.5:68"; "8.8.8.8:31337"; "812/tmpx"])
      empty_state = (Ok (Some p), s') /\
    pid (connection p) = None /\ program (connection p) = None /\ state p = "812/tmpx".
Proof.
  eexists _, _. split; [vm_compute; reflexivity|].
  refine (proj2 (@parse_netstat_line_fields python_int linux_ok
                   ["udp"; "0"; "0"; "192.168.1.5:68"; "8.8.8.8:31337"; "812/tmpx"]
                   empty_state eq_refl) _ _ _ _).
  - simpl. lia.
  - vm_compute. reflexivity.
Defined.

(** *** The whole output *)

Lemma lower_app (a b : string) : PyStr.lower (a ++ b) = PyStr.lower a ++ PyStr.lower b.
Proof.
  induction a as [|c a IH]; [reflexivity|].
  change (String c a ++ b) with (String c (a ++ b)). cbn [PyStr.lower].
  rewrite IH. reflexivity.
Qed.

Lemma lstrip_suffix (s : string) : exists a, s = a ++ PyStr.lstrip s.
Proof.
  induction s as [|c r [a IH]]; [exists ""; reflexivity|].
  cbn [PyStr.lstrip]. destruct (PyStr.is_space c).
  - exists (String c a). change (String c a ++ PyStr.lstrip r)
      with (String c (a ++ PyStr.lstrip r)). rewrite <- IH. reflexivity.
  - exists "". reflexivity.
Qed.

Lemma append_nil_r (s : string) : s ++ "" = s.
Proof.
  induction s as [|c r IH]; [reflexivity|].
  change (String c r ++ "") with (String c (r ++ "")). rewrite IH. reflexivity.
Qed.

Lemma rstrip_prefix (s : string) : exists b, s = PyStr.rstrip s ++ b.
Proof.
  induction s as [|c r [b IH]]; [exists ""; reflexivity|].
  cbn [PyStr.rstrip]. destruct (PyStr.rstrip r) as [|c1 t1].
  - destruct (PyStr.is_space c).
    + exists (String c r). reflexivity.
    + exists r. reflexivity.
  - exists b. change (String c (String c1 t1) ++ b) with (String c (String c1 t1 ++ b)).
    rewrite <- IH. reflexivity.
Qed.

Lemma prefix_app (h y z : string) :
  String.prefix h y = true -> String.prefix h (y ++ z) = true.
Proof.
  revert y. induction h as [|a h IH]; intros y.
  - intros _. apply prefix_empty.
  - destruct y as [|b y]; [discriminate|].
    change (String b y ++ z) with (String b (y ++ z)). cbn [String.prefix].
    destruct (ascii_dec a b); [apply IH|discriminate].
Qed.

Lemma contains_app_l (h y z : string) :
  PyStr.contains h y = true -> PyStr.contains h (y ++ z) = true.
Proof.
  induction y as [|c y IH].
  - cbn [PyStr.contains]. rewrite orb_false_r. intros Hp.
    change ("" ++ z) with z. destruct h; [|discriminate].
    destruct z; reflexivity.
  - change (String c y ++ z) with (String c (y ++ z)). cbn [PyStr.contains].
    intros H. apply orb_true_iff in H as [H|H].
    + change (String c (y ++ z)) with (String c y ++ z).
      rewrite (prefix_app h (String c y) z H). reflexivity.
    + rewrite (IH H). apply orb_true_r.
Qed.

Lemma contains_app_r (h x y : string) :
  PyStr.contains h y = true -> PyStr.contains h (x ++ y) = true.
Proof.
  intros H. induction x as [|c x IH]; [exact H|].
  change (String c x ++ y) with (String c (x ++ y)). cbn [PyStr.contains].
  rewrite IH. apply orb_true_r.
Qed.

Lemma contains_lower_strip (h s : string) :
  PyStr.contains h (PyStr.lower (PyStr.strip s)) = true ->
  PyStr.contains h (PyStr.lower s) = true.
Proof.
  intros H. unfold PyStr.strip in H.
  destruct (lstrip_suffix s) as [a Ea].
  destruct (rstrip_prefix (PyStr.lstrip s)) as [b Eb].
  rewrite Ea, Eb, !lower_app.
  apply contains_app_r, contains_app_l. exact H.
Qed.

Lemma is_header_strip (line : string) :
  is_header line = false -> is_header (PyStr.strip line) = false.
Proof.
  unfold is_header. intros H.
  destruct (existsb _ header_words) eqn:E in |- *; [|reflexivity].
  apply existsb_exists in E as (h & Hin & Hc).
  apply contains_lower_strip in Hc.
  assert (existsb (fun header => PyStr.contains header (PyStr.lower line)) header_words
          = true) by (apply existsb_exists; eauto).
  congruence.
Qed.

Lemma set_tick_zero (s : State) : set_tick (Nat.add 0) s = s.
Proof. destruct s; reflexivity. Qed.

Lemma set_tick_succ (n : nat) (s : State) :
  set_tick (Nat.add n) (set_tick S s) = set_tick (Nat.add (S n)) s.
Proof. unfold set_tick. cbn. f_equal. lia. Qed.

Section OutputFacts.

Context {lib : IpAddressLib} {pyint : PyInt}.
Variable w : World.
Variable config : Config.

Lemma parse_netstat_line_cases (line : string) (s : State) :
  parse_netstat_line w line s = (Ok None, s) \/
  exists p, parse_netstat_line w line s = (Ok (Some p), set_tick S s) /\
            raw_line p = PyStr.strip line /\ alerts (connection p) = [].
Proof.
  rewrite parse_netstat_line_run. cbv zeta.
  destruct (length _ <? 4)%nat; [left; reflexivity|].
  destruct (parse_address (nth 3 _ _)) as [[lip lport]|e]; [|left; reflexivity].
  destruct (parse_address (nth 4 _ _)) as [[fip fport]|e]; [|left; reflexivity].
  right. eexists. split; [reflexivity|]. split; reflexivity.
Qed.

Lemma parse_lines_run (lines : list string) :
  forall s, exists ps,
    parse_lines w lines s = (Ok ps, set_tick (Nat.add (length ps)) s) /\
    (length ps <= length lines)%nat /\
    Forall (fun p => is_header (raw_line p) = false /\ alerts (connection p) = []) ps.
Proof.
  induction lines as [|line rest IH]; intros s.
  - exists []. rewrite set_tick_zero. repeat split; constructor.
  - cbn [parse_lines]. destruct (is_header line) eqn:Hh.
    + destruct (IH s) as (ps & -> & Hlen & Hall).
      exists ps. repeat split; [simpl; lia|exact Hall].
    + rewrite bind_run.
      destruct (parse_netstat_line_cases line s) as [->|(p & -> & Hraw & Ha)].
      * rewrite bind_run. destruct (IH s) as (ps & -> & Hlen & Hall).
        exists ps. repeat split; [simpl; lia|exact Hall].
      * rewrite bind_run. destruct (IH (set_tick S s)) as (ps & -> & Hlen & Hall).
        exists (p :: ps). unfold ret. cbn [length]. rewrite set_tick_succ.
        repeat split; [lia|].
        constructor; [|exact Hall].
        split; [rewrite Hraw; apply is_header_strip; exact Hh|exact Ha].
Qed.

Lemma zip_analyzed (ps : list ParsedConnection) :
  zip_with (fun p c => set_connection c p) ps
    (fst (analyze_connections config (map connection ps)))
  = map (fun p => set_connection (fst (analyze_connection config (connection p))) p) ps.
Proof.
  induction ps as [|p ps IH]; [reflexivity|].
  cbn [map]. rewrite analyze_connections_cons. cbn [fst zip_with]. rewrite IH.
  reflexivity.
Qed.

Lemma alerts_analyzed (ps : list ParsedConnection) :
  Forall (fun p => alerts (connection p) = []) ps ->
  snd (analyze_connections config (map connection ps))
  = flat_map (fun p => alerts (connection p))
      (map (fun p => set_connection (fst (analyze_connection config (connection p))) p) ps).
Proof.
  induction 1 as [|p ps Hp Hps IH]; [reflexivity|].
  cbn [map flat_map]. rewrite analyze_connections_cons. cbn [snd]. rewrite IH.
  f_equal. cbn [set_connection connection]. unfold analyze_connection.
  destruct (50 <? _); [reflexivity|]. simpl. symmetry. exact Hp.
Qed.

End OutputFacts.

(** X30: the analysis of a whole netstat output.  Whatever the text,
    [analyze_netstat_comprehensive] returns: a line that cannot be parsed is
    skipped, never fatal.  It yields at most one connection per line and
    reads the clock once per connection, doing nothing else to the state.
    No returned connection comes from a line containing, in any letter case,
    one of the words proto, active, local address or netid: such a line is
    dropped as a header even when it is a connection line, so a connection
    of a program whose name contains one of these words is never analysed.
    The alerts returned are the alerts attached to the returned
    connections, in order. *)
Theorem analysis_of_output `{IpAddressLib} `{PyInt} (w : World) (config : Config)
    (netstat_output : string) (s : State) :
  let lines := PyStr.split (ascii_of_N 10) (PyStr.strip netstat_output) in
  exists connections all_alerts,
    analyze_netstat_comprehensive w config netstat_output s
    = (Ok (connections, all_alerts), set_tick (Nat.add (length connections)) s) /\
    (length connections <= length lines)%nat /\
    Forall (fun p => is_header (raw_line p) = false) connections /\
    all_alerts = flat_map (fun p => alerts (connection p)) connections.
Proof.
  intros lines. unfold analyze_netstat_comprehensive. fold lines.
  rewrite bind_run.
  destruct (parse_lines_run w lines s) as (ps & -> & Hlen & Hall).
  destruct (analyze_connections config (map connection ps)) as [cs al] eqn:Ea.
  pose proof (zip_analyzed config ps) as Hz. rewrite Ea in Hz. cbn [fst] in Hz.
  pose proof (alerts_analyzed config ps) as Hal. rewrite Ea in Hal. cbn [snd] in Hal.
  exists (zip_with (fun p c => set_connection c p) ps cs), al.
  rewrite Hz, length_map. unfold ret.
  split; [reflexivity|]. split; [exact Hlen|]. split.
  - clear Hz Hal Ea Hlen. induction Hall as [|p l [Hh _] _ IH]; cbn [map]; constructor.
    + exact Hh.
    + exact IH.
  - apply Hal. clear Hz Hal Ea Hlen.
    induction Hall as [|p l [_ Ha] _ IH]; constructor; assumption.
Qed.
